(** * The products block (blocks/products/products.js)

    A shallow embedding of the products block of an AEM Edge Delivery site
    and the proofs of its specification.  The source file holds two
    revisions of the block.  [log], [getProductDataByContentPath] and
    [parseProductItems] are the same text in both and are embedded once;
    [createProductCard] and [decorate] differ and live in the modules
    [V1] (first revision) and [V2] (second revision).

    JavaScript strings are modelled by [string]; a character stands for a
    UTF-16 code unit below 256.  A content fragment is a record whose
    fields, where present, are strings, as the persisted query types them;
    [createProductCard] is embedded a second time over any parsed JSON
    value, in the modules [V1Json] and [V2Json], and the two embeddings
    agree on the records with string fields.
    Function bodies are trees of their effects (console lines, requests,
    calls of [moveInstrumentation], awaits); an async function is run one
    turn at a time, and [Promise.all] under a schedule, the order in which
    the awaited promises settle.  The timestamp and the data object of a
    console line are not recorded.

    The file has three parts: the embedding of the source, the definitions
    the specification is stated with, and the properties. *)

From Stdlib Require Import String Ascii List Bool Arith NArith Lia DecimalString.
Import ListNotations.
Open Scope string_scope.
#[local] Set Warnings "-register-all".

(** ** JavaScript string primitives used by the block *)

Definition dquote : string := String (ascii_of_nat 34) "".
Definition LF : ascii := ascii_of_nat 10.
Definition nl : string := String LF "".

(** [q s] is [s] between double quotes, as in a serialised attribute. *)
Definition q (s : string) : string := dquote ++ s ++ dquote.

(** Decimal rendering of a number inside a template literal. *)
Definition decimal (n : N) : string := NilZero.string_of_uint (N.to_uint n).

(** A string in a boolean position: only the empty string is falsy. *)
Definition truthy (s : string) : bool :=
  match s with "" => false | String _ _ => true end.

(** [a || b] on strings. *)
Definition orElse (a b : string) : string := if truthy a then a else b.

(** [o?.x || b] where the left operand may be undefined or null. *)
Definition orDefault (o : option string) (b : string) : string :=
  match o with Some a => orElse a b | None => b end.

(** WhiteSpace and LineTerminator code units below 256: TAB, LF, VT, FF, CR,
    SP and NBSP. *)
Definition isWhiteSpace (c : ascii) : bool :=
  let n := nat_of_ascii c in
  ((9 <=? n)%nat && (n <=? 13)%nat) || (n =? 32)%nat || (n =? 160)%nat.

Fixpoint trimStart (s : string) : string :=
  match s with
  | "" => ""
  | String c s' => if isWhiteSpace c then trimStart s' else s
  end.

Fixpoint trimEnd (s : string) : string :=
  match s with
  | "" => ""
  | String c s' =>
      let t := trimEnd s' in
      if isWhiteSpace c && negb (truthy t) then "" else String c t
  end.

(** String.prototype.trim *)
Definition trim (s : string) : string := trimEnd (trimStart s).

(** [s.replace(/pat/g, rep)] for a literal, non-empty pattern: the matches
    are taken leftmost first and do not overlap.  [skip] counts the
    characters of the current match that are still to be dropped. *)
Fixpoint replaceFrom (pat rep : string) (skip : nat) (s : string) : string :=
  match s with
  | "" => ""
  | String c s' =>
      match skip with
      | S k => replaceFrom pat rep k s'
      | O =>
          if prefix pat s
          then rep ++ replaceFrom pat rep (String.length pat - 1) s'
          else String c (replaceFrom pat rep 0 s')
      end
  end.

Definition replaceAll (pat rep s : string) : string :=
  match pat with
  | "" => s
  | _ => replaceFrom pat rep 0 s
  end.

(** [s.split(sep)] for a one-character separator. *)
Fixpoint split (sep : ascii) (s : string) : list string :=
  match s with
  | "" => [""]
  | String c s' =>
      if Ascii.eqb c sep then "" :: split sep s'
      else match split sep s' with
           | [] => [String c ""]
           | w :: ws => String c w :: ws
           end
  end.

(** String.prototype.includes *)
Fixpoint includes (needle s : string) : bool :=
  prefix needle s ||
  match s with
  | "" => false
  | String _ s' => includes needle s'
  end.

(** The concatenation of a list of strings. *)
Definition concat_all (l : list string) : string := fold_right append "" l.

(** ** Data model *)

(** An error value: name and message ([stack] is not modelled). *)
Record JsError := mkError { name : string; message : string }.

(** [new Error(msg)] *)
Definition Error (msg : string) : JsError := mkError "Error" msg.

(** The content fragment returned by the persisted query, with the types
    the query gives its fields.  A field that is undefined or null in the
    JSON is [None].  A fragment with a field of another type is a [Json]
    value, below. *)
Record RichText := { plaintext : option string }.
Record ImageRef := { _authorUrl : option string }.
Record ProductRecord := {
  creditCardName : option string;
  creditCardDescription : option RichText;
  promo : option RichText;
  notes : option RichText;
  creditCardImage : option ImageRef
}.

(** The parsed body [{ data: { productCreditCardModelByPath: { item } } }];
    every level may be missing. *)
Record ByPath := { item : option ProductRecord }.
Record Data := { productCreditCardModelByPath : option ByPath }.
Record GraphQLBody := { data : option Data }.

(** A fetch Response: [json] is what [response.json()] settles with, a
    SyntaxError or the parsed body ([None] when the body is not an object). *)
Record Response := {
  status : N;
  statusText : string;
  url : string;
  json : JsError + option GraphQLBody
}.

(** [response.ok]: the status is in the range 200-299. *)
Definition ok (r : Response) : bool :=
  ((200 <=? status r) && (status r <=? 299))%N.

Record RequestInit := { credentials : string }.

Inductive FetchOutcome :=
| Rejected (e : JsError)
| Fulfilled (r : Response).

(** Who acts: [decorate] itself or the callback of the i-th item. *)
Inductive Actor := Main | Item (i : nat).

(** The network: what the fetch issued by an actor for a request settles
    with. *)
Definition Network := Actor -> string -> RequestInit -> FetchOutcome.

Record ProductItem := { productName : string; fragmentPath : string }.

(** The authored DOM below the block. *)
Inductive Node :=
| TextNode (text : string)
| CommentNode (text : string)
| Element (tagName : string) (attrs : list (string * string)) (childNodes : list Node).

Definition isElement (n : Node) : bool :=
  match n with Element _ _ _ => true | _ => false end.

(** [el.children]: the element children. *)
Definition children (n : Node) : list Node :=
  match n with
  | Element _ _ cs => filter isElement cs
  | _ => []
  end.

(** [el.textContent]: the text of all descendants, comments left out. *)
Fixpoint textContent (n : Node) : string :=
  match n with
  | TextNode s => s
  | CommentNode _ => ""
  | Element _ _ cs =>
      (fix all (l : list Node) : string :=
         match l with
         | [] => ""
         | c :: l' => textContent c ++ all l'
         end) cs
  end.

Definition Attrs := list (string * string).

(** An element built by the block: [innerHTML] is the markup assigned to it
    and [appended] the elements added with appendChild. *)
Inductive Elem := mkElem {
  tag : string;
  className : string;
  attributes : Attrs;
  innerHTML : string;
  appended : list Elem
}.

(** [document.createElement(tag)] *)
Definition createElement (t : string) : Elem := mkElem t "" [] "" [].
Definition withClassName (c : string) (e : Elem) : Elem :=
  mkElem (tag e) c (attributes e) (innerHTML e) (appended e).
Definition withInnerHTML (h : string) (e : Elem) : Elem :=
  mkElem (tag e) (className e) (attributes e) h (appended e).
Definition withAttributes (a : Attrs) (e : Elem) : Elem :=
  mkElem (tag e) (className e) a (innerHTML e) (appended e).
Definition appendChild (c : Elem) (e : Elem) : Elem :=
  mkElem (tag e) (className e) (attributes e) (innerHTML e) (appended e ++ [c]).

(** The block element handed to [decorate]. *)
Record Block := {
  blockAttributes : Attrs;
  blockDisplay : string;
  blockChildNodes : list Node
}.

(** What the block shows: the authored rows, or markup assigned through
    innerHTML followed by appended elements. *)
Inductive Content :=
| Authored (rows : list Node)
| Markup (html : string) (els : list Elem).

(** The collaborators outside the file.

    [escapeAttribute] is the browser's escaping of an attribute value in
    [outerHTML].

    Modelled from the spec: [moveInstrumentation] of scripts.js is not part
    of the sources; it carries the editor/authoring instrumentation
    attributes from one element to another.  It is given the attributes of
    both elements and returns the new attributes of both. *)
Class Host := {
  escapeAttribute : string -> string;
  moveInstrumentation : Attrs -> Attrs -> Attrs * Attrs
}.

(** ** Effects *)

Inductive Level := info | warn | error.

Inductive Event :=
| EvLog (level : Level) (msg : string)
| EvFetch (u : string) (options : RequestInit)
| EvMoveInstrumentation (to : Elem).

(** The page: the console and calls made so far, and the block. *)
Record Page := {
  trace : list (Actor * Event);
  attrsOfBlock : Attrs;
  display : string;
  content : Content
}.

Definition emit (a : Actor) (e : Event) (p : Page) : Page :=
  {| trace := trace p ++ [(a, e)]; attrsOfBlock := attrsOfBlock p;
     display := display p; content := content p |}.
Definition setBlockAttrs (x : Attrs) (p : Page) : Page :=
  {| trace := trace p; attrsOfBlock := x; display := display p; content := content p |}.
Definition setDisplay (d : string) (p : Page) : Page :=
  {| trace := trace p; attrsOfBlock := attrsOfBlock p; display := d; content := content p |}.
(** [block.innerHTML = html] *)
Definition setInnerHTML (h : string) (p : Page) : Page :=
  {| trace := trace p; attrsOfBlock := attrsOfBlock p; display := display p;
     content := Markup h [] |}.
(** [block.appendChild(e)] *)
Definition appendToBlock (e : Elem) (p : Page) : Page :=
  {| trace := trace p; attrsOfBlock := attrsOfBlock p; display := display p;
     content := match content p with
                | Markup h es => Markup h (es ++ [e])
                | Authored rows => Authored rows
                end |}.

Definition pageOf (b : Block) : Page :=
  {| trace := []; attrsOfBlock := blockAttributes b; display := blockDisplay b;
     content := Authored (blockChildNodes b) |}.

(** A function body as a tree of its effects.  [Fetch] and [Tick] are the
    points where an async function is suspended: [await fetch(..)], and an
    await on a promise that settles without the network. *)
Inductive Js (A : Type) : Type :=
| Return (a : A)
| Throw (e : JsError)
| Log (level : Level) (msg : string) (k : Js A)
| MoveInstrumentation (to : Elem) (k : Elem -> Js A)
| Fetch (u : string) (options : RequestInit) (k : FetchOutcome -> Js A)
| Tick (k : Js A).
Arguments Return {A} a.
Arguments Throw {A} e.
Arguments Log {A} level msg k.
Arguments MoveInstrumentation {A} to k.
Arguments Fetch {A} u options k.
Arguments Tick {A} k.

Fixpoint bind {A B} (m : Js A) (f : A -> Js B) : Js B :=
  match m with
  | Return a => f a
  | Throw e => Throw e
  | Log l s k => Log l s (bind k f)
  | MoveInstrumentation c k => MoveInstrumentation c (fun c' => bind (k c') f)
  | Fetch u o k => Fetch u o (fun r => bind (k r) f)
  | Tick k => Tick (bind k f)
  end.

(** [try { m } catch (e) { h e }] *)
Fixpoint tryCatch {A} (m : Js A) (h : JsError -> Js A) : Js A :=
  match m with
  | Return a => Return a
  | Throw e => h e
  | Log l s k => Log l s (tryCatch k h)
  | MoveInstrumentation c k => MoveInstrumentation c (fun c' => tryCatch (k c') h)
  | Fetch u o k => Fetch u o (fun r => tryCatch (k r) h)
  | Tick k => Tick (tryCatch k h)
  end.

(** [await f(..)] for an async function [f]: the body runs in the caller's
    turn up to its first suspension, and the caller resumes one tick after
    the body has settled, with its value or its error. *)
Fixpoint awaitCall {A} (m : Js A) : Js A :=
  match m with
  | Return a => Tick (Return a)
  | Throw e => Tick (Throw e)
  | Log l s k => Log l s (awaitCall k)
  | MoveInstrumentation c k => MoveInstrumentation c (fun c' => awaitCall (k c'))
  | Fetch u o k => Fetch u o (fun r => awaitCall (k r))
  | Tick k => Tick (awaitCall k)
  end.

Declare Scope js_scope.
Delimit Scope js_scope with js.
Notation "x <- m ;; k" := (bind m (fun x => k))
  (at level 61, m at next level, right associativity) : js_scope.
Notation "m ;; k" := (bind m (fun _ => k))
  (at level 61, right associativity) : js_scope.
Open Scope js_scope.

(** [log(level, message, data)]: the timestamp and the data object are not
    recorded. *)
Definition log (level : Level) (msg : string) : Js unit :=
  Log level msg (Return tt).

(** [await fetch(url, options)] *)
Definition fetch (u : string) (options : RequestInit) : Js Response :=
  Fetch u options (fun o =>
    match o with
    | Rejected e => Throw e
    | Fulfilled r => Return r
    end).

(** [await response.json()] *)
Definition responseJson (r : Response) : Js (option GraphQLBody) :=
  Tick (match json r with
        | inl e => Throw e
        | inr cf => Return cf
        end).

(** [a?.f] *)
Definition chain {A B} (a : option A) (f : A -> option B) : option B :=
  match a with
  | Some x => f x
  | None => None
  end.
Notation "a ?. f" := (chain a f) (at level 25, left associativity) : js_scope.

(** [list.forEach((x, index) => ..)] where the body updates a variable of
    the enclosing function. *)
Fixpoint forEach {A St} (l : list A) (body : A -> nat -> St -> Js St) (index : nat)
  (s : St) : Js St :=
  match l with
  | [] => Return s
  | x :: l' => s' <- body x index s ;; forEach l' body (S index) s'
  end.

(** ** The code shared by both revisions *)

Definition AEM_AUTHOR_URL : string := "https://author-p9606-e71941.adobeaemcloud.com".
Definition GRAPHQL_ENDPOINT : string :=
  "/graphql/execute.json/jan-cf-models/getProductCreditCardByPath;path=".

Definition getProductDataByContentPath (contentPath : string) : Js (option ProductRecord) :=
  log info ("Fetching content fragment: " ++ contentPath) ;;
  tryCatch
    (let url := AEM_AUTHOR_URL ++ GRAPHQL_ENDPOINT ++ contentPath in
     log info "Making GraphQL request" ;;
     let options := {| credentials := "include" |} in
     response <- fetch url options ;;
     log info "Response received" ;;
     if negb (ok response) then
       Throw (Error ("HTTP error! status: " ++ decimal (status response)
                     ++ " - " ++ statusText response))
     else
       cf <- responseJson response ;;
       log info "GraphQL response parsed" ;;
       let cfData := cf ?. data ?. productCreditCardModelByPath ?. item in
       match cfData with
       | None =>
           log warn "No product data found in response" ;;
           Return None
       | Some d =>
           log info "Product data fetched successfully" ;;
           Return (Some d)
       end)
    (fun e =>
       log error ("Failed to fetch GraphQL Data: " ++ message e) ;;
       Throw (Error ("Failed to fetch GraphQL Data: " ++ message e))).

(** [cells[i]?.textContent?.trim() || ''] *)
Definition cellText (cells : list Node) (i : nat) : string :=
  orDefault (option_map (fun c => trim (textContent c)) (nth_error cells i)) "".

(** The callback of [rows.forEach] in [parseProductItems]; [items] is the
    array it pushes to. *)
Definition parseRow (row : Node) (index : nat) (items : list ProductItem)
  : Js (list ProductItem) :=
  let cells := children row in
  if (2 <=? List.length cells)%nat then
    let productName := cellText cells 0 in
    let fragmentPath := cellText cells 1 in
    if truthy fragmentPath then
      let items := (items ++ [{| productName := productName;
                                 fragmentPath := fragmentPath |}])%list in
      log info ("Parsed product item " ++ decimal (N.of_nat (index + 1))) ;;
      Return items
    else
      log warn ("Product item " ++ decimal (N.of_nat (index + 1))
                ++ " missing fragment path") ;;
      Return items
  else
    log warn ("Product item " ++ decimal (N.of_nat (index + 1))
              ++ " has insufficient cells") ;;
    Return items.

Definition parseProductItems (block : Block) : Js (list ProductItem) :=
  log info "Parsing product items from block" ;;
  let rows := filter isElement (blockChildNodes block) in
  items <- forEach rows parseRow 0 [] ;;
  log info ("Parsed " ++ decimal (N.of_nat (List.length items)) ++ " product items") ;;
  Return items.

(** ** Running a function *)

(** An async function between two turns of the event loop. *)
Inductive Task (A : Type) : Type :=
| Settled (r : JsError + A)
| AwaitingFetch (u : string) (options : RequestInit) (k : FetchOutcome -> Js A)
| AwaitingTick (k : Js A).
Arguments Settled {A} r.
Arguments AwaitingFetch {A} u options k.
Arguments AwaitingTick {A} k.

Section Run.
Context {host : Host}.
Variable net : Network.

(** [moveInstrumentation(block, to)] on the page. *)
Definition callMoveInstrumentation (who : Actor) (to : Elem) (p : Page) : Page * Elem :=
  let '(b', a') := moveInstrumentation (attrsOfBlock p) (attributes to) in
  (setBlockAttrs b' (emit who (EvMoveInstrumentation to) p), withAttributes a' to).

(** Runs a function to its end; every await is answered at once. *)
Fixpoint run {A} (who : Actor) (m : Js A) (p : Page) : Page * (JsError + A) :=
  match m with
  | Return a => (p, inr a)
  | Throw e => (p, inl e)
  | Log l s k => run who k (emit who (EvLog l s) p)
  | MoveInstrumentation c k =>
      let '(p', c') := callMoveInstrumentation who c p in run who (k c') p'
  | Fetch u o k => run who (k (net who u o)) (emit who (EvFetch u o) p)
  | Tick k => run who k p
  end.

(** Runs a function up to its next await; a fetch is issued when the
    await on it is reached. *)
Fixpoint advance {A} (who : Actor) (m : Js A) (p : Page) : Page * Task A :=
  match m with
  | Return a => (p, Settled (inr a))
  | Throw e => (p, Settled (inl e))
  | Log l s k => advance who k (emit who (EvLog l s) p)
  | MoveInstrumentation c k =>
      let '(p', c') := callMoveInstrumentation who c p in advance who (k c') p'
  | Fetch u o k => (emit who (EvFetch u o) p, AwaitingFetch u o k)
  | Tick k => (p, AwaitingTick k)
  end.

(** The awaited promise has settled and the function goes on. *)
Definition resume {A} (who : Actor) (t : Task A) (p : Page) : Page * Task A :=
  match t with
  | Settled r => (p, Settled r)
  | AwaitingFetch u o k => advance who (k (net who u o)) p
  | AwaitingTick k => advance who k p
  end.
End Run.

(** ** Promise.all over the item callbacks *)

Fixpoint firstRejected {A} (pool : list (Task A)) : option JsError :=
  match pool with
  | [] => None
  | Settled (inl e) :: _ => Some e
  | _ :: rest => firstRejected rest
  end.

Fixpoint allFulfilled {A} (pool : list (Task A)) : option (list A) :=
  match pool with
  | [] => Some []
  | Settled (inr a) :: rest => option_map (cons a) (allFulfilled rest)
  | _ :: _ => None
  end.

(** What [Promise.all] has settled with, if it has: the first rejection, or
    all the values in the order of the promises. *)
Definition settlement {A} (pool : list (Task A)) : option (JsError + list A) :=
  match firstRejected pool with
  | Some e => Some (inl e)
  | None => option_map inr (allFulfilled pool)
  end.

Fixpoint setNth {A} (i : nat) (x : A) (l : list A) : list A :=
  match l, i with
  | [], _ => []
  | _ :: l', O => x :: l'
  | y :: l', S i' => y :: setNth i' x l'
  end.

Section Schedule.
Context {host : Host}.
Variable net : Network.

(** [items.map(async (item) => ..)]: every callback runs, in order, up to
    its first await. *)
Fixpoint spawnAll {A B} (f : A -> Js B) (i : nat) (items : list A) (p : Page)
  : Page * list (Task B) :=
  match items with
  | [] => (p, [])
  | item :: rest =>
      let '(p1, t) := advance (Item i) (f item) p in
      let '(p2, ts) := spawnAll f (S i) rest p1 in
      (p2, t :: ts)
  end.

(** One turn of the event loop: the promise awaited by callback [i] has
    settled. *)
Definition turn {B} (i : nat) (pool : list (Task B)) (p : Page) : Page * list (Task B) :=
  match nth_error pool i with
  | None => (p, pool)
  | Some t => let '(p', t') := resume net (Item i) t p in (p', setNth i t' pool)
  end.

(** [await Promise.all(pool)] under a schedule, the order in which the
    awaited promises settle.  [None]: the schedule ends before
    [Promise.all] has settled.  After a rejection the callbacks still
    suspended are no longer followed. *)
Fixpoint promiseAll {B} (sched : list nat) (pool : list (Task B)) (p : Page)
  : Page * option (JsError + list B) :=
  match settlement pool with
  | Some r => (p, Some r)
  | None =>
      match sched with
      | [] => (p, None)
      | i :: sched' => let '(p', pool') := turn i pool p in promiseAll sched' pool' p'
      end
  end.

(** The callback of [productItems.map] in [decorate], the same text in
    both revisions, over the revision's [createProductCard]. *)
Definition processItem (createProductCard : string -> option ProductRecord -> Js Elem)
  (item : ProductItem) : Js Elem :=
  log info ("Processing product item: " ++ productName item) ;;
  tryCatch
    (fragmentData <- awaitCall (getProductDataByContentPath (fragmentPath item)) ;;
     card <- createProductCard (productName item) fragmentData ;;
     card <- MoveInstrumentation card (fun card' => Return card') ;;
     Return card)
    (fun e =>
       log error ("Failed to process product item: " ++ productName item) ;;
       createProductCard (productName item) None).
End Schedule.

(** [list.forEach((x, index) => ..)] with a body that only updates a local
    variable. *)
Fixpoint forEachPure {A St} (l : list A) (body : A -> nat -> St -> St) (index : nat)
  (s : St) : St :=
  match l with
  | [] => s
  | x :: l' => forEachPure l' body (S index) (body x index s)
  end.

(** [picture.outerHTML] for a picture holding one img with the given
    attributes, in the order they were set. *)
Definition pictureOuterHTML {host : Host} (imgAttrs : Attrs) : string :=
  "<picture><img"
  ++ concat_all (map (fun kv => " " ++ fst kv ++ "=" ++ q (escapeAttribute (snd kv))) imgAttrs)
  ++ "></picture>".

Definition indent (n : nat) : string := nl ++ concat_all (repeat " " n).

(** ** First revision *)

Module V1.
Section Card.
Context {host : Host}.

(** The arrow function [formatText] of [createProductCard].  In the
    regular expression [/\u003E/g] the escape stands for the character [>]
    itself, so the third replacement has [>] as its pattern. *)
Definition formatText (text : string) : string :=
  if negb (truthy text) then ""
  else trim (replaceAll ">" ">"
               (replaceAll nl "<br>"
                  (replaceAll (nl ++ nl) "</p><p>" text))).

(** The fallback markup of a card without fragment data. *)
Definition fallbackHTML (productName : string) : string :=
  indent 6 ++ "<div class=" ++ q "products-card-body" ++ ">"
  ++ indent 8 ++ "<h3 class=" ++ q "products-card-title" ++ ">"
  ++ orElse productName "Product" ++ "</h3>"
  ++ indent 8 ++ "<p class=" ++ q "products-card-error"
  ++ ">Content fragment data not available</p>"
  ++ indent 6 ++ "</div>"
  ++ indent 4.

(** The three interpolated text blocks of the card template. *)
Definition textBlock (cls : string) (text : string) : string :=
  if truthy text
  then "<div class=" ++ q cls ++ "><p>" ++ formatText text ++ "</p></div>"
  else "".

Definition cardTitle (productName : string) (fragmentData : ProductRecord) : string :=
  orElse (orDefault (creditCardName fragmentData) productName) "Product".

Definition createProductCard (productName : string) (fragmentData : option ProductRecord)
  : Js Elem :=
  log info "Creating product card" ;;
  let li := withClassName "products-card" (createElement "li") in
  match fragmentData with
  | None => Return (withInnerHTML (fallbackHTML productName) li)
  | Some fragmentData =>
      imageHtml <-
        (let authorUrl := orDefault (creditCardImage fragmentData ?. _authorUrl) "" in
         if truthy authorUrl then
           let altText := orDefault (creditCardName fragmentData) "Credit Card" in
           log info "Using direct author URL for image" ;;
           let img := [("src", authorUrl); ("alt", altText); ("loading", "lazy");
                       ("style", "width: 100%; height: auto;")] in
           Return ("<div class=" ++ q "products-card-image" ++ ">"
                   ++ pictureOuterHTML img ++ "</div>")
         else Return "") ;;
      let description := orDefault (creditCardDescription fragmentData ?. plaintext) "" in
      let promo := orDefault (promo fragmentData ?. plaintext) "" in
      let notes := orDefault (notes fragmentData ?. plaintext) "" in
      let cardContent :=
        indent 4 ++ imageHtml
        ++ indent 4 ++ "<div class=" ++ q "products-card-body" ++ ">"
        ++ indent 6 ++ "<h3 class=" ++ q "products-card-title" ++ ">"
        ++ cardTitle productName fragmentData ++ "</h3>"
        ++ indent 6 ++ textBlock "products-card-description" description
        ++ indent 6 ++ textBlock "products-card-promo" promo
        ++ indent 6 ++ textBlock "products-card-notes" notes
        ++ indent 4 ++ "</div>"
        ++ indent 2 in
      let li := withInnerHTML cardContent li in
      log info "Product card created successfully" ;;
      Return li
  end.

(** [decorate(block)] on the page of [block], under a network and a
    schedule.  The boolean tells whether [decorate] has run to its end
    within the schedule. *)
Definition decorate (net : Network) (sched : list nat) (block : Block) : Page * bool :=
  let p := emit Main (EvLog info "Starting products block decoration") (pageOf block) in
  let '(p, r) :=
    let '(p, r) := run net Main (parseProductItems block) p in
    match r with
    | inl e => (p, Some (inl e))
    | inr productItems =>
        if (List.length productItems =? 0)%nat then
          let p := emit Main (EvLog warn "No product items found in block") p in
          (setInnerHTML "<p>No products to display</p>" p, Some (inr tt))
        else
          let ul := withClassName "products-list" (createElement "ul") in
          let p := setInnerHTML ("<div class=" ++ q "products-loading"
                                 ++ ">Loading products...</div>") p in
          let '(p, pool) := spawnAll (processItem createProductCard) 0 productItems p in
          match promiseAll net sched pool p with
          | (p, None) => (p, None)
          | (p, Some (inl e)) => (p, Some (inl e))
          | (p, Some (inr productCards)) =>
              let ul := forEachPure productCards (fun card _ ul => appendChild card ul) 0 ul in
              let p := setInnerHTML "" p in
              let p := appendToBlock ul p in
              let p := emit Main (EvLog info
                ("Products block decoration completed with "
                 ++ decimal (N.of_nat (List.length productCards)) ++ " items")) p in
              (p, Some (inr tt))
          end
    end in
  match r with
  | None => (p, false)
  | Some (inr _) => (p, true)
  | Some (inl e) =>
      let p := emit Main (EvLog error "Failed to decorate products block") p in
      (setInnerHTML ("<p class=" ++ q "products-error"
                     ++ ">Failed to load products. Please try again later.</p>") p, true)
  end.
End Card.
End V1.

(** ** Second revision *)

Module V2.
Section Card.
Context {host : Host}.

(** The arrow function [formatText] of [createProductCard]; the pattern
    [/\u003E/g] is the character [>] itself. *)
Definition formatText (text : string) : string :=
  if negb (truthy text) then ""
  else trim (replaceAll ">" ">" text).

(** [formatted.split('\n').filter(line => line.trim())] *)
Definition nonBlankLines (formatted : string) : list string :=
  filter (fun line => truthy (trim line)) (split LF formatted).

Definition formatPromoContent (promoText : string) : string :=
  if negb (truthy promoText) then ""
  else
    let formatted := formatText promoText in
    let lines := nonBlankLines formatted in
    forEachPure lines (fun line index content =>
      if includes "special offer:" line || includes "Rewards special offer:" line
      then content ++ "<h4>" ++ line ++ "</h4>"
      else content ++ "<p>" ++ line ++ "</p>") 0 "".

Definition formatNotesContent (notesText : string) : string :=
  if negb (truthy notesText) then ""
  else
    let formatted := formatText notesText in
    let lines := nonBlankLines formatted in
    forEachPure lines (fun line index content =>
      if (index =? 0)%nat && includes "Important numbers" line then content
      else if truthy (trim line) then content ++ "<p>" ++ line ++ "</p>"
      else content) 0 "<h4>Important numbers for new cards:</h4>".

Definition fallbackHTML (productName : string) : string :=
  indent 6 ++ "<div class=" ++ q "product-card-body" ++ ">"
  ++ indent 8 ++ "<h3>" ++ orElse productName "Product" ++ "</h3>"
  ++ indent 8 ++ "<p>Content fragment data not available</p>"
  ++ indent 6 ++ "</div>"
  ++ indent 4.

(** The three interpolated text blocks of the card template. *)
Definition textBlock (cls : string) (format : string -> string) (text : string) : string :=
  if truthy text
  then "<div class=" ++ q cls ++ ">" ++ format text ++ "</div>"
  else "".

Definition cardTitle (productName : string) (fragmentData : ProductRecord) : string :=
  orElse (orDefault (creditCardName fragmentData) productName) "Product".

Definition createProductCard (productName : string) (fragmentData : option ProductRecord)
  : Js Elem :=
  log info "Creating product card" ;;
  let li := withClassName "product-card" (createElement "li") in
  match fragmentData with
  | None =>
      let li := withClassName "product-card product-error" li in
      Return (withInnerHTML (fallbackHTML productName) li)
  | Some fragmentData =>
      imageHtml <-
        (let authorUrl := orDefault (creditCardImage fragmentData ?. _authorUrl) "" in
         if truthy authorUrl then
           let altText := orDefault (creditCardName fragmentData) "Credit Card" in
           log info "Using direct author URL for image" ;;
           let img := [("src", authorUrl); ("alt", altText); ("loading", "lazy")] in
           Return ("<div class=" ++ q "product-card-image" ++ ">"
                   ++ pictureOuterHTML img ++ "</div>")
         else Return "") ;;
      let description := orDefault (creditCardDescription fragmentData ?. plaintext) "" in
      let promo := orDefault (promo fragmentData ?. plaintext) "" in
      let notes := orDefault (notes fragmentData ?. plaintext) "" in
      let cardContent :=
        indent 4 ++ imageHtml
        ++ indent 4 ++ "<div class=" ++ q "product-card-body" ++ ">"
        ++ indent 6 ++ "<h3 class=" ++ q "product-title" ++ ">"
        ++ cardTitle productName fragmentData ++ "</h3>"
        ++ indent 6 ++ textBlock "product-description" formatText description
        ++ indent 6 ++ textBlock "product-promo" formatPromoContent promo
        ++ indent 6 ++ textBlock "product-notes" formatNotesContent notes
        ++ indent 6 ++ "<div class=" ++ q "product-cta" ++ ">"
        ++ indent 8 ++ "<a href=" ++ q "#" ++ " class=" ++ q "product-cta-button"
        ++ ">Find out more</a>"
        ++ indent 6 ++ "</div>"
        ++ indent 4 ++ "</div>"
        ++ indent 2 in
      let li := withInnerHTML cardContent li in
      log info "Product card created successfully" ;;
      Return li
  end.

(** [decorate(block)] on the page of [block], under a network and a
    schedule.  The boolean tells whether [decorate] has run to its end
    within the schedule. *)
Definition decorate (net : Network) (sched : list nat) (block : Block) : Page * bool :=
  let p := emit Main (EvLog info "Starting products block decoration") (pageOf block) in
  let '(p, r) :=
    let '(p, r) := run net Main (parseProductItems block) p in
    match r with
    | inl e => (p, Some (inl e))
    | inr productItems =>
        if (List.length productItems =? 0)%nat then
          let p := emit Main (EvLog warn "No product items found in block") p in
          let p := setDisplay "block" p in
          (setInnerHTML "<p>No products to display</p>" p, Some (inr tt))
        else
          let titleSection :=
            withInnerHTML "<h2>Your card options</h2>"
              (withClassName "products-title" (createElement "div")) in
          let ul := createElement "ul" in
          let p := setDisplay "block" p in
          let p := setInnerHTML ("<div class=" ++ q "products-loading"
                                 ++ ">Loading products...</div>") p in
          let '(p, pool) := spawnAll (processItem createProductCard) 0 productItems p in
          match promiseAll net sched pool p with
          | (p, None) => (p, None)
          | (p, Some (inl e)) => (p, Some (inl e))
          | (p, Some (inr productCards)) =>
              let ul := forEachPure productCards (fun card _ ul => appendChild card ul) 0 ul in
              let p := setInnerHTML "" p in
              let p := setDisplay "" p in
              let p := appendToBlock titleSection p in
              let p := appendToBlock ul p in
              let p := emit Main (EvLog info
                ("Products block decoration completed with "
                 ++ decimal (N.of_nat (List.length productCards)) ++ " items")) p in
              (p, Some (inr tt))
          end
    end in
  match r with
  | None => (p, false)
  | Some (inr _) => (p, true)
  | Some (inl e) =>
      let p := emit Main (EvLog error "Failed to decorate products block") p in
      let p := setDisplay "block" p in
      (setInnerHTML ("<p class=" ++ q "products-error"
                     ++ ">Failed to load products. Please try again later.</p>") p, true)
  end.
End Card.
End V2.

(** ** The renderer over any parsed JSON value

    [createProductCard] is called with whatever [response.json()] gave.
    The modules [V1] and [V2] above take a record whose fields are strings
    where they are present; the modules [V1Json] and [V2Json] below are the
    same function bodies over any parsed JSON value, with the conversions
    and method calls that fail on a value of another type. *)

(** A parsed JSON value.  Of a number the block uses only whether it is
    zero and its conversion to a string.  An object is the list of its
    properties, each key once (of a repeated key the first entry counts). *)
Inductive Json :=
| JNull
| JBool (b : bool)
| JNumber (zero : bool) (shown : string)
| JString (s : string)
| JArray (elements : list Json)
| JObject (properties : list (string * Json)).

(** A value in a boolean position. *)
Definition truthyJson (v : Json) : bool :=
  match v with
  | JNull => false
  | JBool b => b
  | JNumber zero _ => negb zero
  | JString s => truthy s
  | JArray _ | JObject _ => true
  end.

(** The same for the result of a property access, [None] being undefined. *)
Definition truthyValue (v : option Json) : bool :=
  match v with
  | Some x => truthyJson x
  | None => false
  end.

Fixpoint lookup (k : string) (properties : list (string * Json)) : option Json :=
  match properties with
  | [] => None
  | (k', v) :: rest => if String.eqb k k' then Some v else lookup k rest
  end.

(** [v.k] for a value that is neither null nor undefined and a key that
    the prototype of no JSON value has. *)
Definition prop (v : Json) (k : string) : option Json :=
  match v with
  | JObject properties => lookup k properties
  | _ => None
  end.

(** [v?.k] *)
Definition propOpt (v : option Json) (k : string) : option Json :=
  match v with
  | None | Some JNull => None
  | Some x => prop x k
  end.

(** [v || w] *)
Definition orJson (v : option Json) (w : Json) : Json :=
  match v with
  | Some x => if truthyJson x then x else w
  | None => w
  end.

(** The conversion of a value to a string.  An array is the conversions of
    its elements joined by commas, null standing for the empty string.  An
    object is converted by its [toString] method: an object with a property
    of that name of its own has no method to call, since no JSON value is a
    function, and [valueOf] gives the object back; the conversion then
    fails. *)
Fixpoint toStringJson (v : Json) : option string :=
  match v with
  | JNull => Some "null"
  | JBool true => Some "true"
  | JBool false => Some "false"
  | JNumber _ shown => Some shown
  | JString s => Some s
  | JArray elements =>
      (fix join (first : bool) (l : list Json) : option string :=
         match l with
         | [] => Some ""
         | x :: l' =>
             match match x with JNull => Some "" | _ => toStringJson x end, join false l' with
             | Some a, Some b => Some ((if first then "" else ",") ++ a ++ b)
             | _, _ => None
             end
         end) true elements
  | JObject properties =>
      match lookup "toString" properties with
      | Some _ => None
      | None => Some "[object Object]"
      end
  end.

(** The errors of a failed conversion and of a call of a method the value
    does not have. *)
Definition cannotConvert : JsError :=
  mkError "TypeError" "Cannot convert object to primitive value".
Definition notAFunction (what : string) : JsError :=
  mkError "TypeError" (what ++ " is not a function").

(** A value interpolated into a template literal or assigned to a string
    attribute of an element. *)
Definition toStringJs (v : option Json) : Js string :=
  match v with
  | Some x =>
      match toStringJson x with
      | Some s => Return s
      | None => Throw cannotConvert
      end
  | None => Return "undefined"
  end.

Module V1Json.
Section Card.
Context {host : Host}.

Definition formatText (text : Json) : Js string :=
  if negb (truthyJson text) then Return ""
  else match text with
       | JString s =>
           Return (trim (replaceAll ">" ">"
                           (replaceAll nl "<br>"
                              (replaceAll (nl ++ nl) "</p><p>" s))))
       | _ => Throw (notAFunction "text.replace")
       end.

(** One of the three interpolated text blocks of the card template. *)
Definition textBlock (cls : string) (text : Json) : Js string :=
  if truthyJson text then
    formatted <- formatText text ;;
    Return ("<div class=" ++ q cls ++ "><p>" ++ formatted ++ "</p></div>")
  else Return "".

Definition createProductCard (productName : string) (fragmentData : option Json)
  : Js Elem :=
  log info "Creating product card" ;;
  let li := withClassName "products-card" (createElement "li") in
  let fallback := withInnerHTML (V1.fallbackHTML productName) li in
  match fragmentData with
  | None => Return fallback
  | Some fragmentData =>
      if negb (truthyJson fragmentData) then Return fallback
      else
        imageHtml <-
          (let authorUrl := propOpt (prop fragmentData "creditCardImage") "_authorUrl" in
           if truthyValue authorUrl then
             let altText := orJson (prop fragmentData "creditCardName") (JString "Credit Card") in
             log info "Using direct author URL for image" ;;
             src <- toStringJs authorUrl ;;
             alt <- toStringJs (Some altText) ;;
             let img := [("src", src); ("alt", alt); ("loading", "lazy");
                         ("style", "width: 100%; height: auto;")] in
             Return ("<div class=" ++ q "products-card-image" ++ ">"
                     ++ pictureOuterHTML img ++ "</div>")
           else Return "") ;;
        let description :=
          orJson (propOpt (prop fragmentData "creditCardDescription") "plaintext") (JString "") in
        let promo := orJson (propOpt (prop fragmentData "promo") "plaintext") (JString "") in
        let notes := orJson (propOpt (prop fragmentData "notes") "plaintext") (JString "") in
        title <- toStringJs
                   (Some (orJson (Some (orJson (prop fragmentData "creditCardName")
                                          (JString productName)))
                            (JString "Product"))) ;;
        descriptionHtml <- textBlock "products-card-description" description ;;
        promoHtml <- textBlock "products-card-promo" promo ;;
        notesHtml <- textBlock "products-card-notes" notes ;;
        let cardContent :=
          indent 4 ++ imageHtml
          ++ indent 4 ++ "<div class=" ++ q "products-card-body" ++ ">"
          ++ indent 6 ++ "<h3 class=" ++ q "products-card-title" ++ ">"
          ++ title ++ "</h3>"
          ++ indent 6 ++ descriptionHtml
          ++ indent 6 ++ promoHtml
          ++ indent 6 ++ notesHtml
          ++ indent 4 ++ "</div>"
          ++ indent 2 in
        let li := withInnerHTML cardContent li in
        log info "Product card created successfully" ;;
        Return li
  end.
End Card.
End V1Json.

Module V2Json.
Section Card.
Context {host : Host}.

Definition formatText (text : Json) : Js string :=
  if negb (truthyJson text) then Return ""
  else match text with
       | JString s => Return (trim (replaceAll ">" ">" s))
       | _ => Throw (notAFunction "text.replace")
       end.

Definition formatPromoContent (promoText : Json) : Js string :=
  if negb (truthyJson promoText) then Return ""
  else
    formatted <- formatText promoText ;;
    let lines := V2.nonBlankLines formatted in
    Return (forEachPure lines (fun line index content =>
      if includes "special offer:" line || includes "Rewards special offer:" line
      then content ++ "<h4>" ++ line ++ "</h4>"
      else content ++ "<p>" ++ line ++ "</p>") 0 "").

Definition formatNotesContent (notesText : Json) : Js string :=
  if negb (truthyJson notesText) then Return ""
  else
    formatted <- formatText notesText ;;
    let lines := V2.nonBlankLines formatted in
    Return (forEachPure lines (fun line index content =>
      if (index =? 0)%nat && includes "Important numbers" line then content
      else if truthy (trim line) then content ++ "<p>" ++ line ++ "</p>"
      else content) 0 "<h4>Important numbers for new cards:</h4>").

(** One of the three interpolated text blocks of the card template. *)
Definition textBlock (cls : string) (format : Json -> Js string) (text : Json) : Js string :=
  if truthyJson text then
    formatted <- format text ;;
    Return ("<div class=" ++ q cls ++ ">" ++ formatted ++ "</div>")
  else Return "".

Definition createProductCard (productName : string) (fragmentData : option Json)
  : Js Elem :=
  log info "Creating product card" ;;
  let li := withClassName "product-card" (createElement "li") in
  let fallback :=
    withInnerHTML (V2.fallbackHTML productName)
      (withClassName "product-card product-error" li) in
  match fragmentData with
  | None => Return fallback
  | Some fragmentData =>
      if negb (truthyJson fragmentData) then Return fallback
      else
        imageHtml <-
          (let authorUrl := propOpt (prop fragmentData "creditCardImage") "_authorUrl" in
           if truthyValue authorUrl then
             let altText := orJson (prop fragmentData "creditCardName") (JString "Credit Card") in
             log info "Using direct author URL for image" ;;
             src <- toStringJs authorUrl ;;
             alt <- toStringJs (Some altText) ;;
             let img := [("src", src); ("alt", alt); ("loading", "lazy")] in
             Return ("<div class=" ++ q "product-card-image" ++ ">"
                     ++ pictureOuterHTML img ++ "</div>")
           else Return "") ;;
        let description :=
          orJson (propOpt (prop fragmentData "creditCardDescription") "plaintext") (JString "") in
        let promo := orJson (propOpt (prop fragmentData "promo") "plaintext") (JString "") in
        let notes := orJson (propOpt (prop fragmentData "notes") "plaintext") (JString "") in
        title <- toStringJs
                   (Some (orJson (Some (orJson (prop fragmentData "creditCardName")
                                          (JString productName)))
                            (JString "Product"))) ;;
        descriptionHtml <- textBlock "product-description" formatText description ;;
        promoHtml <- textBlock "product-promo" formatPromoContent promo ;;
        notesHtml <- textBlock "product-notes" formatNotesContent notes ;;
        let cardContent :=
          indent 4 ++ imageHtml
          ++ indent 4 ++ "<div class=" ++ q "product-card-body" ++ ">"
          ++ indent 6 ++ "<h3 class=" ++ q "product-title" ++ ">"
          ++ title ++ "</h3>"
          ++ indent 6 ++ descriptionHtml
          ++ indent 6 ++ promoHtml
          ++ indent 6 ++ notesHtml
          ++ indent 6 ++ "<div class=" ++ q "product-cta" ++ ">"
          ++ indent 8 ++ "<a href=" ++ q "#" ++ " class=" ++ q "product-cta-button"
          ++ ">Find out more</a>"
          ++ indent 6 ++ "</div>"
          ++ indent 4 ++ "</div>"
          ++ indent 2 in
        let li := withInnerHTML cardContent li in
        log info "Product card created successfully" ;;
        Return li
  end.
End Card.
End V2Json.

(** ** Sample host and inputs *)

(** Attribute escaping of the HTML serialisation algorithm: ampersand,
    no-break space and double quote. *)
Definition escapeAttr (s : string) : string :=
  replaceAll dquote "&quot;"
    (replaceAll (String (ascii_of_nat 160) "") "&nbsp;" (replaceAll "&" "&amp;" s)).

Definition isInstrumentation (kv : string * string) : bool :=
  prefix "data-aue-" (fst kv) || prefix "data-richtext-" (fst kv).

(** A host whose [moveInstrumentation] takes the [data-aue-*] and
    [data-richtext-*] attributes away from the first element and gives them
    to the second. *)
Definition sampleHost : Host := {|
  escapeAttribute := escapeAttr;
  moveInstrumentation from to :=
    (filter (fun kv => negb (isInstrumentation kv)) from,
     (to ++ filter isInstrumentation from)%list)
|}.

Definition cell (s : string) : Node := Element "div" [] [TextNode s].
Definition row (cells : list string) : Node := Element "div" [] (map cell cells).

Definition sampleBlock : Block := {|
  blockAttributes := [("class", "products block"); ("data-aue-resource", "urn:aem:block")];
  blockDisplay := "";
  blockChildNodes :=
    [row ["Card A"; " /content/dam/a "]; TextNode " "; row [""; ""]; row ["only one cell"];
     row ["Card B"; "/content/dam/b"]]
|}.

Definition sampleRecord : ProductRecord := {|
  creditCardName := Some "Gold Card";
  creditCardDescription := Some {| plaintext := Some ("Line one" ++ nl ++ nl ++ "Line two") |};
  promo := Some {| plaintext := Some ("Rewards special offer:" ++ nl ++ "1 &gt; 0") |};
  notes := None;
  creditCardImage := Some {| _authorUrl := Some "https://author/a.png" |}
|}.

Definition bodyOf (r : option ProductRecord) : GraphQLBody :=
  {| data := Some {| productCreditCardModelByPath := Some {| item := r |} |} |}.

Definition respond (st : N) (text : string) (body : JsError + option GraphQLBody) : Response :=
  {| status := st; statusText := text; url := ""; json := body |}.

(** A network where the first item's request is rejected and every other
    request is answered with [sampleRecord]. *)
Definition sampleNet : Network := fun who _ _ =>
  match who with
  | Item 0 => Rejected (mkError "TypeError" "Failed to fetch")
  | _ => Fulfilled (respond 200 "OK" (inr (Some (bodyOf (Some sampleRecord)))))
  end.

(** * Definitions for the specification *)

(** ** The parser *)

(** A row qualifies when it has at least two cells and the trimmed text of
    the second one is not empty. *)
Definition qualifies (row : Node) : bool :=
  match children row with
  | _ :: c1 :: _ => truthy (trim (textContent c1))
  | _ => false
  end.

(** The item read from a qualifying row. *)
Definition parsedFrom (row : Node) (item : ProductItem) : Prop :=
  exists c0 c1 rest,
    children row = c0 :: c1 :: rest /\
    productName item = trim (textContent c0) /\
    fragmentPath item = trim (textContent c1).

(** ** The fetcher *)

(** The URL and options of the request for a fragment path. *)
Definition requestUrl (contentPath : string) : string :=
  AEM_AUTHOR_URL ++ GRAPHQL_ENDPOINT ++ contentPath.
Definition requestOptions : RequestInit := {| credentials := "include" |}.

(** A fetch that fails, with the message of the failure: the request is
    rejected, or the response has a status outside 200-299. *)
Inductive fetchFails : FetchOutcome -> string -> Prop :=
| network_failure (e : JsError) : fetchFails (Rejected e) (message e)
| bad_status (r : Response) :
    ok r = false ->
    fetchFails (Fulfilled r)
      ("HTTP error! status: " ++ decimal (status r) ++ " - " ++ statusText r).

(** The requests recorded in a trace. *)
Definition isFetch (x : Actor * Event) : bool :=
  match snd x with EvFetch _ _ => true | _ => false end.
Definition requests (p : Page) : list (Actor * Event) := filter isFetch (trace p).

(** ** Functions that only log *)

(** A function body that writes the lines [l] to the console and goes on
    as [m]. *)
Fixpoint logs {A} (l : list (Level * string)) (m : Js A) : Js A :=
  match l with
  | [] => m
  | (lv, s) :: l' => Log lv s (logs l' m)
  end.

(** The page after [who] has written the lines [l] to the console. *)
Definition emitLogs (who : Actor) (l : list (Level * string)) (p : Page) : Page :=
  fold_left (fun p x => emit who (EvLog (fst x) (snd x)) p) l p.

(** [m] writes to the console and returns [a]. *)
Definition returns {A} (m : Js A) (a : A) : Prop :=
  exists l, m = logs l (Return a).

(** ** The renderer *)

(** The title the specification asks for: the record's name when it has
    one (a non-empty string), else the given name when it is not empty, else
    the literal. *)
Definition titleSpec (productName : string) (d : ProductRecord) : string :=
  match creditCardName d with
  | Some (String c s) => String c s
  | _ => match productName with
         | String _ _ => productName
         | "" => "Product"
         end
  end.

(** The plaintext of a rich-text field, empty when the field or its
    plaintext is missing. *)
Definition plaintextOf (f : option RichText) : string :=
  match f with
  | Some (Build_RichText (Some s)) => s
  | _ => ""
  end.

(** Line-break conversion: a double line break becomes a paragraph break,
    a remaining line break becomes a [br], and the result is trimmed. *)
Definition lineBreaks (text : string) : string :=
  trim (replaceAll nl "<br>" (replaceAll (nl ++ nl) "</p><p>" text)).

(** First revision: a block is one paragraph of converted text. *)
Definition paragraphBlock (cls text : string) : string :=
  if String.eqb text "" then ""
  else "<div class=" ++ q cls ++ "><p>" ++ lineBreaks text ++ "</p></div>".

(** Second revision: one element per non-blank line. *)
Definition promoLine (line : string) : string :=
  if includes "special offer:" line then "<h4>" ++ line ++ "</h4>"
  else "<p>" ++ line ++ "</p>".
Definition paragraph (line : string) : string := "<p>" ++ line ++ "</p>".
Definition afterTitle (lines : list string) : list string :=
  match lines with
  | first :: rest => if includes "Important numbers" first then rest else lines
  | [] => []
  end.

Definition descriptionBlock2 (text : string) : string :=
  if String.eqb text "" then ""
  else "<div class=" ++ q "product-description" ++ ">" ++ trim text ++ "</div>".
Definition promoBlock2 (text : string) : string :=
  if String.eqb text "" then ""
  else "<div class=" ++ q "product-promo" ++ ">"
       ++ concat_all (map promoLine (V2.nonBlankLines (trim text))) ++ "</div>".
Definition notesBlock2 (text : string) : string :=
  if String.eqb text "" then ""
  else "<div class=" ++ q "product-notes" ++ ">"
       ++ "<h4>Important numbers for new cards:</h4>"
       ++ concat_all (map paragraph (afterTitle (V2.nonBlankLines (trim text)))) ++ "</div>".

(** The formatting the specification describes: line-break conversion and
    the decoding of an encoded greater-than sign. *)
Definition formatTextSpec (text : string) : string :=
  replaceAll "&gt;" ">" (replaceAll nl "<br>" (replaceAll (nl ++ nl) "</p><p>" text)).

(** A record whose description holds an entity and a line break. *)
Definition gtRecord : ProductRecord := {|
  creditCardName := Some "Gold Card";
  creditCardDescription := Some {| plaintext := Some ("Fee &gt; 0" ++ nl ++ "Terms apply") |};
  promo := None;
  notes := None;
  creditCardImage := None
|}.

(** ** Callbacks under a schedule *)

Definition actor_eqb (a b : Actor) : bool :=
  match a, b with
  | Main, Main => true
  | Item i, Item j => Nat.eqb i j
  | _, _ => false
  end.

(** The events of one actor, in the order of the trace. *)
Definition eventsOf (who : Actor) (p : Page) : list Event :=
  map snd (filter (fun x => actor_eqb (fst x) who) (trace p)).

(** [p'] is [p] after [who] has emitted [evs]. *)
Definition extends (who : Actor) (p p' : Page) (evs : list Event) : Prop :=
  trace p' = (trace p ++ map (pair who) evs)%list.

(** [finishes net who Q d t done]: the callback of [who], which has emitted
    [done] so far, is fulfilled after at most [d] more turns, whatever the
    other actors do to the page in between; it emits events under its own
    name only, and [Q] holds of its value and of all the events it has
    emitted. *)
Fixpoint finishes {host : Host} (net : Network) {A} (who : Actor)
  (Q : A -> list Event -> Prop) (d : nat) (t : Task A) (done : list Event) : Prop :=
  match t with
  | Settled (inr a) => Q a done
  | Settled (inl _) => False
  | _ =>
      match d with
      | O => False
      | S d' =>
          forall p, exists evs,
            extends who p (fst (resume net who t p)) evs /\
            finishes net who Q d' (snd (resume net who t p)) (done ++ evs)
      end
  end.

(** Every callback of the pool finishes within its budget of turns; [p0]
    is the page on which the callbacks started. *)
Definition poolOK {host : Host} (net : Network) {B : Type}
  (QQ : nat -> B -> list Event -> Prop) (p0 : Page)
  (budget : nat -> nat) (pool : list (Task B)) (p : Page) : Prop :=
  forall i t, nth_error pool i = Some t ->
    exists done,
      eventsOf (Item i) p = (eventsOf (Item i) p0 ++ done)%list /\
      finishes net (Item i) (QQ i) (budget i) t done.

(** What the fetcher settles with, as a function of what the network does. *)
Definition fetched (o : FetchOutcome) : JsError + option ProductRecord :=
  match o with
  | Rejected e => inl (Error ("Failed to fetch GraphQL Data: " ++ message e))
  | Fulfilled r =>
      if ok r then
        match json r with
        | inl e => inl (Error ("Failed to fetch GraphQL Data: " ++ message e))
        | inr cf => inr (cf ?. data ?. productCreditCardModelByPath ?. item)
        end
      else inl (Error ("Failed to fetch GraphQL Data: "
                       ++ "HTTP error! status: " ++ decimal (status r)
                       ++ " - " ++ statusText r))
  end.

Definition isMove (e : Event) : bool :=
  match e with EvMoveInstrumentation _ => true | _ => false end.
Definition isRequest (e : Event) : bool :=
  match e with EvFetch _ _ => true | _ => false end.

(** The calls of [moveInstrumentation] and of [fetch] among some events. *)
Definition moves (evs : list Event) : list Event := filter isMove evs.
Definition fetches (evs : list Event) : list Event := filter isRequest evs.

Definition logEvents (l : list (Level * string)) : list Event :=
  map (fun x => EvLog (fst x) (snd x)) l.

(** What holds of the card of an item and of the events of its callback:
    one request was made; after a failed fetch the card is the fallback
    card and [moveInstrumentation] was not called; otherwise the card is
    the one rendered from what the fetcher returned, up to the attributes
    that the one call of [moveInstrumentation] has given it. *)
Definition itemDone (createProductCard : string -> option ProductRecord -> Js Elem)
  (item : ProductItem) (o : FetchOutcome) (card : Elem)
  (evs : list Event) : Prop :=
  fetches evs = [EvFetch (requestUrl (fragmentPath item)) requestOptions] /\
  match fetched o with
  | inl _ => returns (createProductCard (productName item) None) card /\ moves evs = []
  | inr fragmentData =>
      exists rendered attrs,
        returns (createProductCard (productName item) fragmentData) rendered /\
        card = withAttributes attrs rendered /\
        moves evs = [EvMoveInstrumentation rendered]
  end.

(** A schedule gives each of [n] callbacks the three turns it may need: for
    the response, for its body, and for the fetcher's promise. *)
Definition covers (n : nat) (sched : list nat) : bool :=
  forallb (fun i => 3 <=? count_occ Nat.eq_dec sched i)%nat (seq 0 n).

(** The outcome of the request of the i-th item. *)
Definition outcomeOf (net : Network) (i : nat) (it : ProductItem) : FetchOutcome :=
  net (Item i) (requestUrl (fragmentPath it)) requestOptions.

(** What holds of the i-th card and of the events of the i-th callback. *)
Definition cardDone (net : Network)
  (createProductCard : string -> option ProductRecord -> Js Elem)
  (items : list ProductItem) (i : nat) (card : Elem)
  (evs : list Event) : Prop :=
  match nth_error items i with
  | Some it => itemDone createProductCard it (outcomeOf net i it) card evs
  | None => False
  end.

(** The item of a row, when the row qualifies. *)
Definition rowItem (row : Node) : list ProductItem :=
  match children row with
  | c0 :: c1 :: _ =>
      if truthy (trim (textContent c1))
      then [{| productName := trim (textContent c0);
               fragmentPath := trim (textContent c1) |}]
      else []
  | _ => []
  end.

(** The items of a block: those of its rows, in order. *)
Definition itemsOf (block : Block) : list ProductItem :=
  flat_map rowItem (filter isElement (blockChildNodes block)).

(** What [decorate] leaves for a block with items, under a covering
    schedule: it has run to its end, the block holds the cards of the
    items in their order, and each callback has done what [cardDone]
    says. *)
Definition renderedWith (net : Network)
  (createProductCard : string -> option ProductRecord -> Js Elem)
  (block : Block) (p : Page) (cards : list Elem) : Prop :=
  List.length cards = List.length (itemsOf block) /\
  moves (eventsOf Main p) = [] /\
  forall i card, nth_error cards i = Some card ->
    cardDone net createProductCard (itemsOf block) i card (eventsOf (Item i) p).

(** The record handed to the renderer for a fetch outcome: what the fetcher
    returned, or nothing after a failure. *)
Definition recordOf (o : FetchOutcome) : option ProductRecord :=
  match fetched o with
  | inl _ => None
  | inr fragmentData => fragmentData
  end.

(** The URL encoding the specification speaks of: every character but
    letters, digits and [- _ . ! ~ * ' ( )] becomes percent escapes of its
    UTF-8 bytes. *)
Definition isUnreserved (c : ascii) : bool :=
  let n := nat_of_ascii c in
  ((65 <=? n) && (n <=? 90))%nat || ((97 <=? n) && (n <=? 122))%nat
  || ((48 <=? n) && (n <=? 57))%nat || includes (String c "") "-_.!~*'()".

Definition hexDigit (n : nat) : ascii :=
  nth n (list_ascii_of_string "0123456789ABCDEF") "0"%char.

Definition percent (n : nat) : string :=
  "%" ++ String (hexDigit (n / 16)) (String (hexDigit (n mod 16)) "").

Definition urlencodeUnit (c : ascii) : string :=
  let n := nat_of_ascii c in
  if isUnreserved c then String c ""
  else if (n <? 128)%nat then percent n
  else percent (192 + n / 64) ++ percent (128 + n mod 64).

Fixpoint urlencode (s : string) : string :=
  match s with
  | "" => ""
  | String c s' => urlencodeUnit c ++ urlencode s'
  end.

(** ** Further sample inputs *)

(** A block with one qualifying row. *)
Definition oneRowBlock : Block := {|
  blockAttributes := [("data-aue-resource", "urn:aem:block")];
  blockDisplay := "";
  blockChildNodes := [row ["Card A"; "/content/dam/a"]]
|}.

(** Every request is answered with status 404. *)
Definition net404 : Network := fun _ _ _ => Fulfilled (respond 404 "Not Found" (inr None)).

(** The body [{ data: {} }] with status 200. *)
Definition netEmptyData : Network := fun _ _ _ =>
  Fulfilled (respond 200 "OK"
               (inr (Some {| data := Some {| productCreditCardModelByPath := None |} |}))).

(** A schedule for two callbacks in which the second one settles first. *)
Definition sampleSchedule : list nat := [1; 0; 1; 0; 0; 1].

(** ** Definitions for the further properties *)

(** The levels of the console lines written for the rows of a block: info
    for a row that gives an item, warn for a row that is skipped. *)
Definition rowLevels (rows : list Node) : list Level :=
  map (fun row => if qualifies row then info else warn) rows.

(** A string has no white space at either end. *)
Definition trimmed (s : string) : Prop := trim s = s.

(** Line breaks read from left to right: two adjacent line feeds become a
    paragraph break, any other line feed becomes a [br], every other
    character stays. *)
Fixpoint breaks (s : string) : string :=
  match s with
  | "" => ""
  | String c s' =>
      if Ascii.eqb c LF then
        match s' with
        | String c' s'' =>
            if Ascii.eqb c' LF then "</p><p>" ++ breaks s'' else "<br>" ++ breaks s'
        | "" => "<br>"
        end
      else String c (breaks s')
  end.

(** The image block of a record: present when the record has an image
    with a non-empty author URL, with the given extra attributes of the
    [img] element. *)
Definition imageBlock {host : Host} (cls : string) (extra : Attrs) (d : ProductRecord)
  : string :=
  match creditCardImage d with
  | Some (Build_ImageRef (Some (String c u))) =>
      "<div class=" ++ q cls ++ ">"
      ++ pictureOuterHTML
           (([("src", String c u);
             ("alt", match creditCardName d with
                     | Some (String c' n) => String c' n
                     | _ => "Credit Card"
                     end);
             ("loading", "lazy")] : Attrs) ++ extra)%list
      ++ "</div>"
  | _ => ""
  end.

(** The requests of the items of a block, in the order of the items,
    starting with the item of index [k]. *)
Fixpoint requestsOf (k : nat) (items : list ProductItem) : list (Actor * Event) :=
  match items with
  | [] => []
  | it :: rest =>
      (Item k, EvFetch (requestUrl (fragmentPath it)) requestOptions) :: requestsOf (S k) rest
  end.

(** A function body that makes no request. *)
Fixpoint noFetch {A} (m : Js A) : Prop :=
  match m with
  | Return _ | Throw _ => True
  | Log _ _ k => noFetch k
  | MoveInstrumentation _ k => forall c, noFetch (k c)
  | Fetch _ _ _ => False
  | Tick k => noFetch k
  end.

(** A suspended callback that makes no request when it goes on. *)
Definition quiet {A} (t : Task A) : Prop :=
  match t with
  | Settled _ => True
  | AwaitingFetch _ _ k => forall r, noFetch (k r)
  | AwaitingTick k => noFetch k
  end.

(** The markup [decorate] shows while the callbacks run, and the markup of
    its error page. *)
Definition loadingMarkup : string :=
  "<div class=" ++ q "products-loading" ++ ">Loading products...</div>".
Definition errorMarkup : string :=
  "<p class=" ++ q "products-error"
  ++ ">Failed to load products. Please try again later.</p>".

(** A block without a qualifying row. *)
Definition noItemsBlock : Block := {|
  blockAttributes := [];
  blockDisplay := "flex";
  blockChildNodes := [row [""; ""]; CommentNode "note"; row ["Card C"]]
|}.

(** An ok response whose body is not JSON, and an ok response whose body
    has no item. *)
Definition netBadJson : Network := fun _ _ _ =>
  Fulfilled (respond 200 "OK" (inl (mkError "SyntaxError" "Unexpected token <"))).
Definition netRecord : Network := fun _ _ _ =>
  Fulfilled (respond 200 "OK" (inr (Some (bodyOf (Some sampleRecord))))).

(** ** The renderer over parsed JSON *)

(** A value that is falsy or a string: what [formatText] takes. *)
Definition isText (v : option Json) : bool :=
  match v with
  | Some (JString _) => true
  | _ => negb (truthyValue v)
  end.

(** A value that is falsy or can be converted to a string. *)
Definition convertible (v : option Json) : bool :=
  match v with
  | Some x =>
      if truthyJson x then
        match toStringJson x with
        | Some _ => true
        | None => false
        end
      else true
  | None => true
  end.

(** The records [createProductCard] renders: no record, a falsy value, or
    a value whose name and image URL can be converted to a string where they
    are truthy and whose three plaintexts are strings where they are
    truthy. *)
Definition renderable (fragmentData : option Json) : bool :=
  match fragmentData with
  | None => true
  | Some d =>
      negb (truthyJson d)
      || (convertible (propOpt (prop d "creditCardImage") "_authorUrl")
          && convertible (prop d "creditCardName")
          && isText (propOpt (prop d "creditCardDescription") "plaintext")
          && isText (propOpt (prop d "promo") "plaintext")
          && isText (propOpt (prop d "notes") "plaintext"))
  end.

(** A record of [V1] and [V2] as the JSON value it is parsed from. *)
Definition jsonOfString (o : option string) : Json :=
  match o with
  | Some s => JString s
  | None => JNull
  end.
Definition jsonOfRichText (o : option RichText) : Json :=
  match o with
  | Some t => JObject [("plaintext", jsonOfString (plaintext t))]
  | None => JNull
  end.
Definition jsonOfImageRef (o : option ImageRef) : Json :=
  match o with
  | Some i => JObject [("_authorUrl", jsonOfString (_authorUrl i))]
  | None => JNull
  end.
Definition jsonOfRecord (d : ProductRecord) : Json :=
  JObject [("creditCardName", jsonOfString (creditCardName d));
           ("creditCardDescription", jsonOfRichText (creditCardDescription d));
           ("promo", jsonOfRichText (promo d));
           ("notes", jsonOfRichText (notes d));
           ("creditCardImage", jsonOfImageRef (creditCardImage d))].

(** A function body that throws after writing to the console only. *)
Definition throws {A} (m : Js A) (e : JsError) : Prop :=
  exists l, m = logs l (Throw e).

(** The record [{ creditCardName: "Gold Card", creditCardDescription:
    { plaintext: 5 } }]. *)
Definition numberRecord : Json :=
  JObject [("creditCardName", JString "Gold Card");
           ("creditCardDescription", JObject [("plaintext", JNumber false "5")])].

(** * Properties *)

Example trim_demo : trim ("  a b" ++ nl) = "a b".
Proof. reflexivity. Qed.

Example replaceAll_demo :
  replaceAll nl "<br>" (replaceAll (nl ++ nl) "</p><p>" ("a" ++ nl ++ nl ++ nl ++ "b"))
  = "a</p><p><br>b".
Proof. reflexivity. Qed.

Example split_demo : split LF ("a" ++ nl ++ nl ++ "b") = ["a"; ""; "b"].
Proof. reflexivity. Qed.

(** ** Running binds and handlers *)

Section RunFacts.
Context {host : Host}.
Variable net : Network.

Lemma run_bind {A B} (who : Actor) (m : Js A) (f : A -> Js B) (p : Page) :
  run net who (bind m f) p =
  match run net who m p with
  | (p', inr a) => run net who (f a) p'
  | (p', inl e) => (p', inl e)
  end.
Proof.
  revert p; induction m as [a|e|l s k IH|c k IH|u o k IH|k IH]; intros p; simpl; auto.
  destruct (callMoveInstrumentation who c p) as [p' c']. apply IH.
Qed.

Lemma run_tryCatch {A} (who : Actor) (m : Js A) (h : JsError -> Js A) (p : Page) :
  run net who (tryCatch m h) p =
  match run net who m p with
  | (p', inr a) => (p', inr a)
  | (p', inl e) => run net who (h e) p'
  end.
Proof.
  revert p; induction m as [a|e|l s k IH|c k IH|u o k IH|k IH]; intros p; simpl; auto.
  destruct (callMoveInstrumentation who c p) as [p' c']. apply IH.
Qed.
End RunFacts.

(** ** C2: the item parser *)

Lemma orElse_empty (s : string) : orElse s "" = s.
Proof. destruct s; reflexivity. Qed.

Section Parser.
Context {host : Host}.
Variable net : Network.

Lemma parseRow_skip (who : Actor) (row : Node) (index : nat) (items : list ProductItem)
  (p : Page) :
  qualifies row = false ->
  exists p', run net who (parseRow row index items) p = (p', inr items).
Proof.
  unfold qualifies, parseRow. intros Hq.
  destruct (children row) as [|c0 [|c1 rest]]; simpl; eauto.
  unfold cellText. simpl. rewrite orElse_empty, Hq. simpl. eauto.
Qed.

Lemma parseRow_push (who : Actor) (row : Node) (index : nat) (items : list ProductItem)
  (p : Page) :
  qualifies row = true ->
  exists p' item,
    run net who (parseRow row index items) p = (p', inr (items ++ [item])%list)
    /\ parsedFrom row item.
Proof.
  unfold qualifies, parseRow, parsedFrom. intros Hq.
  destruct (children row) as [|c0 [|c1 rest]]; try discriminate. simpl.
  unfold cellText. simpl. rewrite !orElse_empty, Hq. simpl.
  eexists _, _. split; [reflexivity|].
  exists c0, c1, rest. auto.
Qed.

Lemma forEach_parseRow (who : Actor) (rows : list Node) :
  forall (index : nat) (acc : list ProductItem) (p : Page),
  exists p' found,
    run net who (forEach rows parseRow index acc) p = (p', inr (acc ++ found)%list) /\
    Forall2 parsedFrom (filter qualifies rows) found.
Proof.
  induction rows as [|row rows IH]; intros index acc p.
  - exists p, []. simpl. rewrite app_nil_r. split; [reflexivity | constructor].
  - simpl forEach. rewrite run_bind. simpl filter.
    destruct (qualifies row) eqn:Hq.
    + destruct (parseRow_push who row index acc p Hq) as (p1 & item & -> & Hitem).
      destruct (IH (S index) (acc ++ [item])%list p1) as (p' & found & -> & Hall).
      exists p', (item :: found). rewrite <- app_assoc. split; [reflexivity|].
      constructor; assumption.
    + destruct (parseRow_skip who row index acc p Hq) as (p1 & ->).
      apply IH.
Qed.

(** C2.  [parseProductItems] returns, in source order, one item for each
    qualifying row of the block (at least two cells, non-empty trimmed
    text in the second), with the trimmed texts of the first two cells as
    name and path; the other rows give no item, so there are as many items
    as qualifying rows. *)
Theorem parseProductItems_qualifying_rows (who : Actor) (block : Block) (p : Page) :
  exists p' items,
    run net who (parseProductItems block) p = (p', inr items) /\
    Forall2 parsedFrom (filter qualifies (filter isElement (blockChildNodes block))) items /\
    List.length items
    = List.length (filter qualifies (filter isElement (blockChildNodes block))).
Proof.
  unfold parseProductItems. simpl.
  rewrite run_bind.
  destruct (forEach_parseRow who (filter isElement (blockChildNodes block)) 0 []
              (emit who (EvLog info "Parsing product items from block") p))
    as (p1 & found & -> & Hall).
  simpl. eexists _, _. split; [reflexivity|]. split; [exact Hall|].
  symmetry. eapply Forall2_length; eassumption.
Qed.
End Parser.

(** ** C3, C4, C8: the record fetcher *)

Lemma requests_emit_log who l s p : requests (emit who (EvLog l s) p) = requests p.
Proof.
  unfold requests, emit. simpl. rewrite filter_app. simpl. apply app_nil_r.
Qed.

Lemma requests_emit_fetch who u o p :
  requests (emit who (EvFetch u o) p) = (requests p ++ [(who, EvFetch u o)])%list.
Proof. unfold requests, emit. simpl. rewrite filter_app. reflexivity. Qed.

(** Unfolds the effect combinators and the runner, and nothing else. *)
Ltac js_unfold :=
  cbn [run advance resume bind tryCatch awaitCall log fetch responseJson fst snd negb].

Section Fetcher.
Context {host : Host}.
Variable net : Network.

(** C3.  When the request is rejected or answered with a status outside
    200-299, [getProductDataByContentPath] throws an Error whose message
    carries the message of the failure; it returns no record. *)
Theorem fetcher_fails_on_bad_status_or_network (who : Actor) (contentPath : string)
  (p : Page) (underlying : string) :
  fetchFails (net who (requestUrl contentPath) requestOptions) underlying ->
  snd (run net who (getProductDataByContentPath contentPath) p)
  = inl (Error ("Failed to fetch GraphQL Data: " ++ underlying)).
Proof.
  unfold requestUrl, requestOptions, getProductDataByContentPath. intros Hfail.
  js_unfold.
  set (o := net who _ _) in *. clearbody o.
  destruct Hfail as [e | r Hok]; js_unfold.
  - reflexivity.
  - rewrite Hok. reflexivity.
Qed.

(** C4.  When the response is 2xx and its parsed body has no nested item,
    [getProductDataByContentPath] returns null and throws nothing. *)
Theorem fetcher_no_record_when_item_missing (who : Actor) (contentPath : string)
  (p : Page) (r : Response) (cf : option GraphQLBody) :
  net who (requestUrl contentPath) requestOptions = Fulfilled r ->
  ok r = true ->
  json r = inr cf ->
  cf ?. data ?. productCreditCardModelByPath ?. item = None ->
  snd (run net who (getProductDataByContentPath contentPath) p) = inr None.
Proof.
  unfold requestUrl, requestOptions, getProductDataByContentPath.
  intros Hnet Hok Hjson Hitem. js_unfold.
  rewrite Hnet. js_unfold. rewrite Hok. js_unfold. rewrite Hjson. js_unfold.
  rewrite Hitem. reflexivity.
Qed.

(** C8, as the code has it.  The fetcher issues exactly one request: to
    the base URL followed by the query path and the fragment path as it was
    given, with credentials included. *)
Theorem fetcher_requests_plain_concatenation (who : Actor) (contentPath : string)
  (p : Page) :
  requests (fst (run net who (getProductDataByContentPath contentPath) p))
  = (requests p
     ++ [(who, EvFetch (AEM_AUTHOR_URL ++ GRAPHQL_ENDPOINT ++ contentPath)
                 {| credentials := "include" |})])%list.
Proof.
  unfold getProductDataByContentPath. js_unfold.
  destruct (net who _ _) as [e | r]; js_unfold;
    [| destruct (ok r); js_unfold;
       [destruct (json r) as [e | cf]; js_unfold;
        [| destruct (cf ?. data ?. productCreditCardModelByPath ?. item); js_unfold] |]];
    rewrite ?requests_emit_log, requests_emit_fetch, ?requests_emit_log; reflexivity.
Qed.
End Fetcher.

(** ** Facts on the string primitives *)

Lemma prefix_iff (n s : string) : prefix n s = true <-> exists b, s = n ++ b.
Proof.
  revert s; induction n as [|c n IH]; intros s.
  - split; [exists s; reflexivity | destruct s; reflexivity].
  - destruct s as [|c' s]; simpl; [split; [discriminate | intros [b Hb]; discriminate]|].
    destruct (ascii_dec c c') as [<- | Hne].
    + rewrite IH. split; intros [b Hb]; exists b; [subst; reflexivity | congruence].
    + split; [discriminate | intros [b Hb]; congruence].
Qed.

Lemma includes_iff (n s : string) : includes n s = true <-> exists a b, s = a ++ n ++ b.
Proof.
  induction s as [|c s IH].
  - cbn [includes]. rewrite orb_false_r, prefix_iff. split.
    + intros [b Hb]. exists "", b. exact Hb.
    + intros (a & b & Hab). destruct a; [exists b; exact Hab|discriminate].
  - cbn [includes]. rewrite orb_true_iff, IH, prefix_iff. split.
    + intros [[b Hb] | (a & b & Hab)].
      * exists "", b. exact Hb.
      * exists (String c a), b. simpl. congruence.
    + intros (a & b & Hab). destruct a as [|c' a].
      * left. exists b. exact Hab.
      * right. exists a, b. simpl in Hab. congruence.
Qed.

Lemma append_assoc (a b c : string) : (a ++ b) ++ c = a ++ b ++ c.
Proof. induction a; simpl; congruence. Qed.

Lemma append_empty_r (a : string) : a ++ "" = a.
Proof. induction a; simpl; congruence. Qed.

Lemma includes_middle (n a b : string) : includes n (a ++ n ++ b) = true.
Proof. apply includes_iff. exists a, b. reflexivity. Qed.

Lemma includes_longer (m pre post s : string) :
  includes (pre ++ m ++ post) s = true -> includes m s = true.
Proof.
  rewrite !includes_iff. intros (a & b & ->).
  exists (a ++ pre), (post ++ b). now rewrite !append_assoc.
Qed.

Lemma includes_head (n b : string) : includes n (n ++ b) = true.
Proof. apply (includes_middle n "" b). Qed.

Lemma includes_app_l (n a b : string) : includes n a = true -> includes n (a ++ b) = true.
Proof.
  rewrite !includes_iff. intros (x & y & ->). exists x, (y ++ b). now rewrite !append_assoc.
Qed.

Lemma includes_app_r (n a b : string) : includes n b = true -> includes n (a ++ b) = true.
Proof.
  rewrite !includes_iff. intros (x & y & ->). exists (a ++ x), y. now rewrite !append_assoc.
Qed.

(** Finds a needle in a concatenation: at the head of a piece or inside a
    literal piece. *)
Ltac includes_tac :=
  first [ apply includes_head
        | apply includes_app_l; vm_compute; reflexivity
        | apply includes_app_r; includes_tac ].

(** Replacing a character by itself changes nothing. *)
Lemma replaceAll_same_char (c : ascii) (s : string) :
  replaceAll (String c "") (String c "") s = s.
Proof.
  unfold replaceAll. induction s as [|c' s IH]; [reflexivity|].
  cbn [replaceFrom prefix String.length Nat.sub].
  destruct (ascii_dec c c') as [<- | Hne].
  - destruct s; simpl; f_equal; exact IH.
  - f_equal. exact IH.
Qed.

(** ** Functions that only log *)

Lemma logs_app {A} (l1 l2 : list (Level * string)) (m : Js A) :
  logs (l1 ++ l2) m = logs l1 (logs l2 m).
Proof. induction l1 as [|[lv s] l1 IH]; simpl; congruence. Qed.

Lemma bind_logs {A B} (l : list (Level * string)) (m : Js A) (f : A -> Js B) :
  bind (logs l m) f = logs l (bind m f).
Proof. induction l as [|[lv s] l IH]; simpl; congruence. Qed.

Lemma returns_bind {A B} (m : Js A) (f : A -> Js B) (a : A) (b : B) :
  returns m a -> returns (f a) b -> returns (bind m f) b.
Proof.
  intros [l1 ->] [l2 H2]. exists (l1 ++ l2)%list.
  rewrite bind_logs, logs_app. simpl. now rewrite H2.
Qed.

Lemma returns_log {A} (lv : Level) (s : string) (k : Js A) (a : A) :
  returns k a -> returns (Log lv s k) a.
Proof. intros [l ->]. now exists ((lv, s) :: l). Qed.

Lemma returns_Return {A} (a : A) : returns (Return a) a.
Proof. now exists []. Qed.

Lemma returns_unique {A} (m : Js A) (a b : A) : returns m a -> returns m b -> a = b.
Proof.
  intros [l1 ->] [l2 H]. revert l2 H.
  induction l1 as [|[lv s] l1 IH]; intros [|[lv' s'] l2] H; simpl in H; try congruence.
  injection H as _ _ H. eauto.
Qed.

Section RunLogs.
Context {host : Host}.
Variable net : Network.

Lemma run_logs {A} (who : Actor) (l : list (Level * string)) (m : Js A) (p : Page) :
  run net who (logs l m) p = run net who m (emitLogs who l p).
Proof. revert p; induction l as [|[lv s] l IH]; intros p; simpl; auto. Qed.

Lemma returns_run {A} (who : Actor) (m : Js A) (a : A) (p : Page) :
  returns m a -> exists p', run net who m p = (p', inr a).
Proof. intros [l ->]. rewrite run_logs. simpl. eauto. Qed.
End RunLogs.

(** ** C6: the card renderer *)

Ltac returns_tac := cbn [bind log]; repeat apply returns_log; apply returns_Return.

Lemma cardTitle_v1 (n : string) (d : ProductRecord) : V1.cardTitle n d = titleSpec n d.
Proof.
  unfold V1.cardTitle, titleSpec, orDefault, orElse.
  destruct (creditCardName d) as [[|c s]|]; destruct n; reflexivity.
Qed.

Lemma cardTitle_v2 (n : string) (d : ProductRecord) : V2.cardTitle n d = titleSpec n d.
Proof.
  unfold V2.cardTitle, titleSpec, orDefault, orElse.
  destruct (creditCardName d) as [[|c s]|]; destruct n; reflexivity.
Qed.

Section Renderer.
Context {host : Host}.

Lemma createProductCard_returns_v1 (n : string) (r : option ProductRecord) :
  exists card, returns (V1.createProductCard n r) card /\ tag card = "li".
Proof.
  unfold V1.createProductCard. destruct r as [d|].
  - destruct (truthy (orDefault (creditCardImage d ?. _authorUrl) ""));
      eexists; (split; [returns_tac | reflexivity]).
  - eexists; split; [returns_tac | reflexivity].
Qed.

Lemma createProductCard_returns_v2 (n : string) (r : option ProductRecord) :
  exists card, returns (V2.createProductCard n r) card /\ tag card = "li".
Proof.
  unfold V2.createProductCard. destruct r as [d|].
  - destruct (truthy (orDefault (creditCardImage d ?. _authorUrl) ""));
      eexists; (split; [returns_tac | reflexivity]).
  - eexists; split; [returns_tac | reflexivity].
Qed.

Lemma fallback_returns_v1 (n : string) :
  returns (V1.createProductCard n None)
    (mkElem "li" "products-card" [] (V1.fallbackHTML n) []).
Proof. unfold V1.createProductCard. returns_tac. Qed.

Lemma fallback_returns_v2 (n : string) :
  returns (V2.createProductCard n None)
    (mkElem "li" "product-card product-error" [] (V2.fallbackHTML n) []).
Proof. unfold V2.createProductCard. returns_tac. Qed.

(** The markup of the card of a record, piece by piece. *)
Lemma card_markup_v1 (n : string) (d : ProductRecord) :
  exists card imageHtml,
    returns (V1.createProductCard n (Some d)) card /\
    (imageHtml = "" \/
     exists img, imageHtml = "<div class=" ++ q "products-card-image" ++ ">"
                             ++ pictureOuterHTML img ++ "</div>") /\
    innerHTML card
    = indent 4 ++ imageHtml
      ++ indent 4 ++ "<div class=" ++ q "products-card-body" ++ ">"
      ++ indent 6 ++ "<h3 class=" ++ q "products-card-title" ++ ">"
      ++ V1.cardTitle n d ++ "</h3>"
      ++ indent 6 ++ V1.textBlock "products-card-description"
                       (orDefault (creditCardDescription d ?. plaintext) "")
      ++ indent 6 ++ V1.textBlock "products-card-promo"
                       (orDefault (promo d ?. plaintext) "")
      ++ indent 6 ++ V1.textBlock "products-card-notes"
                       (orDefault (notes d ?. plaintext) "")
      ++ indent 4 ++ "</div>"
      ++ indent 2.
Proof.
  unfold V1.createProductCard.
  destruct (truthy (orDefault (creditCardImage d ?. _authorUrl) "")).
  - eexists _, _. split; [returns_tac|]. split; [right; eexists; reflexivity|].
    reflexivity.
  - eexists _, "". split; [returns_tac|]. split; [left; reflexivity|]. reflexivity.
Qed.

Lemma card_markup_v2 (n : string) (d : ProductRecord) :
  exists card imageHtml,
    returns (V2.createProductCard n (Some d)) card /\
    (imageHtml = "" \/
     exists img, imageHtml = "<div class=" ++ q "product-card-image" ++ ">"
                             ++ pictureOuterHTML img ++ "</div>") /\
    innerHTML card
    = indent 4 ++ imageHtml
      ++ indent 4 ++ "<div class=" ++ q "product-card-body" ++ ">"
      ++ indent 6 ++ "<h3 class=" ++ q "product-title" ++ ">"
      ++ V2.cardTitle n d ++ "</h3>"
      ++ indent 6 ++ V2.textBlock "product-description" V2.formatText
                       (orDefault (creditCardDescription d ?. plaintext) "")
      ++ indent 6 ++ V2.textBlock "product-promo" V2.formatPromoContent
                       (orDefault (promo d ?. plaintext) "")
      ++ indent 6 ++ V2.textBlock "product-notes" V2.formatNotesContent
                       (orDefault (notes d ?. plaintext) "")
      ++ indent 6 ++ "<div class=" ++ q "product-cta" ++ ">"
      ++ indent 8 ++ "<a href=" ++ q "#" ++ " class=" ++ q "product-cta-button"
      ++ ">Find out more</a>"
      ++ indent 6 ++ "</div>"
      ++ indent 4 ++ "</div>"
      ++ indent 2.
Proof.
  unfold V2.createProductCard.
  destruct (truthy (orDefault (creditCardImage d ?. _authorUrl) "")).
  - eexists _, _. split; [returns_tac|]. split; [right; eexists; reflexivity|].
    reflexivity.
  - eexists _, "". split; [returns_tac|]. split; [left; reflexivity|]. reflexivity.
Qed.

Lemma fallbackHTML_notice_v1 (n : string) :
  includes "Content fragment data not available" (V1.fallbackHTML n) = true /\
  includes (if String.eqb n "" then "Product" else n) (V1.fallbackHTML n) = true.
Proof.
  replace (if String.eqb n "" then "Product" else n) with (orElse n "Product")
    by (destruct n; reflexivity).
  unfold V1.fallbackHTML. split; includes_tac.
Qed.

Lemma fallbackHTML_notice_v2 (n : string) :
  includes "Content fragment data not available" (V2.fallbackHTML n) = true /\
  includes (if String.eqb n "" then "Product" else n) (V2.fallbackHTML n) = true.
Proof.
  replace (if String.eqb n "" then "Product" else n) with (orElse n "Product")
    by (destruct n; reflexivity).
  unfold V2.fallbackHTML. split; includes_tac.
Qed.

(** C6.  In both revisions the card of a record has, as the first element
    of its body, the title heading, and its text is the record's name when
    the record has one (a non-empty string), else the given product name
    when that is not empty, else the literal Product. *)
Theorem card_title_fallback_chain (productName : string) (d : ProductRecord) :
  (exists card imageHtml rest,
      returns (V1.createProductCard productName (Some d)) card /\
      innerHTML card
      = indent 4 ++ imageHtml
        ++ indent 4 ++ "<div class=" ++ q "products-card-body" ++ ">"
        ++ indent 6 ++ "<h3 class=" ++ q "products-card-title" ++ ">"
        ++ titleSpec productName d ++ "</h3>" ++ rest /\
      (imageHtml = "" \/
       exists img, imageHtml = "<div class=" ++ q "products-card-image" ++ ">"
                               ++ pictureOuterHTML img ++ "</div>")) /\
  (exists card imageHtml rest,
      returns (V2.createProductCard productName (Some d)) card /\
      innerHTML card
      = indent 4 ++ imageHtml
        ++ indent 4 ++ "<div class=" ++ q "product-card-body" ++ ">"
        ++ indent 6 ++ "<h3 class=" ++ q "product-title" ++ ">"
        ++ titleSpec productName d ++ "</h3>" ++ rest /\
      (imageHtml = "" \/
       exists img, imageHtml = "<div class=" ++ q "product-card-image" ++ ">"
                               ++ pictureOuterHTML img ++ "</div>")).
Proof.
  split.
  - destruct (card_markup_v1 productName d) as (card & imageHtml & Hret & Himg & Hinner).
    exists card, imageHtml. eexists. rewrite <- cardTitle_v1. eauto.
  - destruct (card_markup_v2 productName d) as (card & imageHtml & Hret & Himg & Hinner).
    exists card, imageHtml. eexists. rewrite <- cardTitle_v2. eauto.
Qed.
End Renderer.

(** ** C5: the renderer over parsed JSON *)

Lemma throws_Throw {A} (e : JsError) : throws (A := A) (Throw e) e.
Proof. now exists []. Qed.

Lemma throws_log {A} (lv : Level) (s : string) (k : Js A) (e : JsError) :
  throws k e -> throws (Log lv s k) e.
Proof. intros [l ->]. now exists ((lv, s) :: l). Qed.

Lemma throws_bind {A B} (m : Js A) (f : A -> Js B) (e : JsError) :
  throws m e -> throws (bind m f) e.
Proof. intros [l ->]. exists l. now rewrite bind_logs. Qed.

Lemma throws_after {A B} (m : Js A) (f : A -> Js B) (a : A) (e : JsError) :
  returns m a -> throws (f a) e -> throws (bind m f) e.
Proof.
  intros [l1 ->] [l2 H2]. exists (l1 ++ l2)%list.
  rewrite bind_logs, logs_app. simpl. now rewrite H2.
Qed.

Lemma toStringJs_convertible (v : option Json) :
  truthyValue v = true -> convertible v = true -> exists s, toStringJs v = Return s.
Proof.
  destruct v as [x|]; [|discriminate]. cbn [truthyValue convertible toStringJs].
  intros ->. destruct (toStringJson x); [eauto | discriminate].
Qed.

Lemma altText_convertible (nm : option Json) :
  convertible nm = true ->
  exists s, toStringJs (Some (orJson nm (JString "Credit Card"))) = Return s.
Proof.
  destruct nm as [x|]; [|eexists; reflexivity]. cbn [convertible orJson].
  destruct (truthyJson x); [|eexists; reflexivity].
  cbn [toStringJs]. destruct (toStringJson x); [eauto | discriminate].
Qed.

Lemma title_convertible (nm : option Json) (n : string) :
  convertible nm = true ->
  exists s, toStringJs (Some (orJson (Some (orJson nm (JString n))) (JString "Product")))
            = Return s.
Proof.
  assert (Hn : exists s, toStringJs (Some (orJson (Some (JString n)) (JString "Product")))
                         = Return s).
  { cbn [orJson truthyJson]. destruct (truthy n); eexists; reflexivity. }
  destruct nm as [x|]; [|intros _; exact Hn]. cbn [convertible orJson].
  destruct (truthyJson x) eqn:E; [|intros _; exact Hn].
  cbn [orJson]. rewrite E. cbn [toStringJs].
  destruct (toStringJson x); [eauto | discriminate].
Qed.

(** A truthy value that [isText] accepts is a string. *)
Lemma isText_string (v : option Json) :
  isText v = true ->
  orJson v (JString "") = JString "" \/
  exists s, truthy s = true /\ orJson v (JString "") = JString s.
Proof.
  destruct v as [x|]; [|now left]. cbn [orJson].
  destruct (truthyJson x) eqn:E; [|now left].
  destruct x; cbn [isText truthyValue]; rewrite ?E; try discriminate.
  intros _. right. eauto.
Qed.

Section JsonRenderer.
Context {host : Host}.

Lemma throws_run (net : Network) {A} (who : Actor) (m : Js A) (e : JsError) (p : Page) :
  throws m e -> exists p', run net who m p = (p', inl e).
Proof. intros [l ->]. rewrite run_logs. simpl. eauto. Qed.

Lemma textBlock_text_v1 (cls : string) (v : option Json) :
  isText v = true -> exists s, V1Json.textBlock cls (orJson v (JString "")) = Return s.
Proof.
  intros H. destruct (isText_string v H) as [-> | (s & Hs & ->)].
  - eexists. reflexivity.
  - unfold V1Json.textBlock, V1Json.formatText. cbn [truthyJson]. rewrite Hs.
    cbn [negb bind]. eauto.
Qed.

Lemma textBlock_text_v2 (cls : string) (format : Json -> Js string) (v : option Json) :
  (forall s, exists r, format (JString s) = Return r) ->
  isText v = true -> exists s, V2Json.textBlock cls format (orJson v (JString "")) = Return s.
Proof.
  intros Hf H. destruct (isText_string v H) as [-> | (s & Hs & ->)].
  - eexists. reflexivity.
  - unfold V2Json.textBlock. cbn [truthyJson]. rewrite Hs.
    destruct (Hf s) as (r & ->). cbn [bind]. eauto.
Qed.

Lemma formatText_string_v2 (s : string) : exists r, V2Json.formatText (JString s) = Return r.
Proof.
  unfold V2Json.formatText. cbn [truthyJson]. destruct (truthy s); cbn [negb]; eauto.
Qed.

Lemma formatPromoContent_string_v2 (s : string) :
  exists r, V2Json.formatPromoContent (JString s) = Return r.
Proof.
  unfold V2Json.formatPromoContent. cbn [truthyJson].
  destruct (truthy s); cbn [negb]; [|eauto].
  destruct (formatText_string_v2 s) as (r & ->). cbn [bind]. eauto.
Qed.

Lemma formatNotesContent_string_v2 (s : string) :
  exists r, V2Json.formatNotesContent (JString s) = Return r.
Proof.
  unfold V2Json.formatNotesContent. cbn [truthyJson].
  destruct (truthy s); cbn [negb]; [|eauto].
  destruct (formatText_string_v2 s) as (r & ->). cbn [bind]. eauto.
Qed.

Lemma renders_v1 (n : string) (d : Json) :
  truthyJson d = true ->
  convertible (propOpt (prop d "creditCardImage") "_authorUrl") = true ->
  convertible (prop d "creditCardName") = true ->
  isText (propOpt (prop d "creditCardDescription") "plaintext") = true ->
  isText (propOpt (prop d "promo") "plaintext") = true ->
  isText (propOpt (prop d "notes") "plaintext") = true ->
  exists card, returns (V1Json.createProductCard n (Some d)) card /\ tag card = "li".
Proof.
  intros Hd Hurl Hname Hdesc Hpromo Hnotes. unfold V1Json.createProductCard.
  rewrite Hd. cbn [negb].
  destruct (title_convertible _ n Hname) as (title & ->).
  destruct (textBlock_text_v1 "products-card-description" _ Hdesc) as (dh & ->).
  destruct (textBlock_text_v1 "products-card-promo" _ Hpromo) as (ph & ->).
  destruct (textBlock_text_v1 "products-card-notes" _ Hnotes) as (nh & ->).
  destruct (truthyValue (propOpt (prop d "creditCardImage") "_authorUrl")) eqn:Hu.
  - destruct (toStringJs_convertible _ Hu Hurl) as (src & ->).
    destruct (altText_convertible _ Hname) as (alt & ->).
    eexists. split; [returns_tac | reflexivity].
  - eexists. split; [returns_tac | reflexivity].
Qed.

Lemma renders_v2 (n : string) (d : Json) :
  truthyJson d = true ->
  convertible (propOpt (prop d "creditCardImage") "_authorUrl") = true ->
  convertible (prop d "creditCardName") = true ->
  isText (propOpt (prop d "creditCardDescription") "plaintext") = true ->
  isText (propOpt (prop d "promo") "plaintext") = true ->
  isText (propOpt (prop d "notes") "plaintext") = true ->
  exists card, returns (V2Json.createProductCard n (Some d)) card /\ tag card = "li".
Proof.
  intros Hd Hurl Hname Hdesc Hpromo Hnotes. unfold V2Json.createProductCard.
  rewrite Hd. cbn [negb].
  destruct (title_convertible _ n Hname) as (title & ->).
  destruct (textBlock_text_v2 "product-description" _ _ formatText_string_v2 Hdesc)
    as (dh & ->).
  destruct (textBlock_text_v2 "product-promo" _ _ formatPromoContent_string_v2 Hpromo)
    as (ph & ->).
  destruct (textBlock_text_v2 "product-notes" _ _ formatNotesContent_string_v2 Hnotes)
    as (nh & ->).
  destruct (truthyValue (propOpt (prop d "creditCardImage") "_authorUrl")) eqn:Hu.
  - destruct (toStringJs_convertible _ Hu Hurl) as (src & ->).
    destruct (altText_convertible _ Hname) as (alt & ->).
    eexists. split; [returns_tac | reflexivity].
  - eexists. split; [returns_tac | reflexivity].
Qed.
End JsonRenderer.

Section JsonCards.
Context {host : Host}.

Lemma fallback_json_v1 (n : string) (r : option Json) :
  truthyValue r = false ->
  returns (V1Json.createProductCard n r)
    (mkElem "li" "products-card" [] (V1.fallbackHTML n) []).
Proof.
  intros H. unfold V1Json.createProductCard. destruct r as [d|]; [|returns_tac].
  cbn [truthyValue] in H. rewrite H. returns_tac.
Qed.

Lemma fallback_json_v2 (n : string) (r : option Json) :
  truthyValue r = false ->
  returns (V2Json.createProductCard n r)
    (mkElem "li" "product-card product-error" [] (V2.fallbackHTML n) []).
Proof.
  intros H. unfold V2Json.createProductCard. destruct r as [d|]; [|returns_tac].
  cbn [truthyValue] in H. rewrite H. returns_tac.
Qed.

(** C5, as the code has it.  In both revisions [createProductCard] returns
    one [li] element, whatever the page and the network, and does not throw,
    for every name and every optional record whose name and image URL can be
    converted to a string where they are truthy and whose description, promo
    and notes plaintexts are strings where they are truthy.  Without a
    record, or with a falsy one, the card holds the notice that the data is
    not available and the given name, or the literal Product when the name is
    empty. *)
Theorem createProductCard_total_on_renderable (productName : string) (r : option Json) :
  renderable r = true ->
  (exists card,
      (forall net who p, exists p',
          run net who (V1Json.createProductCard productName r) p = (p', inr card)) /\
      tag card = "li" /\
      (truthyValue r = false ->
       includes "Content fragment data not available" (innerHTML card) = true /\
       includes (if String.eqb productName "" then "Product" else productName)
         (innerHTML card) = true)) /\
  (exists card,
      (forall net who p, exists p',
          run net who (V2Json.createProductCard productName r) p = (p', inr card)) /\
      tag card = "li" /\
      (truthyValue r = false ->
       includes "Content fragment data not available" (innerHTML card) = true /\
       includes (if String.eqb productName "" then "Product" else productName)
         (innerHTML card) = true)).
Proof.
  intros Hr. destruct (truthyValue r) eqn:Ht.
  - destruct r as [d|]; [|discriminate]. cbn [truthyValue] in Ht.
    cbn [renderable] in Hr. rewrite Ht in Hr. cbn [negb orb] in Hr.
    apply andb_prop in Hr as [Hr Hnotes]. apply andb_prop in Hr as [Hr Hpromo].
    apply andb_prop in Hr as [Hr Hdesc]. apply andb_prop in Hr as [Hurl Hname].
    split.
    + destruct (renders_v1 productName d Ht Hurl Hname Hdesc Hpromo Hnotes)
        as (card & Hret & Htag).
      exists card. split; [intros net who p; now apply returns_run|].
      split; [exact Htag | discriminate].
    + destruct (renders_v2 productName d Ht Hurl Hname Hdesc Hpromo Hnotes)
        as (card & Hret & Htag).
      exists card. split; [intros net who p; now apply returns_run|].
      split; [exact Htag | discriminate].
  - split; eexists.
    + split; [intros net who p; apply returns_run, fallback_json_v1, Ht|].
      split; [reflexivity | intros _; apply fallbackHTML_notice_v1].
    + split; [intros net who p; apply returns_run, fallback_json_v2, Ht|].
      split; [reflexivity | intros _; apply fallbackHTML_notice_v2].
Qed.

(** ** Records that are not rendered *)

Lemma convertible_falsy (v : option Json) : truthyValue v = false -> convertible v = true.
Proof. destruct v as [x|]; [|reflexivity]. cbn. now intros ->. Qed.

Lemma toStringJs_fails (v : option Json) :
  convertible v = false -> toStringJs v = Throw cannotConvert.
Proof.
  destruct v as [x|]; [|discriminate]. cbn [convertible toStringJs].
  destruct (truthyJson x); [|discriminate]. now destruct (toStringJson x).
Qed.

Lemma altText_fails (nm : option Json) :
  convertible nm = false ->
  toStringJs (Some (orJson nm (JString "Credit Card"))) = Throw cannotConvert.
Proof.
  destruct nm as [x|]; [|discriminate]. cbn [convertible orJson].
  destruct (truthyJson x); [|discriminate]. cbn [toStringJs]. now destruct (toStringJson x).
Qed.

Lemma title_fails (nm : option Json) (n : string) :
  convertible nm = false ->
  toStringJs (Some (orJson (Some (orJson nm (JString n))) (JString "Product")))
  = Throw cannotConvert.
Proof.
  destruct nm as [x|]; [|discriminate]. cbn [convertible orJson].
  destruct (truthyJson x) eqn:E; [|discriminate]. cbn [orJson]. rewrite E.
  cbn [toStringJs]. now destruct (toStringJson x).
Qed.

(** A value that [isText] refuses is truthy and not a string. *)
Lemma isText_refused (v : option Json) :
  isText v = false ->
  exists x, orJson v (JString "") = x /\ truthyJson x = true /\
            forall s, x <> JString s.
Proof.
  destruct v as [x|]; [|discriminate]. intros H. exists x.
  assert (Ht : truthyJson x = true).
  { destruct x; cbn [isText truthyValue] in H; try discriminate;
      now apply negb_false_iff in H. }
  cbn [orJson]. rewrite Ht. split; [reflexivity|]. split; [reflexivity|].
  intros s ->. discriminate H.
Qed.

Lemma formatText_fails_v1 (x : Json) :
  truthyJson x = true -> (forall s, x <> JString s) ->
  V1Json.formatText x = Throw (notAFunction "text.replace").
Proof.
  intros Ht Hs. unfold V1Json.formatText. rewrite Ht. cbn [negb].
  destruct x; try reflexivity. now destruct (Hs s).
Qed.

Lemma formatText_fails_v2 (x : Json) :
  truthyJson x = true -> (forall s, x <> JString s) ->
  V2Json.formatText x = Throw (notAFunction "text.replace").
Proof.
  intros Ht Hs. unfold V2Json.formatText. rewrite Ht. cbn [negb].
  destruct x; try reflexivity. now destruct (Hs s).
Qed.

Lemma textBlock_fails_v1 (cls : string) (v : option Json) :
  isText v = false ->
  V1Json.textBlock cls (orJson v (JString "")) = Throw (notAFunction "text.replace").
Proof.
  intros H. destruct (isText_refused v H) as (x & -> & Ht & Hs).
  unfold V1Json.textBlock. rewrite Ht, (formatText_fails_v1 x Ht Hs). reflexivity.
Qed.

Lemma textBlock_fails_v2 (cls : string) (format : Json -> Js string) (v : option Json) :
  (forall x, truthyJson x = true -> (forall s, x <> JString s) ->
             format x = Throw (notAFunction "text.replace")) ->
  isText v = false ->
  V2Json.textBlock cls format (orJson v (JString "")) = Throw (notAFunction "text.replace").
Proof.
  intros Hf H. destruct (isText_refused v H) as (x & -> & Ht & Hs).
  unfold V2Json.textBlock. rewrite Ht, (Hf x Ht Hs). reflexivity.
Qed.

Lemma formatPromoContent_fails_v2 (x : Json) :
  truthyJson x = true -> (forall s, x <> JString s) ->
  V2Json.formatPromoContent x = Throw (notAFunction "text.replace").
Proof.
  intros Ht Hs. unfold V2Json.formatPromoContent.
  rewrite Ht, (formatText_fails_v2 x Ht Hs). reflexivity.
Qed.

Lemma formatNotesContent_fails_v2 (x : Json) :
  truthyJson x = true -> (forall s, x <> JString s) ->
  V2Json.formatNotesContent x = Throw (notAFunction "text.replace").
Proof.
  intros Ht Hs. unfold V2Json.formatNotesContent.
  rewrite Ht, (formatText_fails_v2 x Ht Hs). reflexivity.
Qed.

Ltac throws_tac := cbn [bind log]; repeat apply throws_log; apply throws_Throw.

(** The other records: [createProductCard] throws a TypeError for every
    record that [renderable] refuses. *)
Lemma createProductCard_throws_v1 (n : string) (r : option Json) :
  renderable r = false ->
  exists e, throws (V1Json.createProductCard n r) e /\ name e = "TypeError".
Proof.
  destruct r as [d|]; [|discriminate]. cbn [renderable].
  destruct (truthyJson d) eqn:Hd; [|discriminate]. cbn [negb orb]. intros Hr.
  unfold V1Json.createProductCard. rewrite Hd. cbn [negb].
  destruct (convertible (prop d "creditCardName")) eqn:Hname.
  - destruct (title_convertible _ n Hname) as (title & ->).
    destruct (altText_convertible _ Hname) as (alt & ->).
    destruct (truthyValue (propOpt (prop d "creditCardImage") "_authorUrl")) eqn:Hu.
    + destruct (convertible (propOpt (prop d "creditCardImage") "_authorUrl")) eqn:Hurl.
      * destruct (toStringJs_convertible _ Hu Hurl) as (src & ->).
        cbn [andb] in Hr.
        destruct (isText (propOpt (prop d "creditCardDescription") "plaintext")) eqn:Hdesc.
        { destruct (textBlock_text_v1 "products-card-description" _ Hdesc) as (dh & ->).
          destruct (isText (propOpt (prop d "promo") "plaintext")) eqn:Hpromo.
          - destruct (textBlock_text_v1 "products-card-promo" _ Hpromo) as (ph & ->).
            cbn [andb] in Hr. rewrite (textBlock_fails_v1 "products-card-notes" _ Hr).
            eexists; split; [throws_tac | reflexivity].
          - rewrite (textBlock_fails_v1 "products-card-promo" _ Hpromo).
            eexists; split; [throws_tac | reflexivity]. }
        { rewrite (textBlock_fails_v1 "products-card-description" _ Hdesc).
          eexists; split; [throws_tac | reflexivity]. }
      * rewrite (toStringJs_fails _ Hurl). eexists; split; [throws_tac | reflexivity].
    + rewrite (convertible_falsy _ Hu) in Hr. cbn [andb] in Hr.
      destruct (isText (propOpt (prop d "creditCardDescription") "plaintext")) eqn:Hdesc.
      * destruct (textBlock_text_v1 "products-card-description" _ Hdesc) as (dh & ->).
        destruct (isText (propOpt (prop d "promo") "plaintext")) eqn:Hpromo.
        { destruct (textBlock_text_v1 "products-card-promo" _ Hpromo) as (ph & ->).
          cbn [andb] in Hr. rewrite (textBlock_fails_v1 "products-card-notes" _ Hr).
          eexists; split; [throws_tac | reflexivity]. }
        { rewrite (textBlock_fails_v1 "products-card-promo" _ Hpromo).
          eexists; split; [throws_tac | reflexivity]. }
      * rewrite (textBlock_fails_v1 "products-card-description" _ Hdesc).
        eexists; split; [throws_tac | reflexivity].
  - rewrite (title_fails _ n Hname), (altText_fails _ Hname).
    destruct (truthyValue (propOpt (prop d "creditCardImage") "_authorUrl")) eqn:Hu.
    + destruct (convertible (propOpt (prop d "creditCardImage") "_authorUrl")) eqn:Hurl.
      * destruct (toStringJs_convertible _ Hu Hurl) as (src & ->).
        eexists; split; [throws_tac | reflexivity].
      * rewrite (toStringJs_fails _ Hurl). eexists; split; [throws_tac | reflexivity].
    + eexists; split; [throws_tac | reflexivity].
Qed.

Lemma createProductCard_throws_v2 (n : string) (r : option Json) :
  renderable r = false ->
  exists e, throws (V2Json.createProductCard n r) e /\ name e = "TypeError".
Proof.
  destruct r as [d|]; [|discriminate]. cbn [renderable].
  destruct (truthyJson d) eqn:Hd; [|discriminate]. cbn [negb orb]. intros Hr.
  unfold V2Json.createProductCard. rewrite Hd. cbn [negb].
  pose proof (textBlock_text_v2 "product-description" _
                (propOpt (prop d "creditCardDescription") "plaintext")
                formatText_string_v2) as Hd1.
  pose proof (textBlock_text_v2 "product-promo" _
                (propOpt (prop d "promo") "plaintext")
                formatPromoContent_string_v2) as Hp1.
  pose proof (textBlock_fails_v2 "product-description" _
                (propOpt (prop d "creditCardDescription") "plaintext")
                formatText_fails_v2) as Hd0.
  pose proof (textBlock_fails_v2 "product-promo" _
                (propOpt (prop d "promo") "plaintext")
                formatPromoContent_fails_v2) as Hp0.
  pose proof (textBlock_fails_v2 "product-notes" _
                (propOpt (prop d "notes") "plaintext")
                formatNotesContent_fails_v2) as Hn0.
  destruct (convertible (prop d "creditCardName")) eqn:Hname.
  - destruct (title_convertible _ n Hname) as (title & ->).
    destruct (altText_convertible _ Hname) as (alt & ->).
    destruct (truthyValue (propOpt (prop d "creditCardImage") "_authorUrl")) eqn:Hu.
    + destruct (convertible (propOpt (prop d "creditCardImage") "_authorUrl")) eqn:Hurl.
      * destruct (toStringJs_convertible _ Hu Hurl) as (src & ->).
        cbn [andb] in Hr.
        destruct (isText (propOpt (prop d "creditCardDescription") "plaintext")) eqn:Hdesc.
        { destruct (Hd1 eq_refl) as (dh & ->).
          destruct (isText (propOpt (prop d "promo") "plaintext")) eqn:Hpromo.
          - destruct (Hp1 eq_refl) as (ph & ->).
            cbn [andb] in Hr. rewrite (Hn0 Hr).
            eexists; split; [throws_tac | reflexivity].
          - rewrite (Hp0 eq_refl). eexists; split; [throws_tac | reflexivity]. }
        { rewrite (Hd0 eq_refl). eexists; split; [throws_tac | reflexivity]. }
      * rewrite (toStringJs_fails _ Hurl). eexists; split; [throws_tac | reflexivity].
    + rewrite (convertible_falsy _ Hu) in Hr. cbn [andb] in Hr.
      destruct (isText (propOpt (prop d "creditCardDescription") "plaintext")) eqn:Hdesc.
      * destruct (Hd1 eq_refl) as (dh & ->).
        destruct (isText (propOpt (prop d "promo") "plaintext")) eqn:Hpromo.
        { destruct (Hp1 eq_refl) as (ph & ->).
          cbn [andb] in Hr. rewrite (Hn0 Hr).
          eexists; split; [throws_tac | reflexivity]. }
        { rewrite (Hp0 eq_refl). eexists; split; [throws_tac | reflexivity]. }
      * rewrite (Hd0 eq_refl). eexists; split; [throws_tac | reflexivity].
  - rewrite (title_fails _ n Hname), (altText_fails _ Hname).
    destruct (truthyValue (propOpt (prop d "creditCardImage") "_authorUrl")) eqn:Hu.
    + destruct (convertible (propOpt (prop d "creditCardImage") "_authorUrl")) eqn:Hurl.
      * destruct (toStringJs_convertible _ Hu Hurl) as (src & ->).
        eexists; split; [throws_tac | reflexivity].
      * rewrite (toStringJs_fails _ Hurl). eexists; split; [throws_tac | reflexivity].
    + eexists; split; [throws_tac | reflexivity].
Qed.
End JsonCards.

(** ** Records with string fields *)

Example toStringJson_demo :
  toStringJson (JArray [JNumber false "1"; JNull; JArray [JString "a"; JBool true]])
  = Some "1,,a,true" /\
  toStringJson (JObject [("plaintext", JString "a")]) = Some "[object Object]" /\
  toStringJson (JArray [JObject [("toString", JNull)]]) = None.
Proof. repeat split. Qed.

Lemma url_of_record (o : option ImageRef) :
  truthyValue (propOpt (Some (jsonOfImageRef o)) "_authorUrl")
  = truthy (orDefault (o ?. _authorUrl) "") /\
  (truthy (orDefault (o ?. _authorUrl) "") = true ->
   toStringJs (propOpt (Some (jsonOfImageRef o)) "_authorUrl")
   = Return (orDefault (o ?. _authorUrl) "")).
Proof.
  destruct o as [[[[|c u]|]]|]; split; try reflexivity; discriminate.
Qed.

Lemma altText_of_record (nm : option string) :
  toStringJs (Some (orJson (Some (jsonOfString nm)) (JString "Credit Card")))
  = Return (orDefault nm "Credit Card").
Proof. destruct nm as [[|c s]|]; reflexivity. Qed.

Lemma title_of_record (nm : option string) (n : string) :
  toStringJs (Some (orJson (Some (orJson (Some (jsonOfString nm)) (JString n)))
                      (JString "Product")))
  = Return (orElse (orDefault nm n) "Product").
Proof. destruct nm as [[|c s]|]; destruct n; reflexivity. Qed.

Lemma plaintext_of_record (f : option RichText) :
  orJson (propOpt (Some (jsonOfRichText f)) "plaintext") (JString "")
  = JString (orDefault (f ?. plaintext) "").
Proof. destruct f as [[[[|c s]|]]|]; reflexivity. Qed.

Section TypedRecords.
Context {host : Host}.

Lemma textBlock_of_string_v1 (cls s : string) :
  V1Json.textBlock cls (JString s) = Return (V1.textBlock cls s).
Proof.
  unfold V1Json.textBlock, V1.textBlock, V1Json.formatText, V1.formatText.
  cbn [truthyJson]. destruct (truthy s); reflexivity.
Qed.

Lemma formatText_of_string_v2 (s : string) :
  V2Json.formatText (JString s) = Return (V2.formatText s).
Proof.
  unfold V2Json.formatText, V2.formatText. cbn [truthyJson]. now destruct (truthy s).
Qed.

Lemma formatPromoContent_of_string_v2 (s : string) :
  V2Json.formatPromoContent (JString s) = Return (V2.formatPromoContent s).
Proof.
  unfold V2Json.formatPromoContent, V2.formatPromoContent. cbn [truthyJson].
  rewrite formatText_of_string_v2. now destruct (truthy s).
Qed.

Lemma formatNotesContent_of_string_v2 (s : string) :
  V2Json.formatNotesContent (JString s) = Return (V2.formatNotesContent s).
Proof.
  unfold V2Json.formatNotesContent, V2.formatNotesContent. cbn [truthyJson].
  rewrite formatText_of_string_v2. now destruct (truthy s).
Qed.

Lemma textBlock_of_string_v2 (cls : string) (formatJson : Json -> Js string)
      (format : string -> string) (s : string) :
  (forall t, formatJson (JString t) = Return (format t)) ->
  V2Json.textBlock cls formatJson (JString s) = Return (V2.textBlock cls format s).
Proof.
  intros H. unfold V2Json.textBlock, V2.textBlock. cbn [truthyJson]. rewrite H.
  now destruct (truthy s).
Qed.

(** On a record whose fields are strings the renderer over JSON is the
    renderer of [V1]: the same console lines and the same card. *)
Lemma createProductCard_of_record_v1 (n : string) (r : option ProductRecord) :
  V1Json.createProductCard n (option_map jsonOfRecord r) = V1.createProductCard n r.
Proof.
  destruct r as [d|]; [|reflexivity].
  unfold V1Json.createProductCard, V1.createProductCard, V1.cardTitle.
  cbn [option_map].
  change (truthyJson (jsonOfRecord d)) with true. cbn [negb].
  change (prop (jsonOfRecord d) "creditCardImage")
    with (Some (jsonOfImageRef (creditCardImage d))).
  change (prop (jsonOfRecord d) "creditCardName")
    with (Some (jsonOfString (creditCardName d))).
  change (prop (jsonOfRecord d) "creditCardDescription")
    with (Some (jsonOfRichText (creditCardDescription d))).
  change (prop (jsonOfRecord d) "promo") with (Some (jsonOfRichText (promo d))).
  change (prop (jsonOfRecord d) "notes") with (Some (jsonOfRichText (notes d))).
  rewrite !plaintext_of_record, !textBlock_of_string_v1, title_of_record, altText_of_record.
  destruct (url_of_record (creditCardImage d)) as [-> Hsrc].
  destruct (truthy (orDefault (creditCardImage d ?. _authorUrl) "")).
  - rewrite (Hsrc eq_refl). reflexivity.
  - reflexivity.
Qed.

Lemma createProductCard_of_record_v2 (n : string) (r : option ProductRecord) :
  V2Json.createProductCard n (option_map jsonOfRecord r) = V2.createProductCard n r.
Proof.
  destruct r as [d|]; [|reflexivity].
  unfold V2Json.createProductCard, V2.createProductCard, V2.cardTitle.
  cbn [option_map].
  change (truthyJson (jsonOfRecord d)) with true. cbn [negb].
  change (prop (jsonOfRecord d) "creditCardImage")
    with (Some (jsonOfImageRef (creditCardImage d))).
  change (prop (jsonOfRecord d) "creditCardName")
    with (Some (jsonOfString (creditCardName d))).
  change (prop (jsonOfRecord d) "creditCardDescription")
    with (Some (jsonOfRichText (creditCardDescription d))).
  change (prop (jsonOfRecord d) "promo") with (Some (jsonOfRichText (promo d))).
  change (prop (jsonOfRecord d) "notes") with (Some (jsonOfRichText (notes d))).
  rewrite !plaintext_of_record, title_of_record, altText_of_record.
  rewrite (textBlock_of_string_v2 _ _ _ _ formatText_of_string_v2).
  rewrite (textBlock_of_string_v2 _ _ _ _ formatPromoContent_of_string_v2).
  rewrite (textBlock_of_string_v2 _ _ _ _ formatNotesContent_of_string_v2).
  destruct (url_of_record (creditCardImage d)) as [-> Hsrc].
  destruct (truthy (orDefault (creditCardImage d ?. _authorUrl) "")).
  - rewrite (Hsrc eq_refl). reflexivity.
  - reflexivity.
Qed.

(** Every record with string fields is rendered. *)
Lemma renderable_record (r : option ProductRecord) :
  renderable (option_map jsonOfRecord r) = true.
Proof.
  destruct r as [d|]; [|reflexivity]. cbn [option_map renderable].
  change (truthyJson (jsonOfRecord d)) with true. cbn [negb orb].
  change (prop (jsonOfRecord d) "creditCardImage")
    with (Some (jsonOfImageRef (creditCardImage d))).
  change (prop (jsonOfRecord d) "creditCardName")
    with (Some (jsonOfString (creditCardName d))).
  change (prop (jsonOfRecord d) "creditCardDescription")
    with (Some (jsonOfRichText (creditCardDescription d))).
  change (prop (jsonOfRecord d) "promo") with (Some (jsonOfRichText (promo d))).
  change (prop (jsonOfRecord d) "notes") with (Some (jsonOfRichText (notes d))).
  assert (Hs : forall o, convertible (Some (jsonOfString o)) = true)
    by (intros [[|c s]|]; reflexivity).
  assert (Ht : forall f, isText (propOpt (Some (jsonOfRichText f)) "plaintext") = true)
    by (intros [[[[|c s]|]]|]; reflexivity).
  assert (Hu : forall o, convertible (propOpt (Some (jsonOfImageRef o)) "_authorUrl") = true)
    by (intros [[[[|c s]|]]|]; reflexivity).
  now rewrite Hs, !Ht, Hu.
Qed.
End TypedRecords.

(** C5, counterexample.  For the record whose description has the number 5
    as its plaintext, [createProductCard] writes its first console line and
    then throws a TypeError, in both revisions: it returns no card. *)
Lemma createProductCard_throws_on_number_plaintext :
  (throws (V1Json.createProductCard (host := sampleHost) "Card A" (Some numberRecord))
     (mkError "TypeError" "text.replace is not a function") /\
   snd (run (host := sampleHost) sampleNet Main
          (V1Json.createProductCard (host := sampleHost) "Card A" (Some numberRecord))
          (pageOf sampleBlock))
   = inl (mkError "TypeError" "text.replace is not a function")) /\
  (throws (V2Json.createProductCard (host := sampleHost) "Card A" (Some numberRecord))
     (mkError "TypeError" "text.replace is not a function") /\
   snd (run (host := sampleHost) sampleNet Main
          (V2Json.createProductCard (host := sampleHost) "Card A" (Some numberRecord))
          (pageOf sampleBlock))
   = inl (mkError "TypeError" "text.replace is not a function")).
Proof.
  split; (split; [exists [(info, "Creating product card")]; reflexivity | reflexivity]).
Qed.

Lemma createProductCard_total_on_renderable_witness :
  renderable (Some (jsonOfRecord sampleRecord)) = true /\
  (exists card,
      (forall net who p, exists p',
          run (host := sampleHost) net who
            (V1Json.createProductCard (host := sampleHost) "Card A"
               (Some (jsonOfRecord sampleRecord))) p
          = (p', inr card)) /\
      tag card = "li") /\
  (exists card,
      (forall net who p, exists p',
          run (host := sampleHost) net who
            (V2Json.createProductCard (host := sampleHost) "Card A"
               (Some (jsonOfRecord sampleRecord))) p
          = (p', inr card)) /\
      tag card = "li").
Proof.
  split; [reflexivity|].
  destruct (createProductCard_total_on_renderable (host := sampleHost) "Card A"
              (Some (jsonOfRecord sampleRecord)) eq_refl)
    as [(c1 & H1 & T1 & _) (c2 & H2 & T2 & _)].
  split; [exists c1 | exists c2]; auto.
Defined.

(** ** C7: the text blocks *)

Lemma orDefault_plaintext (f : option RichText) :
  orDefault (f ?. plaintext) "" = plaintextOf f.
Proof. destruct f as [[[s|]]|]; simpl; auto using orElse_empty. Qed.

Lemma truthy_eqb (s : string) : truthy s = negb (String.eqb s "").
Proof. destruct s; reflexivity. Qed.

Lemma formatText_v1 (text : string) : truthy text = true -> V1.formatText text = lineBreaks text.
Proof.
  intros H. unfold V1.formatText, lineBreaks. rewrite H. cbn [negb].
  now rewrite (replaceAll_same_char ">"%char).
Qed.

Lemma formatText_v2 (text : string) : V2.formatText text = trim text.
Proof.
  unfold V2.formatText. destruct text as [|c s]; [reflexivity|]. cbn [truthy negb].
  now rewrite (replaceAll_same_char ">"%char).
Qed.

Lemma textBlock_v1 (cls text : string) : V1.textBlock cls text = paragraphBlock cls text.
Proof.
  unfold V1.textBlock, paragraphBlock. rewrite truthy_eqb.
  destruct (String.eqb text "") eqn:E; cbn [negb]; [reflexivity|].
  rewrite formatText_v1; [reflexivity|]. now rewrite truthy_eqb, E.
Qed.

Lemma includes_rewards (line : string) :
  includes "special offer:" line || includes "Rewards special offer:" line
  = includes "special offer:" line.
Proof.
  destruct (includes "Rewards special offer:" line) eqn:E; [|apply orb_false_r].
  rewrite (includes_longer "special offer:" "Rewards " "" line); [reflexivity | exact E].
Qed.

Lemma concat_all_app (a b : list string) :
  concat_all (a ++ b) = concat_all a ++ concat_all b.
Proof. induction a; simpl; [reflexivity|]. now rewrite IHa, append_assoc. Qed.

Lemma forEachPure_promo (lines : list string) (index : nat) (content : string) :
  forEachPure lines (fun line (_ : nat) content =>
    if includes "special offer:" line || includes "Rewards special offer:" line
    then content ++ "<h4>" ++ line ++ "</h4>"
    else content ++ "<p>" ++ line ++ "</p>") index content
  = content ++ concat_all (map promoLine lines).
Proof.
  revert index content; induction lines as [|l lines IH]; intros index content.
  - simpl. now rewrite append_empty_r.
  - cbn [forEachPure map]. rewrite IH, includes_rewards. unfold promoLine at 2.
    cbn [concat_all fold_right]. fold (concat_all (map promoLine lines)).
    destruct (includes "special offer:" l); now rewrite !append_assoc.
Qed.

Lemma forEachPure_notes_rest (lines : list string) (index : nat) (content : string) :
  Forall (fun line => truthy (trim line) = true) lines ->
  forEachPure lines (fun line index content =>
    if (index =? 0)%nat && includes "Important numbers" line then content
    else if truthy (trim line) then content ++ "<p>" ++ line ++ "</p>"
    else content) (S index) content
  = content ++ concat_all (map paragraph lines).
Proof.
  intros Hall. revert index content.
  induction Hall as [|l lines Hl Hall IH]; intros index content.
  - simpl. now rewrite append_empty_r.
  - cbn [forEachPure map Nat.eqb andb]. rewrite Hl, IH.
    cbn [concat_all fold_right]. unfold paragraph at 2. now rewrite !append_assoc.
Qed.

Lemma nonBlankLines_Forall (s : string) :
  Forall (fun line => truthy (trim line) = true) (V2.nonBlankLines s).
Proof. apply Forall_forall. intros l Hl. now apply filter_In in Hl. Qed.

Lemma formatPromoContent_v2 (text : string) :
  truthy text = true ->
  V2.formatPromoContent text = concat_all (map promoLine (V2.nonBlankLines (trim text))).
Proof.
  intros H. unfold V2.formatPromoContent. rewrite H. cbn [negb].
  now rewrite forEachPure_promo, formatText_v2.
Qed.

Lemma formatNotesContent_v2 (text : string) :
  truthy text = true ->
  V2.formatNotesContent text
  = "<h4>Important numbers for new cards:</h4>"
    ++ concat_all (map paragraph (afterTitle (V2.nonBlankLines (trim text)))).
Proof.
  intros H. unfold V2.formatNotesContent. rewrite H. cbn [negb]. rewrite formatText_v2.
  pose proof (nonBlankLines_Forall (trim text)) as Hall.
  destruct (V2.nonBlankLines (trim text)) as [|l lines]; [reflexivity|].
  inversion Hall as [|? ? Hl Hrest]; subst.
  cbn [forEachPure Nat.eqb andb afterTitle].
  destruct (includes "Important numbers" l).
  - now rewrite forEachPure_notes_rest.
  - rewrite Hl, forEachPure_notes_rest by assumption.
    cbn [map concat_all fold_right]. unfold paragraph at 2. now rewrite !append_assoc.
Qed.

Section TextBlocks.
Context {host : Host}.

(** C7, as the code has it.  For every record each of the description,
    promo and notes blocks is in the card exactly when its plaintext is
    not empty.  In the first revision a block is one paragraph holding the
    plaintext after line-break conversion.  In the second revision the
    description is the trimmed plaintext, the promo is one paragraph per
    non-blank line (a heading for a line with a special offer), and the
    notes are a fixed heading followed by one paragraph per non-blank line,
    a leading title line being dropped. *)
Theorem text_blocks_when_non_empty (productName : string) (d : ProductRecord) :
  (exists card head,
      returns (V1.createProductCard productName (Some d)) card /\
      innerHTML card
      = head
        ++ indent 6 ++ paragraphBlock "products-card-description"
                         (plaintextOf (creditCardDescription d))
        ++ indent 6 ++ paragraphBlock "products-card-promo" (plaintextOf (promo d))
        ++ indent 6 ++ paragraphBlock "products-card-notes" (plaintextOf (notes d))
        ++ indent 4 ++ "</div>" ++ indent 2) /\
  (exists card head,
      returns (V2.createProductCard productName (Some d)) card /\
      innerHTML card
      = head
        ++ indent 6 ++ descriptionBlock2 (plaintextOf (creditCardDescription d))
        ++ indent 6 ++ promoBlock2 (plaintextOf (promo d))
        ++ indent 6 ++ notesBlock2 (plaintextOf (notes d))
        ++ indent 6 ++ "<div class=" ++ q "product-cta" ++ ">"
        ++ indent 8 ++ "<a href=" ++ q "#" ++ " class=" ++ q "product-cta-button"
        ++ ">Find out more</a>"
        ++ indent 6 ++ "</div>"
        ++ indent 4 ++ "</div>"
        ++ indent 2).
Proof.
  split.
  - destruct (card_markup_v1 productName d) as (card & imageHtml & Hret & _ & Hinner).
    exists card,
      (indent 4 ++ imageHtml
       ++ indent 4 ++ "<div class=" ++ q "products-card-body" ++ ">"
       ++ indent 6 ++ "<h3 class=" ++ q "products-card-title" ++ ">"
       ++ V1.cardTitle productName d ++ "</h3>").
    split; [exact Hret|].
    rewrite Hinner, !orDefault_plaintext, !textBlock_v1, !append_assoc. reflexivity.
  - assert (Hd : forall t, V2.textBlock "product-description" V2.formatText t
                           = descriptionBlock2 t).
    { intros t. unfold V2.textBlock, descriptionBlock2. rewrite truthy_eqb.
      destruct (String.eqb t ""); cbn [negb]; now rewrite ?formatText_v2. }
    assert (Hp : forall t, V2.textBlock "product-promo" V2.formatPromoContent t
                           = promoBlock2 t).
    { intros t. unfold V2.textBlock, promoBlock2. rewrite truthy_eqb.
      destruct (String.eqb t "") eqn:E; cbn [negb]; [reflexivity|].
      rewrite formatPromoContent_v2; [reflexivity | now rewrite truthy_eqb, E]. }
    assert (Hn : forall t, V2.textBlock "product-notes" V2.formatNotesContent t
                           = notesBlock2 t).
    { intros t. unfold V2.textBlock, notesBlock2. rewrite truthy_eqb.
      destruct (String.eqb t "") eqn:E; cbn [negb]; [reflexivity|].
      rewrite formatNotesContent_v2; [reflexivity | now rewrite truthy_eqb, E]. }
    destruct (card_markup_v2 productName d) as (card & imageHtml & Hret & _ & Hinner).
    exists card,
      (indent 4 ++ imageHtml
       ++ indent 4 ++ "<div class=" ++ q "product-card-body" ++ ">"
       ++ indent 6 ++ "<h3 class=" ++ q "product-title" ++ ">"
       ++ V2.cardTitle productName d ++ "</h3>").
    split; [exact Hret|].
    rewrite Hinner, !orDefault_plaintext, Hd, Hp, Hn, !append_assoc. reflexivity.
Qed.
End TextBlocks.

(** C7, counterexample.  For a description holding an encoded greater-than
    sign and a line break, the card of the first revision shows the entity as
    it came, and the card of the second revision shows both the entity and
    the line break as they came: neither card holds the text formatted as the
    specification describes. *)
Lemma text_blocks_not_as_specified :
  let text := "Fee &gt; 0" ++ nl ++ "Terms apply" in
  (exists card,
      returns (V1.createProductCard (host := sampleHost) "" (Some gtRecord)) card /\
      includes "<p>Fee &gt; 0<br>Terms apply</p>" (innerHTML card) = true /\
      includes (formatTextSpec text) (innerHTML card) = false) /\
  (exists card,
      returns (V2.createProductCard (host := sampleHost) "" (Some gtRecord)) card /\
      includes (">Fee &gt; 0" ++ nl ++ "Terms apply</div>") (innerHTML card) = true /\
      includes (formatTextSpec text) (innerHTML card) = false).
Proof.
  split; eexists; (split; [exists [(info, "Creating product card");
                                   (info, "Product card created successfully")];
                           reflexivity|]); split; vm_compute; reflexivity.
Qed.

(** ** Callbacks under a schedule *)

Lemma actor_eqb_refl (a : Actor) : actor_eqb a a = true.
Proof. destruct a; simpl; auto using Nat.eqb_refl. Qed.

Lemma actor_eqb_neq (a b : Actor) : a <> b -> actor_eqb a b = false.
Proof.
  destruct a as [|i], b as [|j]; simpl; try congruence.
  intros H. apply Nat.eqb_neq. congruence.
Qed.

Lemma extends_refl who p : extends who p p [].
Proof. unfold extends. simpl. now rewrite app_nil_r. Qed.

Lemma extends_trans who p p1 p2 evs1 evs2 :
  extends who p p1 evs1 -> extends who p1 p2 evs2 -> extends who p p2 (evs1 ++ evs2).
Proof. unfold extends. intros H1 H2. now rewrite H2, H1, map_app, app_assoc. Qed.

Lemma extends_emit who p e : extends who p (emit who e p) [e].
Proof. reflexivity. Qed.

Lemma extends_emitLogs who l p :
  extends who p (emitLogs who l p) (map (fun x => EvLog (fst x) (snd x)) l).
Proof.
  revert p; induction l as [|x l IH]; intros p; [apply extends_refl|].
  simpl. apply (extends_trans who p _ _ [_] _ (extends_emit who p _)), IH.
Qed.

Lemma extends_callMoveInstrumentation {host : Host} who c p :
  extends who p (fst (callMoveInstrumentation who c p)) [EvMoveInstrumentation c].
Proof.
  unfold callMoveInstrumentation. destruct (moveInstrumentation _ _). reflexivity.
Qed.

Lemma eventsOf_extends who p p' evs :
  extends who p p' evs -> eventsOf who p' = (eventsOf who p ++ evs)%list.
Proof.
  unfold extends, eventsOf. intros ->. rewrite filter_app, map_app. f_equal.
  induction evs as [|e evs IH]; [reflexivity|].
  simpl. rewrite actor_eqb_refl. simpl. now rewrite IH.
Qed.

Lemma eventsOf_extends_other who other p p' evs :
  other <> who -> extends who p p' evs -> eventsOf other p' = eventsOf other p.
Proof.
  unfold extends, eventsOf. intros Hne ->. rewrite filter_app, map_app.
  replace (filter _ (map (pair who) evs)) with (@nil (Actor * Event)).
  - apply app_nil_r.
  - induction evs as [|e evs IH]; [reflexivity|].
    simpl. now rewrite (actor_eqb_neq who other) by congruence.
Qed.

Section Finishes.
Context {host : Host}.
Variable net : Network.

Lemma finishes_settled {A} who (Q : A -> list Event -> Prop) d r done :
  finishes net who Q d (Settled r) done -> exists a, r = inr a /\ Q a done.
Proof. destruct d, r as [e|a]; simpl; intros H; try contradiction; eauto. Qed.

Lemma finishes_zero {A} who (Q : A -> list Event -> Prop) t done :
  finishes net who Q 0 t done -> exists a, t = Settled (inr a) /\ Q a done.
Proof. destruct t as [[e|a]| |]; simpl; intros H; try contradiction; eauto. Qed.

Lemma finishes_resume {A} who (Q : A -> list Event -> Prop) d (t : Task A) done p :
  finishes net who Q d t done ->
  exists evs,
    extends who p (fst (resume net who t p)) evs /\
    finishes net who Q (pred d) (snd (resume net who t p)) (done ++ evs).
Proof.
  intros H. destruct t as [r| u o k | k].
  - exists []. split; [apply extends_refl|]. rewrite app_nil_r.
    destruct (finishes_settled _ _ _ _ _ H) as (a & -> & Ha). destruct (pred d); exact Ha.
  - destruct d; [contradiction|]. apply H.
  - destruct d; [contradiction|]. apply H.
Qed.
End Finishes.

(** ** Promise.all under a schedule *)

Lemma length_setNth {A} (i : nat) (x : A) (l : list A) :
  List.length (setNth i x l) = List.length l.
Proof. revert i; induction l as [|y l IH]; intros [|i]; simpl; auto. Qed.

Lemma nth_error_setNth_same {A} (i : nat) (x y : A) (l : list A) :
  nth_error l i = Some y -> nth_error (setNth i x l) i = Some x.
Proof. revert i; induction l as [|z l IH]; intros [|i]; simpl; try discriminate; auto. Qed.

Lemma nth_error_setNth_other {A} (i j : nat) (x : A) (l : list A) :
  i <> j -> nth_error (setNth j x l) i = nth_error l i.
Proof.
  revert i j; induction l as [|z l IH]; intros [|i] [|j] H; simpl; auto; try congruence.
Qed.

Lemma firstRejected_None {A} (pool : list (Task A)) :
  (forall t e, In t pool -> t <> Settled (inl e)) -> firstRejected pool = None.
Proof.
  induction pool as [|t pool IH]; intros H; [reflexivity|].
  destruct t as [[e|a]| |]; simpl; try (apply IH; intros; apply H; now right).
  exfalso. apply (H (Settled (inl e)) e); [now left | reflexivity].
Qed.

Lemma allFulfilled_Some {A} (pool : list (Task A)) (vs : list A) :
  allFulfilled pool = Some vs -> pool = map (fun v => Settled (inr v)) vs.
Proof.
  revert vs; induction pool as [|t pool IH]; intros vs; simpl.
  - intros [= <-]. reflexivity.
  - destruct t as [[e|a]| |]; try discriminate.
    destruct (allFulfilled pool) as [ws|]; simpl; [|discriminate].
    intros [= <-]. simpl. f_equal. now apply IH.
Qed.

Lemma allFulfilled_None {A} (pool : list (Task A)) :
  allFulfilled pool = None ->
  exists i t, nth_error pool i = Some t /\ forall a, t <> Settled (inr a).
Proof.
  induction pool as [|t pool IH]; simpl; [discriminate|].
  destruct t as [[e|a]| |]; try (intros _; exists 0; eexists; split; [reflexivity|congruence]).
  destruct (allFulfilled pool); simpl; [discriminate|]. intros _.
  destruct IH as (i & t & Hi & Ht); [reflexivity|]. now exists (S i), t.
Qed.

Section Pool.
Context {host : Host}.
Variable net : Network.
Context {B : Type}.
Variable QQ : nat -> B -> list Event -> Prop.
Variable p0 : Page.

Lemma turn_poolOK (budget : nat -> nat) (pool : list (Task B)) (p : Page) (j : nat) :
  poolOK net QQ p0 budget pool p ->
  poolOK net QQ p0 (fun i => if Nat.eqb i j then pred (budget i) else budget i)
    (snd (turn net j pool p)) (fst (turn net j pool p)) /\
  List.length (snd (turn net j pool p)) = List.length pool /\
  eventsOf Main (fst (turn net j pool p)) = eventsOf Main p.
Proof.
  intros Hok. unfold turn. destruct (nth_error pool j) as [t|] eqn:Hj.
  - destruct (Hok j t Hj) as (done & Hev & Hfin).
    destruct (finishes_resume net _ _ _ _ _ p Hfin) as (evs & Hext & Hfin').
    destruct (resume net (Item j) t p) as [p' t'] eqn:Hres. simpl in *.
    split; [|split].
    + intros i ti Hi. destruct (Nat.eqb_spec i j) as [-> | Hne].
      * rewrite (nth_error_setNth_same _ _ _ _ Hj) in Hi. injection Hi as <-.
        exists (done ++ evs)%list. split; [|exact Hfin'].
        rewrite (eventsOf_extends _ _ _ _ Hext), Hev. now rewrite app_assoc.
      * rewrite nth_error_setNth_other in Hi by assumption.
        destruct (Hok i ti Hi) as (done' & Hev' & Hfin'').
        exists done'. split; [|exact Hfin''].
        rewrite (eventsOf_extends_other (Item j) (Item i) p p' evs); [exact Hev' | | exact Hext].
        congruence.
    + apply length_setNth.
    + apply (eventsOf_extends_other (Item j) Main p p' evs); [discriminate | exact Hext].
  - simpl. split; [|split]; auto.
    intros i t Hi. destruct (Nat.eqb_spec i j) as [-> | Hne]; [congruence|]. now apply Hok.
Qed.

Lemma poolOK_settlement (budget : nat -> nat) (pool : list (Task B)) (p : Page)
  (r : JsError + list B) :
  poolOK net QQ p0 budget pool p -> settlement pool = Some r ->
  exists values,
    r = inr values /\ List.length values = List.length pool /\
    forall i a, nth_error values i = Some a ->
      exists done,
        eventsOf (Item i) p = (eventsOf (Item i) p0 ++ done)%list /\ QQ i a done.
Proof.
  intros Hok. unfold settlement. rewrite firstRejected_None.
  - destruct (allFulfilled pool) as [vs|] eqn:Hall; simpl; [|discriminate].
    intros [= <-]. exists vs. apply allFulfilled_Some in Hall. subst pool.
    split; [reflexivity|]. split; [now rewrite length_map|].
    intros i a Hi.
    destruct (Hok i (Settled (inr a))) as (done & Hev & Hfin).
    + rewrite nth_error_map, Hi. reflexivity.
    + exists done. split; [exact Hev|].
      destruct (finishes_settled net _ _ _ _ _ Hfin) as (a' & [= <-] & Ha). exact Ha.
  - intros t e Hin ->. apply In_nth_error in Hin as [i Hi].
    destruct (Hok i _ Hi) as (done & _ & Hfin).
    destruct (finishes_settled net _ _ _ _ _ Hfin) as (a & [=] & _).
Qed.

(** Under a schedule that gives every callback the turns it needs,
    [Promise.all] is fulfilled with the values of the callbacks in the
    order of the pool. *)
Lemma promiseAll_fulfilled (sched : list nat) :
  forall (budget : nat -> nat) (pool : list (Task B)) (p : Page),
  poolOK net QQ p0 budget pool p ->
  (forall i, i < List.length pool -> budget i <= count_occ Nat.eq_dec sched i) ->
  exists p' values,
    promiseAll net sched pool p = (p', Some (inr values)) /\
    List.length values = List.length pool /\
    (forall i a, nth_error values i = Some a ->
       exists done,
         eventsOf (Item i) p' = (eventsOf (Item i) p0 ++ done)%list /\ QQ i a done) /\
    eventsOf Main p' = eventsOf Main p.
Proof.
  induction sched as [|j sched IH]; intros budget pool p Hok Hbudget;
    cbn [promiseAll]; destruct (settlement pool) as [r|] eqn:Hset.
  - destruct (poolOK_settlement _ _ _ _ Hok Hset) as (vs & -> & Hlen & Hvs). eauto 6.
  - exfalso. unfold settlement in Hset.
    destruct (firstRejected pool); [discriminate|].
    destruct (allFulfilled pool) eqn:Hall; [discriminate|].
    destruct (allFulfilled_None _ Hall) as (i & t & Hi & Ht).
    destruct (Hok i t Hi) as (done & _ & Hfin).
    assert (Hlt : i < List.length pool) by (apply nth_error_Some; congruence).
    specialize (Hbudget i Hlt). simpl in Hbudget.
    replace (budget i) with 0 in Hfin by lia.
    destruct (finishes_zero net _ _ _ _ Hfin) as (a & -> & _). now apply (Ht a).
  - destruct (poolOK_settlement _ _ _ _ Hok Hset) as (vs & -> & Hlen & Hvs). eauto 6.
  - destruct (turn_poolOK budget pool p j Hok) as (Hok' & Hlen' & Hmain).
    destruct (turn net j pool p) as [p1 pool1]. simpl in Hok', Hlen', Hmain.
    destruct (IH _ pool1 p1 Hok') as (p' & vs & Hrun & Hlen & Hvs & Hmain').
    + intros i Hi. rewrite Hlen' in Hi. specialize (Hbudget i Hi).
      simpl in Hbudget. destruct (Nat.eqb_spec i j) as [-> | Hne].
      * destruct (Nat.eq_dec j j); [lia | congruence].
      * destruct (Nat.eq_dec j i); [congruence | lia].
    + exists p', vs. rewrite Hrun. repeat split; auto; congruence.
Qed.
End Pool.

(** ** One item callback *)

Lemma moves_logEvents l : moves (logEvents l) = [].
Proof. induction l; simpl; auto. Qed.

Lemma fetches_logEvents l : fetches (logEvents l) = [].
Proof. induction l; simpl; auto. Qed.

Lemma tryCatch_logs {A} (l : list (Level * string)) (m : Js A) (h : JsError -> Js A) :
  tryCatch (logs l m) h = logs l (tryCatch m h).
Proof. induction l as [|[lv s] l IH]; simpl; congruence. Qed.

Lemma extends_emit_step who p p' evs e :
  extends who p p' evs -> extends who p (emit who e p') (evs ++ [e]).
Proof. intros H. apply (extends_trans _ _ _ _ _ _ H), extends_emit. Qed.

Lemma extends_emitLogs_step who p p' evs l :
  extends who p p' evs -> extends who p (emitLogs who l p') (evs ++ logEvents l).
Proof. intros H. apply (extends_trans _ _ _ _ _ _ H), extends_emitLogs. Qed.

Lemma extends_setBlockAttrs who p p' evs b :
  extends who p p' evs -> extends who p (setBlockAttrs b p') evs.
Proof. exact (fun H => H). Qed.

Lemma returns_intro {A} (m : Js A) (l : list (Level * string)) (a : A) :
  m = logs l (Return a) -> returns m a.
Proof. intros ->. now exists l. Qed.

Lemma fetches_app a b : fetches (a ++ b) = (fetches a ++ fetches b)%list.
Proof. apply filter_app. Qed.

Lemma moves_app a b : moves (a ++ b) = (moves a ++ moves b)%list.
Proof. apply filter_app. Qed.

Ltac extends_tac :=
  repeat first [ apply extends_emit_step | apply extends_emitLogs_step
               | apply extends_setBlockAttrs ];
  apply extends_refl.

(** Counts the requests and the calls of [moveInstrumentation] in a list of
    events given piece by piece. *)
Ltac events_tac :=
  rewrite ?fetches_app, ?moves_app, ?fetches_logEvents, ?moves_logEvents;
  cbn [fetches moves filter isRequest isMove app].

Section Callback.
Context {host : Host}.
Variable net : Network.
Variable createProductCard : string -> option ProductRecord -> Js Elem.
Hypothesis createProductCard_returns :
  forall n r, exists card, returns (createProductCard n r) card.

Lemma advance_logs {A} who (l : list (Level * string)) (m : Js A) (p : Page) :
  advance who (logs l m) p = advance who m (emitLogs who l p).
Proof. revert p; induction l as [|[lv s] l IH]; intros p; simpl; auto. Qed.

Lemma fetched_run who contentPath p :
  snd (run net who (getProductDataByContentPath contentPath) p)
  = fetched (net who (requestUrl contentPath) requestOptions).
Proof.
  unfold getProductDataByContentPath, requestUrl, requestOptions, fetched. js_unfold.
  destruct (net who _ _) as [e | r]; js_unfold; [reflexivity|].
  destruct (ok r); js_unfold; [|reflexivity].
  destruct (json r) as [e | cf]; js_unfold; [reflexivity|].
  destruct (cf ?. data ?. productCreditCardModelByPath ?. item); reflexivity.
Qed.

Lemma processItem_finishes (i : nat) (it : ProductItem) (p : Page) :
  exists evs,
    extends (Item i) p (fst (advance (Item i) (processItem createProductCard it) p)) evs /\
    finishes net (Item i)
      (itemDone createProductCard it
       (net (Item i) (requestUrl (fragmentPath it)) requestOptions))
      3 (snd (advance (Item i) (processItem createProductCard it) p)) evs.
Proof.
  unfold itemDone, processItem, getProductDataByContentPath, requestUrl, requestOptions.
  js_unfold.
  eexists. split; [extends_tac|].
  cbn [finishes]. intros p1. cbn [resume].
  destruct (net (Item i) _ _) as [e | r]; js_unfold.
  - (* the request is rejected *)
    eexists. split; [extends_tac|].
    cbn [finishes]. intros p2. js_unfold.
    destruct (createProductCard_returns (productName it) None) as (card & l & Hl).
    rewrite Hl, advance_logs. cbn [advance fst snd].
    eexists. split; [extends_tac|].
    cbn [finishes fetched]. events_tac.
    repeat split; now exists l.
  - destruct (ok r) eqn:Hok; js_unfold.
    + eexists. split; [extends_tac|].
      cbn [finishes]. intros p2. js_unfold.
      destruct (json r) as [e | cf] eqn:Hjson; js_unfold.
      * (* the body is not JSON *)
        eexists. split; [extends_tac|].
        cbn [finishes]. intros p3. js_unfold.
        destruct (createProductCard_returns (productName it) None) as (card & l & Hl).
        rewrite Hl, advance_logs. cbn [advance fst snd].
        eexists. split; [extends_tac|].
        cbn [finishes fetched]. rewrite Hok, Hjson. events_tac.
    repeat split; now exists l.
      * (* a parsed body, with or without an item *)
        destruct (cf ?. data ?. productCreditCardModelByPath ?. item) as [d|] eqn:Hitem;
          js_unfold;
          (eexists; split; [extends_tac|]);
          cbn [finishes]; intros p3; js_unfold;
          [ destruct (createProductCard_returns (productName it) (Some d))
              as (card & l & Hl)
          | destruct (createProductCard_returns (productName it) None)
              as (card & l & Hl) ];
          rewrite Hl, bind_logs, tryCatch_logs, advance_logs;
          cbn [bind tryCatch advance]; unfold callMoveInstrumentation;
          destruct (moveInstrumentation _ _) as [b' a']; cbn [advance fst snd];
          (eexists; split; [extends_tac|]);
          cbn [finishes fetched]; rewrite Hok, Hjson, Hitem; events_tac;
          (split; [reflexivity|]); exists card, a';
          (split; [now exists l|]); split; reflexivity.
    + (* a status outside 200-299 *)
      eexists. split; [extends_tac|].
      cbn [finishes]. intros p2. js_unfold.
      destruct (createProductCard_returns (productName it) None) as (card & l & Hl).
      rewrite Hl, advance_logs. cbn [advance fst snd].
      eexists. split; [extends_tac|].
      cbn [finishes fetched]. rewrite Hok. events_tac.
    repeat split; now exists l.
Qed.
End Callback.

(** ** The callbacks of all items *)

Lemma covers_count (n : nat) (sched : list nat) (i : nat) :
  covers n sched = true -> i < n -> 3 <= count_occ Nat.eq_dec sched i.
Proof.
  unfold covers. rewrite forallb_forall. intros H Hi.
  apply Nat.leb_le, H, in_seq. lia.
Qed.

Section Callbacks.
Context {host : Host}.
Variable net : Network.
Variable createProductCard : string -> option ProductRecord -> Js Elem.
Hypothesis createProductCard_returns :
  forall n r, exists card, returns (createProductCard n r) card.

Lemma finishes_weaken {A} who (Q Q' : A -> list Event -> Prop) d (t : Task A) done :
  (forall a evs, Q a evs -> Q' a evs) ->
  finishes net who Q d t done -> finishes net who Q' d t done.
Proof.
  intros HQ. revert t done. induction d as [|d IH]; intros t done.
  - destruct t as [[e|a]| |]; simpl; auto.
  - destruct t as [[e|a]| |]; simpl; auto;
      intros H p; destruct (H p) as (evs & Hext & Hfin); exists evs; split; auto.
Qed.

Lemma spawnAll_finishes (items : list ProductItem) :
  forall (k : nat) (p : Page),
    List.length (snd (spawnAll (processItem createProductCard) k items p))
    = List.length items /\
    (forall who, (forall m, k <= m -> who <> Item m) ->
                 eventsOf who (fst (spawnAll (processItem createProductCard) k items p))
                 = eventsOf who p) /\
    (forall j t,
        nth_error (snd (spawnAll (processItem createProductCard) k items p)) j = Some t ->
        exists it done,
          nth_error items j = Some it /\
          eventsOf (Item (k + j)) (fst (spawnAll (processItem createProductCard) k items p))
          = (eventsOf (Item (k + j)) p ++ done)%list /\
          finishes net (Item (k + j))
            (itemDone createProductCard it (outcomeOf net (k + j) it)) 3 t done).
Proof.
  induction items as [|it items IH]; intros k p; cbn [spawnAll].
  - simpl. split; [reflexivity|]. split; [reflexivity|].
    intros [|j] t; discriminate.
  - destruct (processItem_finishes net createProductCard createProductCard_returns k it p)
      as (evs & Hext & Hfin).
    destruct (advance (Item k) (processItem createProductCard it) p) as [p1 t1].
    destruct (IH (S k) p1) as (Hlen & Hother & Hnth).
    destruct (spawnAll (processItem createProductCard) (S k) items p1) as [p2 ts].
    cbn [fst snd] in *. split; [simpl; congruence|]. split.
    + intros who Hwho. rewrite Hother by (intros m Hm; apply Hwho; lia).
      apply (eventsOf_extends_other (Item k) who p p1 evs); [|exact Hext].
      apply Hwho. lia.
    + intros [|j] t Ht; cbn [nth_error] in Ht.
      * injection Ht as <-. exists it, evs. rewrite Nat.add_0_r.
        split; [reflexivity|]. split; [|exact Hfin].
        rewrite Hother by (intros m Hm; injection; lia).
        now apply eventsOf_extends.
      * destruct (Hnth j t Ht) as (it' & done & Hit & Hev & Hfin').
        exists it', done. replace (k + S j) with (S k + j) by lia.
        split; [exact Hit|]. split; [|exact Hfin'].
        rewrite Hev. f_equal.
        apply (eventsOf_extends_other (Item k) (Item (S k + j)) p p1 evs); [|exact Hext].
        injection; lia.
Qed.

Lemma spawnAll_poolOK (items : list ProductItem) (p : Page) :
  poolOK net (cardDone net createProductCard items) p (fun _ => 3)
    (snd (spawnAll (processItem createProductCard) 0 items p))
    (fst (spawnAll (processItem createProductCard) 0 items p)).
Proof.
  destruct (spawnAll_finishes items 0 p) as (_ & _ & Hnth).
  intros i t Hi. destruct (Hnth i t Hi) as (it & done & Hit & Hev & Hfin).
  exists done. split; [exact Hev|].
  apply (finishes_weaken _ _ _ _ _ _ (fun a evs H => H)) in Hfin.
  unfold cardDone. now rewrite Hit.
Qed.

(** Under a covering schedule [Promise.all] is fulfilled with one card
    per item, in the order of the items. *)
Lemma callbacks_fulfilled (items : list ProductItem) (sched : list nat) (p : Page) :
  covers (List.length items) sched = true ->
  exists p' cards,
    promiseAll net sched (snd (spawnAll (processItem createProductCard) 0 items p))
      (fst (spawnAll (processItem createProductCard) 0 items p))
    = (p', Some (inr cards)) /\
    List.length cards = List.length items /\
    (forall i card, nth_error cards i = Some card ->
       exists done,
         eventsOf (Item i) p' = (eventsOf (Item i) p ++ done)%list /\
         cardDone net createProductCard items i card done) /\
    eventsOf Main p' = eventsOf Main p.
Proof.
  intros Hcov.
  destruct (spawnAll_finishes items 0 p) as (Hlen & Hother & _).
  destruct (promiseAll_fulfilled net (cardDone net createProductCard items) p sched
              (fun _ => 3) _ _
              (spawnAll_poolOK items p))
    as (p' & cards & Hrun & Hlen' & Hcards & Hmain).
  - intros i Hi. rewrite Hlen in Hi. now apply covers_count with (n := List.length items).
  - exists p', cards. split; [exact Hrun|]. split; [congruence|]. split; [exact Hcards|].
    rewrite Hmain. apply Hother. discriminate.
Qed.
End Callbacks.

(** ** C1, C9, C10: the orchestrator *)

Lemma parsedFrom_rowItem (rows : list Node) (found : list ProductItem) :
  Forall2 parsedFrom (filter qualifies rows) found -> found = flat_map rowItem rows.
Proof.
  revert found; induction rows as [|row rows IH]; intros found; simpl.
  - now inversion 1.
  - unfold qualifies at 1, rowItem at 1.
    destruct (children row) as [|c0 [|c1 rest]] eqn:Hc; simpl; auto.
    destruct (truthy (trim (textContent c1))); simpl; auto.
    inversion 1 as [|? it ? found' (c0' & c1' & rest' & Hc' & Hn & Hp) Hall]; subst.
    rewrite Hc in Hc'. injection Hc' as <- <- <-.
    f_equal; [|now apply IH]. destruct it; simpl in *; congruence.
Qed.

Lemma forEachPure_appendChild (cards : list Elem) (index : nat) (ul : Elem) :
  forEachPure cards (fun card (_ : nat) ul => appendChild card ul) index ul
  = mkElem (tag ul) (className ul) (attributes ul) (innerHTML ul) (appended ul ++ cards).
Proof.
  revert index ul; induction cards as [|c cards IH]; intros index ul; cbn [forEachPure].
  - rewrite app_nil_r. now destruct ul.
  - rewrite IH. unfold appendChild. cbn. now rewrite <- app_assoc.
Qed.

Lemma parseRow_returns (row : Node) (index : nat) (items : list ProductItem) :
  returns (parseRow row index items) (items ++ rowItem row)%list.
Proof.
  unfold parseRow, rowItem, cellText.
  destruct (children row) as [|c0 [|c1 rest]]; cbn [List.length Nat.leb nth_error option_map];
    try (rewrite app_nil_r; returns_tac).
  cbn [orDefault]. rewrite !orElse_empty.
  destruct (truthy (trim (textContent c1))); [|rewrite app_nil_r]; returns_tac.
Qed.

Lemma forEach_parseRow_returns (rows : list Node) :
  forall (index : nat) (items : list ProductItem),
    returns (forEach rows parseRow index items) (items ++ flat_map rowItem rows)%list.
Proof.
  induction rows as [|row rows IH]; intros index items; cbn [forEach flat_map].
  - rewrite app_nil_r. apply returns_Return.
  - eapply returns_bind; [apply parseRow_returns|]. rewrite app_assoc. apply IH.
Qed.

(** The parser only writes to the console, and returns the items of the
    block. *)
Lemma parseProductItems_returns (block : Block) :
  returns (parseProductItems block) (itemsOf block).
Proof.
  unfold parseProductItems. cbn [bind log]. apply returns_log.
  eapply returns_bind; [apply (forEach_parseRow_returns _ 0 [])|]. returns_tac.
Qed.

Section Orchestrator.
Context {host : Host}.
Variable net : Network.

Lemma returns_v1 (n : string) (r : option ProductRecord) :
  exists card, returns (V1.createProductCard n r) card.
Proof. destruct (createProductCard_returns_v1 n r) as (c & H & _). eauto. Qed.

Lemma returns_v2 (n : string) (r : option ProductRecord) :
  exists card, returns (V2.createProductCard n r) card.
Proof. destruct (createProductCard_returns_v2 n r) as (c & H & _). eauto. Qed.

(** The page on which the callbacks start: the parser has returned the
    items, no callback has emitted anything and [decorate] has only
    logged. *)
Lemma before_callbacks (block : Block) (l : Level) (s : string) :
  exists p1,
    run net Main (parseProductItems block) (emit Main (EvLog l s) (pageOf block))
    = (p1, inr (itemsOf block)) /\
    (forall i, eventsOf (Item i) p1 = []) /\
    moves (eventsOf Main p1) = [].
Proof.
  destruct (parseProductItems_returns block) as [lg ->]. rewrite run_logs. cbn [run].
  eexists. split; [reflexivity|].
  assert (H : extends Main (pageOf block)
                (emitLogs Main lg (emit Main (EvLog l s) (pageOf block)))
                (([] ++ [EvLog l s]) ++ logEvents lg)%list) by extends_tac.
  split.
  - intros i. now rewrite (eventsOf_extends_other Main (Item i) _ _ _ ltac:(discriminate) H).
  - rewrite (eventsOf_extends _ _ _ _ H).
    change (eventsOf Main (pageOf block)) with (@nil Event). now events_tac.
Qed.

Lemma decorate_rendered_v1 (sched : list nat) (block : Block) :
  covers (List.length (itemsOf block)) sched = true ->
  itemsOf block <> [] ->
  exists p cards,
    V1.decorate net sched block = (p, true) /\
    content p = Markup "" [mkElem "ul" "products-list" [] "" cards] /\
    renderedWith net V1.createProductCard block p cards.
Proof.
  intros Hcov Hne. unfold V1.decorate.
  destruct (before_callbacks block info "Starting products block decoration")
    as (p1 & -> & Hnone & Hmoves).
  destruct (Nat.eqb_spec (List.length (itemsOf block)) 0) as [H0|_];
    [apply length_zero_iff_nil in H0; congruence|].
  set (p2 := setInnerHTML _ p1).
  destruct (callbacks_fulfilled net V1.createProductCard returns_v1
              (itemsOf block) sched p2 Hcov)
    as (p' & cards & Hrun & Hlen & Hcards & Hmain).
  destruct (spawnAll _ 0 (itemsOf block) p2) as [p3 pool]. cbn [fst snd] in Hrun.
  rewrite Hrun. rewrite forEachPure_appendChild.
  eexists _, cards. split; [reflexivity|]. split; [reflexivity|].
  split; [exact Hlen|]. split.
  - rewrite (eventsOf_extends Main p' _ [_]) by reflexivity.
    rewrite Hmain. change (eventsOf Main p2) with (eventsOf Main p1).
    events_tac. now rewrite Hmoves.
  - intros i card Hi. destruct (Hcards i card Hi) as (done & Hev & Hdone).
    replace (eventsOf (Item i) _) with done; [exact Hdone|].
    symmetry.
    rewrite (eventsOf_extends_other Main (Item i) p' _ [_]) by (discriminate || reflexivity).
    rewrite Hev. change (eventsOf (Item i) p2) with (eventsOf (Item i) p1).
    now rewrite Hnone.
Qed.

Lemma decorate_rendered_v2 (sched : list nat) (block : Block) :
  covers (List.length (itemsOf block)) sched = true ->
  itemsOf block <> [] ->
  exists p cards,
    V2.decorate net sched block = (p, true) /\
    content p = Markup "" [mkElem "div" "products-title" [] "<h2>Your card options</h2>" [];
                           mkElem "ul" "" [] "" cards] /\
    display p = "" /\
    renderedWith net V2.createProductCard block p cards.
Proof.
  intros Hcov Hne. unfold V2.decorate.
  destruct (before_callbacks block info "Starting products block decoration")
    as (p1 & -> & Hnone & Hmoves).
  destruct (Nat.eqb_spec (List.length (itemsOf block)) 0) as [H0|_];
    [apply length_zero_iff_nil in H0; congruence|].
  set (p2 := setInnerHTML _ (setDisplay "block" p1)).
  destruct (callbacks_fulfilled net V2.createProductCard returns_v2
              (itemsOf block) sched p2 Hcov)
    as (p' & cards & Hrun & Hlen & Hcards & Hmain).
  destruct (spawnAll _ 0 (itemsOf block) p2) as [p3 pool]. cbn [fst snd] in Hrun.
  rewrite Hrun. rewrite forEachPure_appendChild.
  eexists _, cards. split; [reflexivity|]. split; [reflexivity|]. split; [reflexivity|].
  split; [exact Hlen|]. split.
  - rewrite (eventsOf_extends Main p' _ [_]) by reflexivity.
    rewrite Hmain. change (eventsOf Main p2) with (eventsOf Main p1).
    events_tac. now rewrite Hmoves.
  - intros i card Hi. destruct (Hcards i card Hi) as (done & Hev & Hdone).
    replace (eventsOf (Item i) _) with done; [exact Hdone|].
    symmetry.
    rewrite (eventsOf_extends_other Main (Item i) p' _ [_]) by (discriminate || reflexivity).
    rewrite Hev. change (eventsOf (Item i) p2) with (eventsOf (Item i) p1).
    now rewrite Hnone.
Qed.
End Orchestrator.

Lemma fetchFails_fetched (o : FetchOutcome) (msg : string) :
  fetchFails o msg -> fetched o = inl (Error ("Failed to fetch GraphQL Data: " ++ msg)).
Proof. intros [e | r Hok]; cbn [fetched]; [|rewrite Hok]; reflexivity. Qed.

Lemma withAttributes_nil_fallback (c h : string) :
  withAttributes [] (mkElem "li" c [] h []) = mkElem "li" c [] h [].
Proof. reflexivity. Qed.

Section Appended.
Context {host : Host}.

Lemma appended_rendered_v1 (n : string) (r : option ProductRecord) (card : Elem) :
  returns (V1.createProductCard n r) card -> appended card = [].
Proof.
  intros H. assert (exists c, returns (V1.createProductCard n r) c /\ appended c = [])
    as (c & Hc & Happ).
  { unfold V1.createProductCard. destruct r as [d|].
    - destruct (truthy (orDefault (creditCardImage d ?. _authorUrl) ""));
        eexists; (split; [returns_tac | reflexivity]).
    - eexists; split; [returns_tac | reflexivity]. }
  now rewrite (returns_unique _ _ _ H Hc).
Qed.

Lemma appended_rendered_v2 (n : string) (r : option ProductRecord) (card : Elem) :
  returns (V2.createProductCard n r) card -> appended card = [].
Proof.
  intros H. assert (exists c, returns (V2.createProductCard n r) c /\ appended c = [])
    as (c & Hc & Happ).
  { unfold V2.createProductCard. destruct r as [d|].
    - destruct (truthy (orDefault (creditCardImage d ?. _authorUrl) ""));
        eexists; (split; [returns_tac | reflexivity]).
    - eexists; split; [returns_tac | reflexivity]. }
  now rewrite (returns_unique _ _ _ H Hc).
Qed.
End Appended.

Section Claims.
Context {host : Host}.
Variable net : Network.

(** C1.  Under a schedule that lets every callback finish, [decorate]
    ends with the list of cards in the block, never with the error page.
    Every item has its card.  The card of an item whose fetch failed (the
    request was rejected or the status was outside 200-299, or the body
    could not be parsed) is the fallback card of that item.  The card of
    every other item is the card [createProductCard] renders for the name of
    the item and for what the fetcher returned for that very item, up to the
    attributes [moveInstrumentation] gave it: a failure elsewhere does not
    change it. *)
Theorem failed_fetch_gives_fallback_card (sched : list nat) (block : Block) :
  covers (List.length (itemsOf block)) sched = true ->
  itemsOf block <> [] ->
  (exists p cards,
      V1.decorate net sched block = (p, true) /\
      content p = Markup "" [mkElem "ul" "products-list" [] "" cards] /\
      content p <> Markup ("<p class=" ++ q "products-error"
                           ++ ">Failed to load products. Please try again later.</p>") [] /\
      List.length cards = List.length (itemsOf block) /\
      forall i it, nth_error (itemsOf block) i = Some it ->
        exists card,
          nth_error cards i = Some card /\
          (forall msg, fetchFails (outcomeOf net i it) msg ->
             card = mkElem "li" "products-card" [] (V1.fallbackHTML (productName it)) []) /\
          match fetched (outcomeOf net i it) with
          | inl _ =>
              card = mkElem "li" "products-card" [] (V1.fallbackHTML (productName it)) []
          | inr fragmentData =>
              exists rendered attrs,
                returns (V1.createProductCard (productName it) fragmentData) rendered /\
                card = withAttributes attrs rendered
          end) /\
  (exists p cards,
      V2.decorate net sched block = (p, true) /\
      content p = Markup "" [mkElem "div" "products-title" [] "<h2>Your card options</h2>" [];
                             mkElem "ul" "" [] "" cards] /\
      content p <> Markup ("<p class=" ++ q "products-error"
                           ++ ">Failed to load products. Please try again later.</p>") [] /\
      List.length cards = List.length (itemsOf block) /\
      forall i it, nth_error (itemsOf block) i = Some it ->
        exists card,
          nth_error cards i = Some card /\
          (forall msg, fetchFails (outcomeOf net i it) msg ->
             card = mkElem "li" "product-card product-error" []
                      (V2.fallbackHTML (productName it)) []) /\
          match fetched (outcomeOf net i it) with
          | inl _ =>
              card = mkElem "li" "product-card product-error" []
                       (V2.fallbackHTML (productName it)) []
          | inr fragmentData =>
              exists rendered attrs,
                returns (V2.createProductCard (productName it) fragmentData) rendered /\
                card = withAttributes attrs rendered
          end).
Proof.
  intros Hcov Hne. split.
  - destruct (decorate_rendered_v1 net sched block Hcov Hne)
      as (p & cards & Hrun & Hcontent & Hlen & _ & Hcards).
    exists p, cards. split; [exact Hrun|]. split; [exact Hcontent|].
    split; [rewrite Hcontent; discriminate|]. split; [exact Hlen|].
    intros i it Hit.
    destruct (nth_error cards i) as [card|] eqn:Hcard;
      [|apply nth_error_None in Hcard;
        assert (i < List.length (itemsOf block)) by (apply nth_error_Some; congruence); lia].
    exists card. split; [reflexivity|].
    specialize (Hcards i card Hcard). unfold cardDone in Hcards. rewrite Hit in Hcards.
    destruct Hcards as (_ & Hdone). split.
    + intros msg Hfail. rewrite (fetchFails_fetched _ _ Hfail) in Hdone.
      destruct Hdone as (Hret & _).
      apply (returns_unique _ _ _ Hret (fallback_returns_v1 (productName it))).
    + destruct (fetched (outcomeOf net i it)) as [e|fd].
      * destruct Hdone as (Hret & _).
        apply (returns_unique _ _ _ Hret (fallback_returns_v1 (productName it))).
      * destruct Hdone as (rendered & attrs & Hret & -> & _). eauto.
  - destruct (decorate_rendered_v2 net sched block Hcov Hne)
      as (p & cards & Hrun & Hcontent & _ & Hlen & _ & Hcards).
    exists p, cards. split; [exact Hrun|]. split; [exact Hcontent|].
    split; [rewrite Hcontent; discriminate|]. split; [exact Hlen|].
    intros i it Hit.
    destruct (nth_error cards i) as [card|] eqn:Hcard;
      [|apply nth_error_None in Hcard;
        assert (i < List.length (itemsOf block)) by (apply nth_error_Some; congruence); lia].
    exists card. split; [reflexivity|].
    specialize (Hcards i card Hcard). unfold cardDone in Hcards. rewrite Hit in Hcards.
    destruct Hcards as (_ & Hdone). split.
    + intros msg Hfail. rewrite (fetchFails_fetched _ _ Hfail) in Hdone.
      destruct Hdone as (Hret & _).
      apply (returns_unique _ _ _ Hret (fallback_returns_v2 (productName it))).
    + destruct (fetched (outcomeOf net i it)) as [e|fd].
      * destruct Hdone as (Hret & _).
        apply (returns_unique _ _ _ Hret (fallback_returns_v2 (productName it))).
      * destruct Hdone as (rendered & attrs & Hret & -> & _). eauto.
Qed.

(** C9, as the code has it.  Under a schedule that lets every callback
    finish, the callback of an item whose fetcher returned (a record or
    nothing) calls [moveInstrumentation] exactly once, on the card it has
    rendered, which is the card of that item up to the attributes the call
    gave it; the callback of an item whose fetch failed does not call it;
    and [decorate] itself never calls it. *)
Theorem moveInstrumentation_once_unless_fetch_failed (sched : list nat) (block : Block) :
  covers (List.length (itemsOf block)) sched = true ->
  itemsOf block <> [] ->
  (exists p cards,
      V1.decorate net sched block = (p, true) /\
      content p = Markup "" [mkElem "ul" "products-list" [] "" cards] /\
      moves (eventsOf Main p) = [] /\
      forall i it, nth_error (itemsOf block) i = Some it ->
        match fetched (outcomeOf net i it) with
        | inl _ => moves (eventsOf (Item i) p) = []
        | inr fragmentData =>
            exists rendered attrs,
              returns (V1.createProductCard (productName it) fragmentData) rendered /\
              moves (eventsOf (Item i) p) = [EvMoveInstrumentation rendered] /\
              nth_error cards i = Some (withAttributes attrs rendered)
        end) /\
  (exists p cards,
      V2.decorate net sched block = (p, true) /\
      content p = Markup "" [mkElem "div" "products-title" [] "<h2>Your card options</h2>" [];
                             mkElem "ul" "" [] "" cards] /\
      moves (eventsOf Main p) = [] /\
      forall i it, nth_error (itemsOf block) i = Some it ->
        match fetched (outcomeOf net i it) with
        | inl _ => moves (eventsOf (Item i) p) = []
        | inr fragmentData =>
            exists rendered attrs,
              returns (V2.createProductCard (productName it) fragmentData) rendered /\
              moves (eventsOf (Item i) p) = [EvMoveInstrumentation rendered] /\
              nth_error cards i = Some (withAttributes attrs rendered)
        end).
Proof.
  intros Hcov Hne. split.
  - destruct (decorate_rendered_v1 net sched block Hcov Hne)
      as (p & cards & Hrun & Hcontent & Hlen & Hmain & Hcards).
    exists p, cards. repeat (split; [assumption|]).
    intros i it Hit.
    destruct (nth_error cards i) as [card|] eqn:Hcard;
      [|apply nth_error_None in Hcard;
        assert (i < List.length (itemsOf block)) by (apply nth_error_Some; congruence); lia].
    specialize (Hcards i card Hcard). unfold cardDone in Hcards. rewrite Hit in Hcards.
    destruct Hcards as (_ & Hdone).
    destruct (fetched (outcomeOf net i it)) as [e|fd].
    + apply Hdone.
    + destruct Hdone as (rendered & attrs & Hret & -> & Hmoves). eauto.
  - destruct (decorate_rendered_v2 net sched block Hcov Hne)
      as (p & cards & Hrun & Hcontent & _ & Hlen & Hmain & Hcards).
    exists p, cards. repeat (split; [assumption|]).
    intros i it Hit.
    destruct (nth_error cards i) as [card|] eqn:Hcard;
      [|apply nth_error_None in Hcard;
        assert (i < List.length (itemsOf block)) by (apply nth_error_Some; congruence); lia].
    specialize (Hcards i card Hcard). unfold cardDone in Hcards. rewrite Hit in Hcards.
    destruct Hcards as (_ & Hdone).
    destruct (fetched (outcomeOf net i it)) as [e|fd].
    + apply Hdone.
    + destruct Hdone as (rendered & attrs & Hret & -> & Hmoves). eauto.
Qed.

(** C10.  For a block with items and any schedule that lets every
    callback finish, whatever the order in which it lets the fetches
    settle, the list in the block has one card per item, in the order of
    the items: the i-th card has the tag, class and markup of the card
    rendered for the i-th item from what its fetch gave. *)
Theorem one_card_per_item_in_order (sched : list nat) (block : Block) :
  covers (List.length (itemsOf block)) sched = true ->
  itemsOf block <> [] ->
  (exists p cards,
      V1.decorate net sched block = (p, true) /\
      content p = Markup "" [mkElem "ul" "products-list" [] "" cards] /\
      List.length cards = List.length (itemsOf block) /\
      forall i it, nth_error (itemsOf block) i = Some it ->
        exists card rendered,
          nth_error cards i = Some card /\
          returns (V1.createProductCard (productName it) (recordOf (outcomeOf net i it)))
            rendered /\
          tag card = "li" /\ className card = className rendered /\
          innerHTML card = innerHTML rendered /\ appended card = []) /\
  (exists p cards,
      V2.decorate net sched block = (p, true) /\
      content p = Markup "" [mkElem "div" "products-title" [] "<h2>Your card options</h2>" [];
                             mkElem "ul" "" [] "" cards] /\
      List.length cards = List.length (itemsOf block) /\
      forall i it, nth_error (itemsOf block) i = Some it ->
        exists card rendered,
          nth_error cards i = Some card /\
          returns (V2.createProductCard (productName it) (recordOf (outcomeOf net i it)))
            rendered /\
          tag card = "li" /\ className card = className rendered /\
          innerHTML card = innerHTML rendered /\ appended card = []).
Proof.
  intros Hcov Hne. split.
  - destruct (decorate_rendered_v1 net sched block Hcov Hne)
      as (p & cards & Hrun & Hcontent & Hlen & _ & Hcards).
    exists p, cards. repeat (split; [assumption|]).
    intros i it Hit.
    destruct (nth_error cards i) as [card|] eqn:Hcard;
      [|apply nth_error_None in Hcard;
        assert (i < List.length (itemsOf block)) by (apply nth_error_Some; congruence); lia].
    specialize (Hcards i card Hcard). unfold cardDone in Hcards. rewrite Hit in Hcards.
    destruct Hcards as (_ & Hdone). unfold recordOf.
    destruct (fetched (outcomeOf net i it)) as [e|fd].
    + destruct Hdone as (Hret & _). exists card, card.
      destruct (createProductCard_returns_v1 (productName it) None) as (c & Hc & Htag).
      rewrite (returns_unique _ _ _ Hret Hc) in *.
      pose proof (returns_unique _ _ _ Hc (fallback_returns_v1 (productName it))) as ->.
      auto 8.
    + destruct Hdone as (rendered & attrs & Hret & -> & _).
      exists (withAttributes attrs rendered), rendered.
      destruct (createProductCard_returns_v1 (productName it) fd) as (c & Hc & Htag).
      rewrite (returns_unique _ _ _ Hret Hc) in *.
      split; [reflexivity|]. split; [exact Hc|]. split; [exact Htag|].
      split; [reflexivity|]. split; [reflexivity|].
      apply (appended_rendered_v1 _ _ _ Hc).
  - destruct (decorate_rendered_v2 net sched block Hcov Hne)
      as (p & cards & Hrun & Hcontent & _ & Hlen & _ & Hcards).
    exists p, cards. repeat (split; [assumption|]).
    intros i it Hit.
    destruct (nth_error cards i) as [card|] eqn:Hcard;
      [|apply nth_error_None in Hcard;
        assert (i < List.length (itemsOf block)) by (apply nth_error_Some; congruence); lia].
    specialize (Hcards i card Hcard). unfold cardDone in Hcards. rewrite Hit in Hcards.
    destruct Hcards as (_ & Hdone). unfold recordOf.
    destruct (fetched (outcomeOf net i it)) as [e|fd].
    + destruct Hdone as (Hret & _). exists card, card.
      destruct (createProductCard_returns_v2 (productName it) None) as (c & Hc & Htag).
      rewrite (returns_unique _ _ _ Hret Hc) in *.
      pose proof (returns_unique _ _ _ Hc (fallback_returns_v2 (productName it))) as ->.
      auto 8.
    + destruct Hdone as (rendered & attrs & Hret & -> & _).
      exists (withAttributes attrs rendered), rendered.
      destruct (createProductCard_returns_v2 (productName it) fd) as (c & Hc & Htag).
      rewrite (returns_unique _ _ _ Hret Hc) in *.
      split; [reflexivity|]. split; [exact Hc|]. split; [exact Htag|].
      split; [reflexivity|]. split; [reflexivity|].
      apply (appended_rendered_v2 _ _ _ Hc).
Qed.
End Claims.

(** ** Counterexamples and instances *)

(** C8, counterexample.  For a fragment path with a space the fetcher
    requests the URL that ends with the path as given, which is not the URL
    that ends with the URL-encoded path. *)
Lemma fetcher_does_not_urlencode :
  requests (fst (run (host := sampleHost) sampleNet Main
                   (getProductDataByContentPath "/content/dam/my card")
                   (pageOf sampleBlock)))
  = [(Main, EvFetch (AEM_AUTHOR_URL ++ GRAPHQL_ENDPOINT ++ "/content/dam/my card")
              {| credentials := "include" |})] /\
  urlencode "/content/dam/my card" = "%2Fcontent%2Fdam%2Fmy%20card" /\
  AEM_AUTHOR_URL ++ GRAPHQL_ENDPOINT ++ "/content/dam/my card"
  <> AEM_AUTHOR_URL ++ GRAPHQL_ENDPOINT ++ urlencode "/content/dam/my card".
Proof.
  split; [vm_compute; reflexivity|]. split; [vm_compute; reflexivity|].
  apply String.eqb_neq. vm_compute. reflexivity.
Qed.

(** C9, counterexample.  For a block with one row whose request is
    rejected, [decorate] renders one card, the fallback card, and no call of
    [moveInstrumentation] is made at all. *)
Lemma fallback_card_without_moveInstrumentation :
  (let done := V1.decorate (host := sampleHost) sampleNet [0; 0; 0] oneRowBlock in
   snd done = true /\
   content (fst done)
   = Markup "" [mkElem "ul" "products-list" [] ""
                  [mkElem "li" "products-card" [] (V1.fallbackHTML "Card A") []]] /\
   moves (map snd (trace (fst done))) = []) /\
  (let done := V2.decorate (host := sampleHost) sampleNet [0; 0; 0] oneRowBlock in
   snd done = true /\
   content (fst done)
   = Markup "" [mkElem "div" "products-title" [] "<h2>Your card options</h2>" [];
                mkElem "ul" "" [] ""
                  [mkElem "li" "product-card product-error" [] (V2.fallbackHTML "Card A") []]] /\
   moves (map snd (trace (fst done))) = []).
Proof. repeat split; vm_compute; reflexivity. Qed.

Lemma fetcher_fails_on_bad_status_or_network_witness :
  fetchFails (net404 Main (requestUrl "/content/dam/a") requestOptions)
    "HTTP error! status: 404 - Not Found" /\
  snd (run (host := sampleHost) net404 Main (getProductDataByContentPath "/content/dam/a")
         (pageOf sampleBlock))
  = inl (Error "Failed to fetch GraphQL Data: HTTP error! status: 404 - Not Found").
Proof.
  assert (H : fetchFails (net404 Main (requestUrl "/content/dam/a") requestOptions)
                "HTTP error! status: 404 - Not Found")
    by (apply (bad_status (respond 404 "Not Found" (inr None))); reflexivity).
  split; [exact H|].
  exact (fetcher_fails_on_bad_status_or_network (host := sampleHost) net404 Main
           "/content/dam/a" (pageOf sampleBlock) _ H).
Defined.

Lemma fetcher_no_record_when_item_missing_witness :
  snd (run (host := sampleHost) netEmptyData Main
         (getProductDataByContentPath "/content/dam/a") (pageOf sampleBlock))
  = inr None.
Proof.
  apply (fetcher_no_record_when_item_missing (host := sampleHost) netEmptyData Main
           "/content/dam/a" (pageOf sampleBlock) _ _ eq_refl eq_refl eq_refl eq_refl).
Defined.

Lemma failed_fetch_gives_fallback_card_witness :
  covers (List.length (itemsOf sampleBlock)) sampleSchedule = true /\
  itemsOf sampleBlock <> [] /\
  exists p, V1.decorate (host := sampleHost) sampleNet sampleSchedule sampleBlock = (p, true).
Proof.
  assert (Hcov : covers (List.length (itemsOf sampleBlock)) sampleSchedule = true)
    by reflexivity.
  assert (Hne : itemsOf sampleBlock <> []) by (vm_compute; discriminate).
  split; [exact Hcov|]. split; [exact Hne|].
  destruct (failed_fetch_gives_fallback_card (host := sampleHost) sampleNet sampleSchedule
              sampleBlock Hcov Hne) as [(p & cards & Hrun & _) _].
  exists p. exact Hrun.
Defined.

Lemma moveInstrumentation_once_unless_fetch_failed_witness :
  covers (List.length (itemsOf sampleBlock)) sampleSchedule = true /\
  itemsOf sampleBlock <> [] /\
  exists p,
    V1.decorate (host := sampleHost) sampleNet sampleSchedule sampleBlock = (p, true) /\
    moves (eventsOf Main p) = [].
Proof.
  assert (Hcov : covers (List.length (itemsOf sampleBlock)) sampleSchedule = true)
    by reflexivity.
  assert (Hne : itemsOf sampleBlock <> []) by (vm_compute; discriminate).
  split; [exact Hcov|]. split; [exact Hne|].
  destruct (moveInstrumentation_once_unless_fetch_failed (host := sampleHost) sampleNet
              sampleSchedule sampleBlock Hcov Hne) as [(p & cards & Hrun & _ & Hmain & _) _].
  exists p. split; assumption.
Defined.

Lemma one_card_per_item_in_order_witness :
  covers (List.length (itemsOf sampleBlock)) sampleSchedule = true /\
  itemsOf sampleBlock <> [] /\
  exists p cards,
    V2.decorate (host := sampleHost) sampleNet sampleSchedule sampleBlock = (p, true) /\
    content p = Markup "" [mkElem "div" "products-title" [] "<h2>Your card options</h2>" [];
                           mkElem "ul" "" [] "" cards] /\
    List.length cards = List.length (itemsOf sampleBlock).
Proof.
  assert (Hcov : covers (List.length (itemsOf sampleBlock)) sampleSchedule = true)
    by reflexivity.
  assert (Hne : itemsOf sampleBlock <> []) by (vm_compute; discriminate).
  split; [exact Hcov|]. split; [exact Hne|].
  destruct (one_card_per_item_in_order (host := sampleHost) sampleNet sampleSchedule
              sampleBlock Hcov Hne) as [_ (p & cards & Hrun & Hcontent & Hlen & _)].
  exists p, cards. repeat split; assumption.
Defined.

(** * Further properties *)

(** ** The fetcher *)

Section FetcherMore.
Context {host : Host}.
Variable net : Network.

(** X1.  When the response is ok and its parsed body has the nested item,
    the fetcher returns that item. *)
Theorem fetcher_returns_nested_item (who : Actor) (contentPath : string) (p : Page)
  (r : Response) (cf : option GraphQLBody) (d : ProductRecord) :
  net who (requestUrl contentPath) requestOptions = Fulfilled r ->
  ok r = true ->
  json r = inr cf ->
  cf ?. data ?. productCreditCardModelByPath ?. item = Some d ->
  snd (run net who (getProductDataByContentPath contentPath) p) = inr (Some d).
Proof.
  intros Hnet Hok Hjson Hitem. rewrite fetched_run, Hnet. cbn [fetched].
  now rewrite Hok, Hjson, Hitem.
Qed.

(** X2.  When the response is ok but its body is not JSON, the fetcher
    throws an Error that carries the message of the parse error. *)
Theorem fetcher_fails_on_invalid_json (who : Actor) (contentPath : string) (p : Page)
  (r : Response) (e : JsError) :
  net who (requestUrl contentPath) requestOptions = Fulfilled r ->
  ok r = true ->
  json r = inl e ->
  snd (run net who (getProductDataByContentPath contentPath) p)
  = inl (Error ("Failed to fetch GraphQL Data: " ++ message e)).
Proof.
  intros Hnet Hok Hjson. rewrite fetched_run, Hnet. cbn [fetched].
  now rewrite Hok, Hjson.
Qed.
End FetcherMore.

Lemma fetcher_returns_nested_item_witness :
  snd (run (host := sampleHost) netRecord Main
         (getProductDataByContentPath "/content/dam/a") (pageOf sampleBlock))
  = inr (Some sampleRecord).
Proof.
  apply (fetcher_returns_nested_item (host := sampleHost) netRecord Main "/content/dam/a"
           (pageOf sampleBlock) _ _ sampleRecord eq_refl eq_refl eq_refl eq_refl).
Defined.

Lemma fetcher_fails_on_invalid_json_witness :
  snd (run (host := sampleHost) netBadJson Main
         (getProductDataByContentPath "/content/dam/a") (pageOf sampleBlock))
  = inl (Error "Failed to fetch GraphQL Data: Unexpected token <").
Proof.
  apply (fetcher_fails_on_invalid_json (host := sampleHost) netBadJson Main "/content/dam/a"
           (pageOf sampleBlock) _ _ eq_refl eq_refl eq_refl).
Defined.

(** ** The parser *)

Lemma trimEnd_idempotent (s : string) : trimEnd (trimEnd s) = trimEnd s.
Proof.
  induction s as [|c s IH]; [reflexivity|]. cbn [trimEnd].
  destruct (isWhiteSpace c && negb (truthy (trimEnd s))) eqn:E; [reflexivity|].
  cbn [trimEnd]. now rewrite IH, E.
Qed.

Lemma trimStart_head (s : string) :
  trimStart s = "" \/ exists c t, trimStart s = String c t /\ isWhiteSpace c = false.
Proof.
  induction s as [|c s IH]; [now left|]. cbn [trimStart].
  destruct (isWhiteSpace c) eqn:E; [exact IH|]. right. eauto.
Qed.

(** Trimming twice is trimming once. *)
Lemma trim_idempotent (s : string) : trim (trim s) = trim s.
Proof.
  unfold trim. destruct (trimStart_head s) as [-> | (c & t & -> & Hc)]; [reflexivity|].
  cbn [trimEnd]. rewrite Hc. cbn [andb trimStart]. rewrite Hc.
  cbn [trimEnd]. rewrite Hc. cbn [andb]. now rewrite trimEnd_idempotent.
Qed.

Lemma rowItem_paths (row : Node) (it : ProductItem) :
  In it (rowItem row) ->
  fragmentPath it <> "" /\ trimmed (fragmentPath it) /\ trimmed (productName it).
Proof.
  unfold rowItem. destruct (children row) as [|c0 [|c1 rest]]; try contradiction.
  destruct (truthy (trim (textContent c1))) eqn:E; [|contradiction].
  intros [<- | []]. cbn. repeat split; try apply trim_idempotent.
  intros H. now rewrite H in E.
Qed.

Section ParserMore.
Context {host : Host}.
Variable net : Network.

(** X3.  Every item the parser returns has a fragment path that is not
    empty, and its path and name have no white space at either end. *)
Theorem parsed_items_have_trimmed_paths (who : Actor) (block : Block) (p : Page) :
  exists items,
    snd (run net who (parseProductItems block) p) = inr items /\
    Forall (fun it => fragmentPath it <> "" /\ trimmed (fragmentPath it)
                      /\ trimmed (productName it)) items.
Proof.
  exists (itemsOf block).
  destruct (returns_run net who _ _ p (parseProductItems_returns block)) as (p' & ->).
  split; [reflexivity|].
  apply Forall_forall. intros it Hin. unfold itemsOf in Hin.
  apply in_flat_map in Hin as (row & _ & Hin). now apply rowItem_paths in Hin.
Qed.
End ParserMore.

Lemma parseRow_one_line (row : Node) (index : nat) (items : list ProductItem) :
  exists msg,
    parseRow row index items
    = Log (if qualifies row then info else warn) msg (Return (items ++ rowItem row)%list).
Proof.
  unfold parseRow, rowItem, qualifies, cellText.
  destruct (children row) as [|c0 [|c1 rest]]; cbn [List.length Nat.leb nth_error option_map];
    try (rewrite app_nil_r; eexists; reflexivity).
  cbn [orDefault]. rewrite !orElse_empty.
  destruct (truthy (trim (textContent c1))); [|rewrite app_nil_r]; eexists; reflexivity.
Qed.

Lemma forEach_parseRow_lines (rows : list Node) :
  forall (index : nat) (items : list ProductItem),
  exists lines,
    forEach rows parseRow index items
    = logs lines (Return (items ++ flat_map rowItem rows)%list) /\
    map fst lines = rowLevels rows.
Proof.
  induction rows as [|row rows IH]; intros index items; cbn [forEach flat_map].
  - exists []. now rewrite app_nil_r.
  - destruct (parseRow_one_line row index items) as (msg & ->).
    destruct (IH (S index) (items ++ rowItem row)%list) as (lines & Hl & Hlv).
    exists ((if qualifies row then info else warn, msg) :: lines).
    cbn [bind logs map fst rowLevels]. rewrite Hl, app_assoc. split; [reflexivity|].
    f_equal. exact Hlv.
Qed.

(** X4.  All the parser does is write to the console: an opening info
    line, then one line per row, info for a row that gives an item and warn
    for a row that is skipped, then a closing info line; after that it
    returns the items. *)
Theorem parser_logs_one_line_per_row (block : Block) :
  exists lines items,
    parseProductItems block = logs lines (Return items) /\
    map fst lines
    = (info :: rowLevels (filter isElement (blockChildNodes block)) ++ [info])%list /\
    items = itemsOf block.
Proof.
  unfold parseProductItems. cbn [bind log].
  destruct (forEach_parseRow_lines (filter isElement (blockChildNodes block)) 0 [])
    as (lines & Hl & Hlv).
  rewrite Hl, bind_logs. cbn [bind app].
  eexists ((info, _) :: lines ++ [(info, _)])%list, (itemsOf block).
  split; [|split; [|reflexivity]].
  - cbn [logs]. rewrite logs_app. reflexivity.
  - cbn [map fst]. now rewrite map_app, Hlv.
Qed.

(** ** The text formatting *)

Lemma prefix_empty (s : string) : prefix "" s = true.
Proof. now destruct s. Qed.

Lemma includes_char_cons (c a : ascii) (s : string) :
  includes (String c "") (String a s) = Ascii.eqb c a || includes (String c "") s.
Proof.
  cbn [includes prefix]. destruct (ascii_dec c a) as [-> | Hne].
  - now rewrite prefix_empty, Ascii.eqb_refl.
  - apply Ascii.eqb_neq in Hne. now rewrite Hne.
Qed.

Lemma includes_char_app (c : ascii) (a b : string) :
  includes (String c "") (a ++ b) = includes (String c "") a || includes (String c "") b.
Proof.
  induction a as [|x a IH].
  - cbn [append]. destruct b; reflexivity.
  - cbn [append]. now rewrite !includes_char_cons, IH, orb_assoc.
Qed.

(** After every occurrence of a character has been replaced by a string
    without it, the character is gone. *)
Lemma replaceAll_char_gone (c : ascii) (rep s : string) :
  includes (String c "") rep = false ->
  includes (String c "") (replaceAll (String c "") rep s) = false.
Proof.
  intros Hrep. unfold replaceAll. induction s as [|a s IH]; [reflexivity|].
  cbn [replaceFrom prefix String.length Nat.sub].
  destruct (ascii_dec c a) as [<- | Hne].
  - rewrite prefix_empty, includes_char_app, Hrep. exact IH.
  - rewrite includes_char_cons, IH. apply Ascii.eqb_neq in Hne. now rewrite Hne.
Qed.

(** A pattern whose first character is not in the string matches nowhere. *)
Lemma replaceAll_absent (c : ascii) (pat rep s : string) :
  includes (String c "") s = false -> replaceAll (String c pat) rep s = s.
Proof.
  unfold replaceAll. induction s as [|a s IH]; [reflexivity|].
  rewrite includes_char_cons. intros H. apply orb_false_iff in H as [Hca Hs].
  cbn [replaceFrom prefix]. destruct (ascii_dec c a) as [-> | _].
  - now rewrite Ascii.eqb_refl in Hca.
  - now rewrite IH.
Qed.

Lemma trimStart_keeps_absent (c : ascii) (s : string) :
  includes (String c "") s = false -> includes (String c "") (trimStart s) = false.
Proof.
  induction s as [|a s IH]; [reflexivity|]. cbn [trimStart].
  destruct (isWhiteSpace a); [|auto].
  rewrite includes_char_cons. intros H. apply orb_false_iff in H as [_ Hs]. auto.
Qed.

Lemma trimEnd_keeps_absent (c : ascii) (s : string) :
  includes (String c "") s = false -> includes (String c "") (trimEnd s) = false.
Proof.
  induction s as [|a s IH]; [reflexivity|]. cbn [trimEnd].
  rewrite includes_char_cons. intros H. apply orb_false_iff in H as [Hca Hs].
  destruct (isWhiteSpace a && negb (truthy (trimEnd s))); [reflexivity|].
  now rewrite includes_char_cons, Hca, IH.
Qed.

Lemma replaceFrom_skip_one (pat rep : string) (c : ascii) (s : string) :
  replaceFrom pat rep 1 (String c s) = replaceFrom pat rep 0 s.
Proof. reflexivity. Qed.

(** Replacing a character is a homomorphism for concatenation. *)
Lemma replaceAll_char_app (c : ascii) (rep a b : string) :
  replaceAll (String c "") rep (a ++ b)
  = replaceAll (String c "") rep a ++ replaceAll (String c "") rep b.
Proof.
  unfold replaceAll. induction a as [|x a IH]; [reflexivity|].
  cbn [append replaceFrom prefix String.length Nat.sub].
  destruct (ascii_dec c x) as [<- | Hne].
  - rewrite !prefix_empty, IH. now rewrite append_assoc.
  - now rewrite IH.
Qed.

Lemma paragraphs_step (rep : string) (s : string) :
  replaceFrom (nl ++ nl) rep 0 (String LF (String LF s))
  = rep ++ replaceFrom (nl ++ nl) rep 0 s.
Proof.
  cbn [replaceFrom prefix nl append String.length Nat.sub].
  destruct (ascii_dec LF LF) as [_|H]; [|congruence].
  now rewrite prefix_empty.
Qed.

Lemma paragraphs_single (rep : string) (c : ascii) (s : string) :
  Ascii.eqb c LF = false ->
  replaceFrom (nl ++ nl) rep 0 (String LF (String c s))
  = String LF (replaceFrom (nl ++ nl) rep 0 (String c s)).
Proof.
  intros Hc. cbn [replaceFrom prefix nl append].
  destruct (ascii_dec LF LF) as [_|H]; [|congruence].
  destruct (ascii_dec LF c) as [<- | _]; [now rewrite Ascii.eqb_refl in Hc|].
  reflexivity.
Qed.

Lemma paragraphs_other (rep : string) (c : ascii) (s : string) :
  Ascii.eqb c LF = false ->
  replaceFrom (nl ++ nl) rep 0 (String c s)
  = String c (replaceFrom (nl ++ nl) rep 0 s).
Proof.
  intros Hc. cbn [replaceFrom prefix nl append].
  destruct (ascii_dec LF c) as [<- | _]; [now rewrite Ascii.eqb_refl in Hc|].
  reflexivity.
Qed.

(** The two replacements of the first revision, one after the other, are
    the reading from left to right. *)
Lemma two_passes_are_breaks (s : string) :
  replaceAll nl "<br>" (replaceAll (nl ++ nl) "</p><p>" s) = breaks s.
Proof.
  change (replaceAll (nl ++ nl) "</p><p>" s) with (replaceFrom (nl ++ nl) "</p><p>" 0 s).
  assert (H : forall n s, String.length s <= n ->
                          replaceAll nl "<br>" (replaceFrom (nl ++ nl) "</p><p>" 0 s)
                          = breaks s).
  { clear s. induction n as [|n IH]; intros s Hlen.
    - destruct s; [reflexivity | cbn in Hlen; lia].
    - destruct s as [|c s]; [reflexivity|]. cbn [String.length] in Hlen.
      cbn [breaks]. destruct (Ascii.eqb c LF) eqn:Hc.
      + apply Ascii.eqb_eq in Hc. subst c.
        destruct s as [|c' s]; [reflexivity|]. cbn [String.length] in Hlen.
        destruct (Ascii.eqb c' LF) eqn:Hc'.
        * apply Ascii.eqb_eq in Hc'. subst c'.
          rewrite paragraphs_step. unfold nl at 1. rewrite replaceAll_char_app.
          fold nl. rewrite IH by lia. reflexivity.
        * rewrite (paragraphs_single _ _ _ Hc').
          change (String LF ?x) with (nl ++ x). unfold nl at 1.
          rewrite replaceAll_char_app. fold nl. rewrite IH by (cbn; lia).
          cbn [breaks]. rewrite Hc'. reflexivity.
      + rewrite (paragraphs_other _ _ _ Hc).
        change (String c ?x) with (String c "" ++ x). unfold nl at 1.
        rewrite replaceAll_char_app. fold nl. rewrite IH by lia.
        unfold replaceAll, nl. cbn [replaceFrom prefix].
        destruct (ascii_dec LF c) as [<- | _]; [now rewrite Ascii.eqb_refl in Hc|].
        reflexivity. }
  apply (H (String.length s)). lia.
Qed.

(** X5.  In the first revision [formatText] returns the text read from
    left to right with every two adjacent line feeds turned into a paragraph
    break and every other line feed into a [br], trimmed; its result holds
    no line feed. *)
Theorem formatText_converts_every_line_break (text : string) :
  V1.formatText text = trim (breaks text) /\
  includes nl (V1.formatText text) = false.
Proof.
  assert (H : V1.formatText text = trim (breaks text)).
  { unfold V1.formatText. destruct (truthy text) eqn:E; [|now destruct text].
    cbn [negb]. now rewrite (replaceAll_same_char ">"%char), two_passes_are_breaks. }
  split; [exact H|].
  unfold V1.formatText. destruct (truthy text); [|reflexivity]. cbn [negb].
  rewrite (replaceAll_same_char ">"%char). unfold trim, nl.
  apply trimEnd_keeps_absent, trimStart_keeps_absent, replaceAll_char_gone.
  vm_compute. reflexivity.
Qed.

(** X6.  A text without a line break goes through the formatting of both
    revisions unchanged but for the trimming: no character of it is escaped
    or decoded. *)
Theorem formatText_only_trims_single_line (text : string) :
  includes nl text = false ->
  V1.formatText text = trim text /\ V2.formatText text = trim text.
Proof.
  intros H. split; [|apply formatText_v2].
  unfold V1.formatText. destruct (truthy text) eqn:E; [|now destruct text].
  cbn [negb]. rewrite (replaceAll_same_char ">"%char). unfold nl in *.
  cbn [append]. now rewrite (replaceAll_absent LF _ _ text H), (replaceAll_absent LF "" _ text H).
Qed.

Lemma formatText_only_trims_single_line_witness :
  includes nl " <b>Fees & charges</b> > 0 " = false /\
  V1.formatText " <b>Fees & charges</b> > 0 " = "<b>Fees & charges</b> > 0" /\
  V2.formatText " <b>Fees & charges</b> > 0 " = "<b>Fees & charges</b> > 0".
Proof.
  split; [reflexivity|].
  apply (formatText_only_trims_single_line " <b>Fees & charges</b> > 0 "). reflexivity.
Defined.

(** ** The image block and the title *)

Lemma descriptionBlock_v2 (t : string) :
  V2.textBlock "product-description" V2.formatText t = descriptionBlock2 t.
Proof.
  unfold V2.textBlock, descriptionBlock2. rewrite truthy_eqb.
  destruct (String.eqb t ""); cbn [negb]; now rewrite ?formatText_v2.
Qed.

Lemma promoBlock_v2 (t : string) :
  V2.textBlock "product-promo" V2.formatPromoContent t = promoBlock2 t.
Proof.
  unfold V2.textBlock, promoBlock2. rewrite truthy_eqb.
  destruct (String.eqb t "") eqn:E; cbn [negb]; [reflexivity|].
  rewrite formatPromoContent_v2; [reflexivity | now rewrite truthy_eqb, E].
Qed.

Lemma notesBlock_v2 (t : string) :
  V2.textBlock "product-notes" V2.formatNotesContent t = notesBlock2 t.
Proof.
  unfold V2.textBlock, notesBlock2. rewrite truthy_eqb.
  destruct (String.eqb t "") eqn:E; cbn [negb]; [reflexivity|].
  rewrite formatNotesContent_v2; [reflexivity | now rewrite truthy_eqb, E].
Qed.

Section RendererMore.
Context {host : Host}.

(** The image block of the first revision, as the code computes it. *)
Lemma card_image_v1 (n : string) (d : ProductRecord) :
  exists card,
    returns (V1.createProductCard n (Some d)) card /\
    innerHTML card
    = indent 4
      ++ imageBlock "products-card-image" [("style", "width: 100%; height: auto;")] d
      ++ indent 4 ++ "<div class=" ++ q "products-card-body" ++ ">"
      ++ indent 6 ++ "<h3 class=" ++ q "products-card-title" ++ ">"
      ++ V1.cardTitle n d ++ "</h3>"
      ++ indent 6 ++ V1.textBlock "products-card-description"
                       (orDefault (creditCardDescription d ?. plaintext) "")
      ++ indent 6 ++ V1.textBlock "products-card-promo"
                       (orDefault (promo d ?. plaintext) "")
      ++ indent 6 ++ V1.textBlock "products-card-notes"
                       (orDefault (notes d ?. plaintext) "")
      ++ indent 4 ++ "</div>"
      ++ indent 2.
Proof.
  assert (Halt : orDefault (creditCardName d) "Credit Card"
                 = match creditCardName d with
                   | Some (String c' n) => String c' n
                   | _ => "Credit Card"
                   end)
    by (destruct (creditCardName d) as [[|c' n']|]; reflexivity).
  unfold V1.createProductCard, imageBlock.
  destruct (creditCardImage d) as [[[[|c u]|]]|]; cbn [chain _authorUrl orDefault orElse truthy];
    eexists; (split; [returns_tac|]); cbn [innerHTML withInnerHTML app];
    rewrite ?Halt; reflexivity.
Qed.

Lemma card_image_v2 (n : string) (d : ProductRecord) :
  exists card,
    returns (V2.createProductCard n (Some d)) card /\
    innerHTML card
    = indent 4 ++ imageBlock "product-card-image" [] d
      ++ indent 4 ++ "<div class=" ++ q "product-card-body" ++ ">"
      ++ indent 6 ++ "<h3 class=" ++ q "product-title" ++ ">"
      ++ V2.cardTitle n d ++ "</h3>"
      ++ indent 6 ++ V2.textBlock "product-description" V2.formatText
                       (orDefault (creditCardDescription d ?. plaintext) "")
      ++ indent 6 ++ V2.textBlock "product-promo" V2.formatPromoContent
                       (orDefault (promo d ?. plaintext) "")
      ++ indent 6 ++ V2.textBlock "product-notes" V2.formatNotesContent
                       (orDefault (notes d ?. plaintext) "")
      ++ indent 6 ++ "<div class=" ++ q "product-cta" ++ ">"
      ++ indent 8 ++ "<a href=" ++ q "#" ++ " class=" ++ q "product-cta-button"
      ++ ">Find out more</a>"
      ++ indent 6 ++ "</div>"
      ++ indent 4 ++ "</div>"
      ++ indent 2.
Proof.
  assert (Halt : orDefault (creditCardName d) "Credit Card"
                 = match creditCardName d with
                   | Some (String c' n) => String c' n
                   | _ => "Credit Card"
                   end)
    by (destruct (creditCardName d) as [[|c' n']|]; reflexivity).
  unfold V2.createProductCard, imageBlock.
  destruct (creditCardImage d) as [[[[|c u]|]]|]; cbn [chain _authorUrl orDefault orElse truthy];
    eexists; (split; [returns_tac|]); cbn [innerHTML withInnerHTML app];
    rewrite ?Halt; reflexivity.
Qed.

(** X7.  The whole markup of the card of a record.  It is the image block,
    then the body with the title and the three text blocks (and the link of
    the second revision), and nothing else.  The image block is there
    when the record has an image with a non-empty author URL, and is the
    empty string otherwise; the image then has that URL as source, the
    record's name or else the literal Credit Card as alternative text, and
    lazy loading (and a fixed style in the first revision); the given
    product name is not used for it. *)
Theorem card_image_only_with_author_url (productName : string) (d : ProductRecord) :
  (exists card,
      returns (V1.createProductCard productName (Some d)) card /\
      innerHTML card
      = indent 4
        ++ imageBlock "products-card-image" [("style", "width: 100%; height: auto;")] d
        ++ indent 4 ++ "<div class=" ++ q "products-card-body" ++ ">"
        ++ indent 6 ++ "<h3 class=" ++ q "products-card-title" ++ ">"
        ++ titleSpec productName d ++ "</h3>"
        ++ indent 6 ++ paragraphBlock "products-card-description"
                         (plaintextOf (creditCardDescription d))
        ++ indent 6 ++ paragraphBlock "products-card-promo" (plaintextOf (promo d))
        ++ indent 6 ++ paragraphBlock "products-card-notes" (plaintextOf (notes d))
        ++ indent 4 ++ "</div>"
        ++ indent 2) /\
  (exists card,
      returns (V2.createProductCard productName (Some d)) card /\
      innerHTML card
      = indent 4 ++ imageBlock "product-card-image" [] d
        ++ indent 4 ++ "<div class=" ++ q "product-card-body" ++ ">"
        ++ indent 6 ++ "<h3 class=" ++ q "product-title" ++ ">"
        ++ titleSpec productName d ++ "</h3>"
        ++ indent 6 ++ descriptionBlock2 (plaintextOf (creditCardDescription d))
        ++ indent 6 ++ promoBlock2 (plaintextOf (promo d))
        ++ indent 6 ++ notesBlock2 (plaintextOf (notes d))
        ++ indent 6 ++ "<div class=" ++ q "product-cta" ++ ">"
        ++ indent 8 ++ "<a href=" ++ q "#" ++ " class=" ++ q "product-cta-button"
        ++ ">Find out more</a>"
        ++ indent 6 ++ "</div>"
        ++ indent 4 ++ "</div>"
        ++ indent 2) /\
  (forall cls extra,
      imageBlock cls extra d
      = if truthy (orDefault (creditCardImage d ?. _authorUrl) "") then
          "<div class=" ++ q cls ++ ">"
          ++ pictureOuterHTML
               (([("src", orDefault (creditCardImage d ?. _authorUrl) "");
                  ("alt", orDefault (creditCardName d) "Credit Card");
                  ("loading", "lazy")] : Attrs) ++ extra)%list
          ++ "</div>"
        else "").
Proof.
  split; [|split].
  - destruct (card_image_v1 productName d) as (card & Hret & Hinner).
    exists card. split; [exact Hret|].
    rewrite Hinner, !orDefault_plaintext, !textBlock_v1, cardTitle_v1. reflexivity.
  - destruct (card_image_v2 productName d) as (card & Hret & Hinner).
    exists card. split; [exact Hret|].
    rewrite Hinner, !orDefault_plaintext, descriptionBlock_v2, promoBlock_v2, notesBlock_v2,
      cardTitle_v2. reflexivity.
  - intros cls extra. unfold imageBlock.
    destruct (creditCardImage d) as [[[[|c u]|]]|];
      cbn [chain _authorUrl orDefault orElse truthy]; try reflexivity.
    destruct (creditCardName d) as [[|c' n']|]; reflexivity.
Qed.
End RendererMore.

(** ** Requests under any schedule *)

Lemma requests_emitLogs who l p : requests (emitLogs who l p) = requests p.
Proof.
  revert p; induction l as [|x l IH]; intros p; [reflexivity|].
  cbn [emitLogs fold_left]. fold (emitLogs who l (emit who (EvLog (fst x) (snd x)) p)).
  now rewrite IH, requests_emit_log.
Qed.

Lemma requests_emit_move who c p : requests (emit who (EvMoveInstrumentation c) p) = requests p.
Proof. unfold requests, emit. cbn [trace]. rewrite filter_app. cbn. apply app_nil_r. Qed.

Lemma noFetch_logs {A} (l : list (Level * string)) (m : Js A) :
  noFetch m -> noFetch (logs l m).
Proof. induction l as [|[lv s] l IH]; cbn; auto. Qed.

Lemma noFetch_returns {A} (m : Js A) (a : A) : returns m a -> noFetch m.
Proof. intros [l ->]. now apply noFetch_logs. Qed.

Lemma noFetch_bind {A B} (m : Js A) (f : A -> Js B) :
  noFetch m -> (forall a, noFetch (f a)) -> noFetch (bind m f).
Proof. induction m; cbn; intros Hm Hf; try contradiction; auto. Qed.

Lemma noFetch_tryCatch {A} (m : Js A) (h : JsError -> Js A) :
  noFetch m -> (forall e, noFetch (h e)) -> noFetch (tryCatch m h).
Proof. induction m; cbn; intros Hm Hh; try contradiction; auto. Qed.

Lemma noFetch_awaitCall {A} (m : Js A) : noFetch m -> noFetch (awaitCall m).
Proof. induction m; cbn; intros Hm; try contradiction; auto. Qed.

Section Quiet.
Context {host : Host}.
Variable net : Network.

Lemma advance_quiet {A} who (m : Js A) (p : Page) :
  noFetch m ->
  requests (fst (advance who m p)) = requests p /\ quiet (snd (advance who m p)).
Proof.
  revert p; induction m as [a|e|l s k IH|c k IH|u o k IH|k IH]; intros p Hm;
    cbn [advance noFetch] in *; try (split; [reflexivity | exact I || assumption]).
  - destruct (IH (emit who (EvLog l s) p) Hm) as (Hr & Hq).
    now rewrite Hr, requests_emit_log.
  - unfold callMoveInstrumentation. destruct (moveInstrumentation _ _) as [b' a'].
    destruct (IH (withAttributes a' c)
                (setBlockAttrs b' (emit who (EvMoveInstrumentation c) p)) (Hm _))
      as (Hr & Hq).
    split; [|exact Hq]. rewrite Hr. apply requests_emit_move.
  - contradiction.
Qed.

Lemma resume_quiet {A} who (t : Task A) (p : Page) :
  quiet t ->
  requests (fst (resume net who t p)) = requests p /\ quiet (snd (resume net who t p)).
Proof.
  destruct t as [r | u o k | k]; cbn [resume quiet]; intros Hq.
  - now split.
  - apply advance_quiet, Hq.
  - now apply advance_quiet.
Qed.

Lemma Forall_setNth {A} (P : A -> Prop) (i : nat) (x : A) (l : list A) :
  Forall P l -> P x -> Forall P (setNth i x l).
Proof.
  intros Hl Hx. revert i; induction Hl as [|y l Hy Hl IH]; intros [|i]; cbn; auto.
Qed.

Lemma turn_quiet {B} (i : nat) (pool : list (Task B)) (p : Page) :
  Forall quiet pool ->
  requests (fst (turn net i pool p)) = requests p /\
  Forall quiet (snd (turn net i pool p)).
Proof.
  intros Hall. unfold turn. destruct (nth_error pool i) as [t|] eqn:Hi; [|now split].
  assert (Ht : quiet t) by (eapply Forall_forall; [exact Hall | eapply nth_error_In; eauto]).
  destruct (resume_quiet (Item i) t p Ht) as (Hr & Hq).
  destruct (resume net (Item i) t p) as [p' t']. cbn [fst snd] in *.
  split; [exact Hr | now apply Forall_setNth].
Qed.

(** While [Promise.all] waits, no request is made. *)
Lemma promiseAll_quiet {B} (sched : list nat) :
  forall (pool : list (Task B)) (p : Page),
    Forall quiet pool -> requests (fst (promiseAll net sched pool p)) = requests p.
Proof.
  induction sched as [|i sched IH]; intros pool p Hall; cbn [promiseAll];
    destruct (settlement pool); try reflexivity.
  destruct (turn_quiet i pool p Hall) as (Hr & Hq).
  destruct (turn net i pool p) as [p' pool']. cbn [fst snd] in *.
  now rewrite IH.
Qed.

Variable createProductCard : string -> option ProductRecord -> Js Elem.
Hypothesis createProductCard_returns :
  forall n r, exists card, returns (createProductCard n r) card.

Lemma noFetch_createProductCard n r : noFetch (createProductCard n r).
Proof.
  destruct (createProductCard_returns n r) as (card & H). exact (noFetch_returns _ _ H).
Qed.

(** A callback makes its request before its first await, and none after. *)
Lemma processItem_requests_once (k : nat) (it : ProductItem) (p : Page) :
  requests (fst (advance (Item k) (processItem createProductCard it) p))
  = (requests p ++ [(Item k, EvFetch (requestUrl (fragmentPath it)) requestOptions)])%list /\
  quiet (snd (advance (Item k) (processItem createProductCard it) p)).
Proof.
  unfold processItem, getProductDataByContentPath, requestUrl, requestOptions. js_unfold.
  split; [now rewrite requests_emit_fetch, !requests_emit_log|].
  cbn [quiet]. intros r.
  apply noFetch_tryCatch;
    [|intros e; cbn [noFetch]; apply noFetch_createProductCard].
  apply noFetch_bind.
  - apply noFetch_awaitCall, noFetch_tryCatch; [|intros e; exact I].
    apply noFetch_bind; [destruct r; exact I|].
    intros response. cbn [noFetch]. destruct (negb (ok response)); [exact I|].
    cbn [noFetch]. apply noFetch_bind; [destruct (json response); exact I|].
    intros cf. cbn [noFetch].
    destruct (cf ?. data ?. productCreditCardModelByPath ?. item); exact I.
  - intros fd. apply noFetch_bind; [apply noFetch_createProductCard|].
    intros card. cbn [bind noFetch]. intros c. exact I.
Qed.

Lemma spawnAll_requests (items : list ProductItem) :
  forall (k : nat) (p : Page),
    requests (fst (spawnAll (processItem createProductCard) k items p))
    = (requests p ++ requestsOf k items)%list /\
    Forall quiet (snd (spawnAll (processItem createProductCard) k items p)).
Proof.
  induction items as [|it items IH]; intros k p; cbn [spawnAll requestsOf].
  - rewrite app_nil_r. now split.
  - destruct (processItem_requests_once k it p) as (Hr & Hq).
    destruct (advance (Item k) (processItem createProductCard it) p) as [p1 t1].
    destruct (IH (S k) p1) as (Hr' & Hq').
    destruct (spawnAll (processItem createProductCard) (S k) items p1) as [p2 ts].
    cbn [fst snd] in *. split; [|now constructor].
    now rewrite Hr', Hr, <- app_assoc.
Qed.

(** The requests after the callbacks were started and [Promise.all] has
    been awaited under any schedule. *)
Lemma callbacks_requests (items : list ProductItem) (sched : list nat) (p : Page) :
  requests (fst (promiseAll net sched
                   (snd (spawnAll (processItem createProductCard) 0 items p))
                   (fst (spawnAll (processItem createProductCard) 0 items p))))
  = (requests p ++ requestsOf 0 items)%list.
Proof.
  destruct (spawnAll_requests items 0 p) as (Hr & Hq).
  now rewrite promiseAll_quiet.
Qed.
End Quiet.

(** ** The block under any schedule *)

Section View.
Context {host : Host}.
Variable net : Network.

(** The callbacks never touch what the block shows. *)
Lemma advance_view {A} who (m : Js A) (p : Page) :
  content (fst (advance who m p)) = content p /\
  display (fst (advance who m p)) = display p.
Proof.
  revert p; induction m as [a|e|l s k IH|c k IH|u o k IH|k IH]; intros p;
    cbn [advance fst]; try (split; reflexivity).
  - destruct (IH (emit who (EvLog l s) p)) as (Hc & Hd). now rewrite Hc, Hd.
  - unfold callMoveInstrumentation. destruct (moveInstrumentation _ _) as [b' a'].
    destruct (IH (withAttributes a' c)
                (setBlockAttrs b' (emit who (EvMoveInstrumentation c) p))) as (Hc & Hd).
    now rewrite Hc, Hd.
Qed.

Lemma turn_view {B} (i : nat) (pool : list (Task B)) (p : Page) :
  content (fst (turn net i pool p)) = content p /\
  display (fst (turn net i pool p)) = display p.
Proof.
  unfold turn. destruct (nth_error pool i) as [t|]; [|now split].
  pose proof (@advance_view B (Item i)) as H.
  destruct t as [r | u o k | k]; cbn [resume].
  - now split.
  - specialize (H (k (net (Item i) u o)) p).
    destruct (advance (Item i) (k (net (Item i) u o)) p). exact H.
  - specialize (H k p). destruct (advance (Item i) k p). exact H.
Qed.

Lemma promiseAll_view {B} (sched : list nat) :
  forall (pool : list (Task B)) (p : Page),
    content (fst (promiseAll net sched pool p)) = content p /\
    display (fst (promiseAll net sched pool p)) = display p.
Proof.
  induction sched as [|i sched IH]; intros pool p; cbn [promiseAll];
    destruct (settlement pool); try (split; reflexivity).
  destruct (turn_view i pool p) as (Hc & Hd).
  destruct (turn net i pool p) as [p' pool']. cbn [fst] in *.
  destruct (IH pool' p') as (Hc' & Hd'). now rewrite Hc', Hd'.
Qed.

Lemma spawnAll_view {A B} (f : A -> Js B) (items : list A) :
  forall (k : nat) (p : Page),
    content (fst (spawnAll f k items p)) = content p /\
    display (fst (spawnAll f k items p)) = display p.
Proof.
  induction items as [|it items IH]; intros k p; cbn [spawnAll]; [now split|].
  destruct (advance_view (Item k) (f it) p) as (Hc & Hd).
  destruct (advance (Item k) (f it) p) as [p1 t1]. cbn [fst] in *.
  destruct (IH (S k) p1) as (Hc' & Hd').
  destruct (spawnAll f (S k) items p1) as [p2 ts]. cbn [fst] in *.
  now rewrite Hc', Hd'.
Qed.

(** Callbacks that all finish never make [Promise.all] reject: under any
    schedule it is still pending, or fulfilled with one value per callback. *)
Lemma promiseAll_pending_or_fulfilled {B} (QQ : nat -> B -> list Event -> Prop)
  (p0 : Page) (sched : list nat) :
  forall (budget : nat -> nat) (pool : list (Task B)) (p : Page),
    poolOK net QQ p0 budget pool p ->
    snd (promiseAll net sched pool p) = None \/
    exists values,
      snd (promiseAll net sched pool p) = Some (inr values) /\
      List.length values = List.length pool.
Proof.
  induction sched as [|i sched IH]; intros budget pool p Hok; cbn [promiseAll];
    destruct (settlement pool) as [r|] eqn:Hset.
  - destruct (poolOK_settlement net QQ p0 _ _ _ _ Hok Hset) as (vs & -> & Hlen & _).
    right. exists vs. split; [reflexivity | exact Hlen].
  - now left.
  - destruct (poolOK_settlement net QQ p0 _ _ _ _ Hok Hset) as (vs & -> & Hlen & _).
    right. exists vs. split; [reflexivity | exact Hlen].
  - destruct (turn_poolOK net QQ p0 budget pool p i Hok) as (Hok' & Hlen & _).
    destruct (turn net i pool p) as [p' pool']. cbn [fst snd] in *.
    destruct (IH _ pool' p' Hok') as [Hn | (vs & Hv & Hl)]; [now left|].
    right. exists vs. split; [exact Hv | congruence].
Qed.
End View.

Section OrchestratorMore.
Context {host : Host}.
Variable net : Network.

(** The page on which [decorate] goes on after the parser. *)
Lemma after_parser (block : Block) (l : Level) (s : string) :
  exists p1,
    run net Main (parseProductItems block) (emit Main (EvLog l s) (pageOf block))
    = (p1, inr (itemsOf block)) /\
    requests p1 = [] /\ moves (map snd (trace p1)) = [] /\
    content p1 = Authored (blockChildNodes block) /\
    display p1 = blockDisplay block /\
    attrsOfBlock p1 = blockAttributes block.
Proof.
  destruct (parseProductItems_returns block) as [lg ->]. rewrite run_logs. cbn [run].
  eexists. split; [reflexivity|]. split; [now rewrite requests_emitLogs|].
  assert (H : forall p, moves (map snd (trace (emitLogs Main lg p))) = moves (map snd (trace p))
                        /\ content (emitLogs Main lg p) = content p
                        /\ display (emitLogs Main lg p) = display p
                        /\ attrsOfBlock (emitLogs Main lg p) = attrsOfBlock p).
  { induction lg as [|x lg IH]; intros p; [now repeat split|].
    cbn [emitLogs fold_left]. fold (emitLogs Main lg (emit Main (EvLog (fst x) (snd x)) p)).
    destruct (IH (emit Main (EvLog (fst x) (snd x)) p)) as (Hm & Hc & Hd & Ha).
    rewrite Hm, Hc, Hd, Ha. repeat split.
    cbn [emit trace]. rewrite map_app. unfold moves. rewrite filter_app. cbn.
    apply app_nil_r. }
  destruct (H (emit Main (EvLog l s) (pageOf block))) as (Hm & Hc & Hd & Ha).
  rewrite Hm, Hc, Hd, Ha. repeat split.
Qed.

(** X8.  For a block without a qualifying row [decorate] ends at once,
    whatever the schedule: the block shows the message that there are no
    products (and, in the second revision, is displayed as a block), no
    request is made and [moveInstrumentation] is not called. *)
Theorem decorate_without_items (sched : list nat) (block : Block) :
  itemsOf block = [] ->
  (snd (V1.decorate net sched block) = true /\
   content (fst (V1.decorate net sched block)) = Markup "<p>No products to display</p>" [] /\
   display (fst (V1.decorate net sched block)) = blockDisplay block /\
   requests (fst (V1.decorate net sched block)) = [] /\
   moves (map snd (trace (fst (V1.decorate net sched block)))) = []) /\
  (snd (V2.decorate net sched block) = true /\
   content (fst (V2.decorate net sched block)) = Markup "<p>No products to display</p>" [] /\
   display (fst (V2.decorate net sched block)) = "block" /\
   requests (fst (V2.decorate net sched block)) = [] /\
   moves (map snd (trace (fst (V2.decorate net sched block)))) = []).
Proof.
  intros Hnone. split.
  - unfold V1.decorate.
    destruct (after_parser block info "Starting products block decoration")
      as (p1 & -> & Hreq & Hmov & _ & Hd & _).
    rewrite Hnone. cbn [List.length Nat.eqb fst snd setInnerHTML content display].
    repeat split; try assumption.
    + change (requests (emit Main (EvLog warn "No product items found in block") p1) = []).
      now rewrite requests_emit_log.
    + unfold setInnerHTML, emit. cbn [trace fst]. rewrite map_app. unfold moves in *.
      rewrite filter_app, Hmov. reflexivity.
  - unfold V2.decorate.
    destruct (after_parser block info "Starting products block decoration")
      as (p1 & -> & Hreq & Hmov & _ & Hd & _).
    rewrite Hnone. cbn [List.length Nat.eqb fst snd setInnerHTML content display].
    repeat split.
    + change (requests (emit Main (EvLog warn "No product items found in block") p1) = []).
      now rewrite requests_emit_log.
    + unfold setInnerHTML, setDisplay, emit. cbn [trace fst]. rewrite map_app.
      unfold moves in *. rewrite filter_app, Hmov. reflexivity.
Qed.

(** X9.  Whatever the network and the schedule, [decorate] never shows its
    error page.  For a block with items it is either still waiting, the
    block showing the loading notice, or done, the block holding a list of
    as many cards as there are items; the second revision shows the block
    as [block] until the list is in place. *)
Theorem decorate_never_shows_error_page (sched : list nat) (block : Block) :
  (content (fst (V1.decorate net sched block)) <> Markup errorMarkup [] /\
   (itemsOf block <> [] ->
    (snd (V1.decorate net sched block) = false /\
     content (fst (V1.decorate net sched block)) = Markup loadingMarkup []) \/
    (snd (V1.decorate net sched block) = true /\
     exists cards,
       content (fst (V1.decorate net sched block))
       = Markup "" [mkElem "ul" "products-list" [] "" cards] /\
       List.length cards = List.length (itemsOf block)))) /\
  (content (fst (V2.decorate net sched block)) <> Markup errorMarkup [] /\
   (itemsOf block <> [] ->
    (snd (V2.decorate net sched block) = false /\
     content (fst (V2.decorate net sched block)) = Markup loadingMarkup [] /\
     display (fst (V2.decorate net sched block)) = "block") \/
    (snd (V2.decorate net sched block) = true /\
     display (fst (V2.decorate net sched block)) = "" /\
     exists cards,
       content (fst (V2.decorate net sched block))
       = Markup "" [mkElem "div" "products-title" [] "<h2>Your card options</h2>" [];
                    mkElem "ul" "" [] "" cards] /\
       List.length cards = List.length (itemsOf block)))).
Proof.
  split.
  - assert (H : (itemsOf block = [] /\
                 content (fst (V1.decorate net sched block))
                 = Markup "<p>No products to display</p>" []) \/
                (snd (V1.decorate net sched block) = false /\
                 content (fst (V1.decorate net sched block)) = Markup loadingMarkup []) \/
                (snd (V1.decorate net sched block) = true /\
                 exists cards,
                   content (fst (V1.decorate net sched block))
                   = Markup "" [mkElem "ul" "products-list" [] "" cards] /\
                   List.length cards = List.length (itemsOf block))).
    { unfold V1.decorate.
      destruct (after_parser block info "Starting products block decoration")
        as (p1 & -> & _).
      destruct (itemsOf block) as [|it0 its] eqn:Hitems; [now left|]. right.
      rewrite <- Hitems.
      destruct (Nat.eqb_spec (List.length (itemsOf block)) 0) as [H0|_];
        [apply length_zero_iff_nil in H0; congruence|].
      set (p2 := setInnerHTML _ p1).
      pose proof (spawnAll_poolOK net V1.createProductCard returns_v1 (itemsOf block) p2)
        as Hok.
      pose proof (spawnAll_finishes net V1.createProductCard returns_v1 (itemsOf block) 0 p2)
        as (Hlen & _).
      pose proof (spawnAll_view (processItem V1.createProductCard) (itemsOf block) 0 p2)
        as (Hc & _).
      destruct (spawnAll _ 0 (itemsOf block) p2) as [p3 pool]. cbn [fst snd] in *.
      pose proof (promiseAll_pending_or_fulfilled net _ p2 sched _ pool p3 Hok) as Hres.
      pose proof (promiseAll_view net sched pool p3) as (Hc' & _).
      destruct (promiseAll net sched pool p3) as [p' r]. cbn [fst snd] in *.
      destruct Hres as [-> | (cards & -> & Hl)].
      - left. cbn [fst snd]. split; [reflexivity|]. now rewrite Hc', Hc.
      - right. cbn [fst snd]. split; [reflexivity|]. exists cards.
        rewrite forEachPure_appendChild. split; [reflexivity | congruence]. }
    split.
    + destruct H as [(_ & ->) | [(_ & ->) | (_ & cards & -> & _)]]; discriminate.
    + intros Hne. destruct H as [(Hnone & _) | H]; [contradiction | exact H].
  - assert (H : (itemsOf block = [] /\
                 content (fst (V2.decorate net sched block))
                 = Markup "<p>No products to display</p>" []) \/
                (snd (V2.decorate net sched block) = false /\
                 content (fst (V2.decorate net sched block)) = Markup loadingMarkup [] /\
                 display (fst (V2.decorate net sched block)) = "block") \/
                (snd (V2.decorate net sched block) = true /\
                 display (fst (V2.decorate net sched block)) = "" /\
                 exists cards,
                   content (fst (V2.decorate net sched block))
                   = Markup "" [mkElem "div" "products-title" []
                                  "<h2>Your card options</h2>" [];
                                mkElem "ul" "" [] "" cards] /\
                   List.length cards = List.length (itemsOf block))).
    { unfold V2.decorate.
      destruct (after_parser block info "Starting products block decoration")
        as (p1 & -> & _).
      destruct (itemsOf block) as [|it0 its] eqn:Hitems; [now left|]. right.
      rewrite <- Hitems.
      destruct (Nat.eqb_spec (List.length (itemsOf block)) 0) as [H0|_];
        [apply length_zero_iff_nil in H0; congruence|].
      set (p2 := setInnerHTML _ (setDisplay "block" p1)).
      pose proof (spawnAll_poolOK net V2.createProductCard returns_v2 (itemsOf block) p2)
        as Hok.
      pose proof (spawnAll_finishes net V2.createProductCard returns_v2 (itemsOf block) 0 p2)
        as (Hlen & _).
      pose proof (spawnAll_view (processItem V2.createProductCard) (itemsOf block) 0 p2)
        as (Hc & Hd).
      destruct (spawnAll _ 0 (itemsOf block) p2) as [p3 pool]. cbn [fst snd] in *.
      pose proof (promiseAll_pending_or_fulfilled net _ p2 sched _ pool p3 Hok) as Hres.
      pose proof (promiseAll_view net sched pool p3) as (Hc' & Hd').
      destruct (promiseAll net sched pool p3) as [p' r]. cbn [fst snd] in *.
      destruct Hres as [-> | (cards & -> & Hl)].
      - left. cbn [fst snd]. split; [reflexivity|]. now rewrite Hc', Hc, Hd', Hd.
      - right. cbn [fst snd]. split; [reflexivity|]. split; [reflexivity|]. exists cards.
        rewrite forEachPure_appendChild. split; [reflexivity | congruence]. }
    split.
    + destruct H as [(_ & ->) | [(_ & -> & _) | (_ & _ & cards & -> & _)]]; discriminate.
    + intros Hne. destruct H as [(Hnone & _) | H]; [contradiction | exact H].
Qed.

(** X10.  Whatever the network and the schedule, the requests [decorate]
    has made are exactly one per item, each to the URL of its item's path
    with credentials included, in the order of the items: they are all made
    before the first response is looked at, and no request is repeated. *)
Theorem decorate_requests_once_per_item (sched : list nat) (block : Block) :
  requests (fst (V1.decorate net sched block)) = requestsOf 0 (itemsOf block) /\
  requests (fst (V2.decorate net sched block)) = requestsOf 0 (itemsOf block).
Proof.
  split.
  - unfold V1.decorate.
    destruct (after_parser block info "Starting products block decoration")
      as (p1 & -> & Hreq & _).
    destruct (Nat.eqb_spec (List.length (itemsOf block)) 0) as [H0|_].
    + apply length_zero_iff_nil in H0. rewrite H0. cbn [fst requestsOf].
      change (requests (emit Main (EvLog warn "No product items found in block") p1) = []).
      now rewrite requests_emit_log.
    + set (p2 := setInnerHTML _ p1).
      pose proof (callbacks_requests net V1.createProductCard returns_v1 (itemsOf block)
                    sched p2) as Hall.
      destruct (spawnAll _ 0 (itemsOf block) p2) as [p3 pool]. cbn [fst snd] in Hall.
      destruct (promiseAll net sched pool p3) as [p' [[e|cards]|]]; cbn [fst snd] in *.
      * change (requests (emit Main (EvLog error "Failed to decorate products block") p')
                = requestsOf 0 (itemsOf block)).
        rewrite requests_emit_log, Hall. exact (f_equal (fun l => l ++ _)%list Hreq).
      * match goal with
        | |- requests (emit Main ?e (appendToBlock ?u (setInnerHTML ?h p'))) = _ =>
            change (requests (emit Main e p') = requestsOf 0 (itemsOf block))
        end.
        rewrite requests_emit_log, Hall. exact (f_equal (fun l => l ++ _)%list Hreq).
      * rewrite Hall. exact (f_equal (fun l => l ++ _)%list Hreq).
  - unfold V2.decorate.
    destruct (after_parser block info "Starting products block decoration")
      as (p1 & -> & Hreq & _).
    destruct (Nat.eqb_spec (List.length (itemsOf block)) 0) as [H0|_].
    + apply length_zero_iff_nil in H0. rewrite H0. cbn [fst requestsOf].
      change (requests (emit Main (EvLog warn "No product items found in block") p1) = []).
      now rewrite requests_emit_log.
    + set (p2 := setInnerHTML _ (setDisplay "block" p1)).
      pose proof (callbacks_requests net V2.createProductCard returns_v2 (itemsOf block)
                    sched p2) as Hall.
      destruct (spawnAll _ 0 (itemsOf block) p2) as [p3 pool]. cbn [fst snd] in Hall.
      destruct (promiseAll net sched pool p3) as [p' [[e|cards]|]]; cbn [fst snd] in *.
      * change (requests (emit Main (EvLog error "Failed to decorate products block") p')
                = requestsOf 0 (itemsOf block)).
        rewrite requests_emit_log, Hall. exact (f_equal (fun l => l ++ _)%list Hreq).
      * match goal with
        | |- requests (emit Main ?e _) = _ =>
            change (requests (emit Main e p') = requestsOf 0 (itemsOf block))
        end.
        rewrite requests_emit_log, Hall. exact (f_equal (fun l => l ++ _)%list Hreq).
      * rewrite Hall. exact (f_equal (fun l => l ++ _)%list Hreq).
Qed.
End OrchestratorMore.

(** ** Before the first response *)

Lemma settlement_awaiting {A} (pool : list (Task A)) :
  pool <> [] ->
  Forall (fun t => exists u o k, t = AwaitingFetch u o k) pool ->
  settlement pool = None.
Proof.
  intros Hne Hall. unfold settlement.
  assert (H1 : firstRejected pool = None).
  { induction Hall as [|t ts (u & o & k & ->) _ IH]; [reflexivity|].
    destruct ts as [|t' ts]; [reflexivity|]. cbn [firstRejected]. apply IH. discriminate. }
  rewrite H1. destruct Hall as [|t ts (u & o & k & ->) _]; [congruence | reflexivity].
Qed.

Section Loading.
Context {host : Host}.
Variable net : Network.

Lemma spawnAll_awaiting (createProductCard : string -> option ProductRecord -> Js Elem)
  (items : list ProductItem) :
  forall (k : nat) (p : Page),
    Forall (fun t => exists u o c, t = AwaitingFetch u o c)
      (snd (spawnAll (processItem createProductCard) k items p)) /\
    List.length (snd (spawnAll (processItem createProductCard) k items p))
    = List.length items.
Proof.
  induction items as [|it items IH]; intros k p; cbn [spawnAll]; [now split|].
  assert (Ht : exists u o c,
             snd (advance (Item k) (processItem createProductCard it) p)
             = AwaitingFetch u o c).
  { unfold processItem, getProductDataByContentPath. js_unfold. eauto. }
  destruct (advance (Item k) (processItem createProductCard it) p) as [p1 t1].
  destruct (IH (S k) p1) as (Hall & Hlen).
  destruct (spawnAll (processItem createProductCard) (S k) items p1) as [p2 ts].
  cbn [fst snd] in *. split; [now constructor | cbn [List.length]; now rewrite Hlen].
Qed.

(** X11.  For a block with items, as long as no response has arrived
    [decorate] is waiting: the block shows the loading notice, and the
    requests of all items have already been made. *)
Theorem decorate_waits_with_loading_notice (block : Block) :
  itemsOf block <> [] ->
  (snd (V1.decorate net [] block) = false /\
   content (fst (V1.decorate net [] block)) = Markup loadingMarkup [] /\
   requests (fst (V1.decorate net [] block)) = requestsOf 0 (itemsOf block)) /\
  (snd (V2.decorate net [] block) = false /\
   content (fst (V2.decorate net [] block)) = Markup loadingMarkup [] /\
   requests (fst (V2.decorate net [] block)) = requestsOf 0 (itemsOf block)).
Proof.
  intros Hne.
  assert (Hpending : forall cpc p2,
             snd (promiseAll net []
                    (snd (spawnAll (processItem cpc) 0 (itemsOf block) p2))
                    (fst (spawnAll (processItem cpc) 0 (itemsOf block) p2))) = None).
  { intros cpc p2. destruct (spawnAll_awaiting cpc (itemsOf block) 0 p2) as (Hall & Hlen).
    cbn [promiseAll]. rewrite settlement_awaiting; [reflexivity | | exact Hall].
    intros Hnil. rewrite Hnil in Hlen. symmetry in Hlen.
    now apply length_zero_iff_nil in Hlen. }
  split.
  - unfold V1.decorate.
    destruct (after_parser net block info "Starting products block decoration")
      as (p1 & -> & Hreq & _).
    destruct (Nat.eqb_spec (List.length (itemsOf block)) 0) as [H0|_];
      [apply length_zero_iff_nil in H0; congruence|].
    set (p2 := setInnerHTML _ p1). specialize (Hpending V1.createProductCard p2).
    pose proof (callbacks_requests net V1.createProductCard returns_v1
                  (itemsOf block) [] p2) as Hall.
    pose proof (spawnAll_view (processItem V1.createProductCard) (itemsOf block) 0 p2)
      as (Hc & _).
    destruct (spawnAll _ 0 (itemsOf block) p2) as [p3 pool]. cbn [fst snd] in *.
    pose proof (promiseAll_view net [] pool p3) as (Hc' & _).
    destruct (promiseAll net [] pool p3) as [p' r]. cbn [fst snd] in *. subst r.
    cbn [fst snd]. split; [reflexivity|]. split; [now rewrite Hc', Hc|].
    rewrite Hall. exact (f_equal (fun l => l ++ _)%list Hreq).
  - unfold V2.decorate.
    destruct (after_parser net block info "Starting products block decoration")
      as (p1 & -> & Hreq & _).
    destruct (Nat.eqb_spec (List.length (itemsOf block)) 0) as [H0|_];
      [apply length_zero_iff_nil in H0; congruence|].
    set (p2 := setInnerHTML _ (setDisplay "block" p1)).
    specialize (Hpending V2.createProductCard p2).
    pose proof (callbacks_requests net V2.createProductCard returns_v2
                  (itemsOf block) [] p2) as Hall.
    pose proof (spawnAll_view (processItem V2.createProductCard) (itemsOf block) 0 p2)
      as (Hc & _).
    destruct (spawnAll _ 0 (itemsOf block) p2) as [p3 pool]. cbn [fst snd] in *.
    pose proof (promiseAll_view net [] pool p3) as (Hc' & _).
    destruct (promiseAll net [] pool p3) as [p' r]. cbn [fst snd] in *. subst r.
    cbn [fst snd]. split; [reflexivity|]. split; [now rewrite Hc', Hc|].
    rewrite Hall. exact (f_equal (fun l => l ++ _)%list Hreq).
Qed.
End Loading.

Lemma decorate_without_items_witness :
  itemsOf noItemsBlock = [] /\
  content (fst (V2.decorate (host := sampleHost) sampleNet sampleSchedule noItemsBlock))
  = Markup "<p>No products to display</p>" [] /\
  requests (fst (V2.decorate (host := sampleHost) sampleNet sampleSchedule noItemsBlock)) = [].
Proof.
  assert (Hnone : itemsOf noItemsBlock = []) by reflexivity.
  split; [exact Hnone|].
  destruct (decorate_without_items (host := sampleHost) sampleNet sampleSchedule
              noItemsBlock Hnone) as (_ & (_ & Hc & _ & Hr & _)).
  split; assumption.
Defined.

Lemma decorate_waits_with_loading_notice_witness :
  itemsOf sampleBlock <> [] /\
  snd (V1.decorate (host := sampleHost) sampleNet [] sampleBlock) = false /\
  requests (fst (V1.decorate (host := sampleHost) sampleNet [] sampleBlock))
  = requestsOf 0 (itemsOf sampleBlock).
Proof.
  assert (Hne : itemsOf sampleBlock <> []) by (vm_compute; discriminate).
  split; [exact Hne|].
  destruct (decorate_waits_with_loading_notice (host := sampleHost) sampleNet sampleBlock Hne)
    as ((Hs & _ & Hr) & _).
  split; assumption.
Defined.
